(** * The questionnaire server (main.go): catalog, answer store, HTTP handlers

    A shallow embedding of [main.go].  Go strings and request/response
    bodies are byte strings ([string]); Go's [int] is an integer in the
    64-bit range; a Go slice is either [nil] or an allocated sequence.

    The program calls three standard packages.  Their behaviour is modelled
    in the modules [Sync] (sync.Mutex), [JSON] (encoding/json, restricted to
    the types the program encodes and decodes) and [HTTP]
    (net/http's ResponseWriter and http.Error). *)

From Stdlib Require Import ZArith NArith List String Ascii Bool Lia.
From Stdlib Require Import Permutation DecimalString.
From Stdlib Require DecimalFacts DecimalPos.
Import ListNotations.

Local Open Scope string_scope.
Local Open Scope list_scope.
Local Open Scope Z_scope.

Set Implicit Arguments.
Set Warnings "-register-all".

(* ================================================================== *)
(** ** Go values *)

(** A Go slice value as the program can observe it: the nil slice, or an
    allocated slice with its elements in index order. *)
Inductive slice (A : Type) : Type :=
| nil_slice : slice A
| mk_slice (elems : list A) : slice A.
Arguments nil_slice {A}.

Definition elements {A} (s : slice A) : list A :=
  match s with
  | nil_slice => []
  | mk_slice l => l
  end.

(** [len(s)] *)
Definition len {A} (s : slice A) : nat := List.length (elements s).

(** [append(s, x)]: the result is allocated and holds the elements of [s]
    followed by [x]. *)
Definition append {A} (s : slice A) (x : A) : slice A :=
  mk_slice (elements s ++ [x]).

(** Computations that may not return: [Done a] is a normal return,
    [Blocked] a goroutine waiting for ever, [Fatal] a runtime fatal error. *)
Inductive exec (A : Type) : Type :=
| Done (a : A)
| Blocked
| Fatal.
Arguments Blocked {A}.
Arguments Fatal {A}.

Definition bind {A B} (m : exec A) (k : A -> exec B) : exec B :=
  match m with
  | Done a => k a
  | Blocked => Blocked
  | Fatal => Fatal
  end.

Notation "x <- m ;; k" := (bind m (fun x => k))
  (at level 61, m at next level, right associativity).

(** Byte classification helpers. *)
Definition code (c : ascii) : N := N_of_ascii c.

Definition between (lo hi : N) (c : ascii) : bool :=
  ((lo <=? code c) && (code c <=? hi))%N.

(** The double-quote byte, and a helper to write JSON texts with
    apostrophes standing for double quotes. *)
Definition dquote : ascii := "034"%char.

Fixpoint dq (s : string) : string :=
  match s with
  | EmptyString => EmptyString
  | String c r => String (if (c =? "'")%char then dquote else c) (dq r)
  end.

Fixpoint string_forallb (p : ascii -> bool) (s : string) : bool :=
  match s with
  | EmptyString => true
  | String c r => p c && string_forallb p r
  end.

(* ================================================================== *)
(** ** The data types of main.go *)

(** Go's [int], on a 64-bit target. *)
Definition intSize : Z := 64.
Definition minInt : Z := - 2 ^ (intSize - 1).
Definition maxInt : Z := 2 ^ (intSize - 1) - 1.

(** [type Question struct], JSON fields "id", "text", "type". *)
Record Question := mkQuestion {
  ID : Z;
  Text : string;
  Type_ : string
}.

(** [type Answer struct], JSON fields "questionId", "value". *)
Record Answer := mkAnswer {
  QuestionID : Z;
  Value : string
}.

(** [type AnswersRequest struct], JSON field "answers". *)
Record AnswersRequest := mkAnswersRequest {
  Answers : slice Answer
}.

(** The zero values, as [var req AnswersRequest] declares. *)
Definition zeroAnswer : Answer := mkAnswer 0 EmptyString.
Definition zeroAnswersRequest : AnswersRequest := mkAnswersRequest nil_slice.

(* ================================================================== *)
(** ** sync.Mutex *)

Module Sync.

(** The zero value of a Mutex is an unlocked mutex. *)
Inductive Mutex := Unlocked | Locked.

(** [m.Lock()]: returns once the mutex is acquired; a caller that finds
    it locked waits. *)
Definition Lock (m : Mutex) : exec Mutex :=
  match m with
  | Unlocked => Done Locked
  | Locked => Blocked
  end.

(** [m.Unlock()]: a run-time fatal error if [m] is not locked. *)
Definition Unlock (m : Mutex) : exec Mutex :=
  match m with
  | Locked => Done Unlocked
  | Unlocked => Fatal
  end.

End Sync.

(* ================================================================== *)
(** ** encoding/json, as far as the program uses it

    [Decode] follows json.Decoder.Decode on a body that is read in full:
    the scanner's push-down automaton ([scanner.go]) delimits the first
    JSON value of the body, and the value is then stored into an
    [AnswersRequest] ([decode.go]).  [Marshal] follows [encode.go] for the
    two payload types the program writes, with the HTML escaping an Encoder
    applies. *)

Module JSON.

Inductive json :=
| JNull
| JBool (b : bool)
| JNumber (lit : string)       (* the number literal as written *)
| JString (s : string)         (* unquoted *)
| JArray (items : list json)
| JObject (pairs : list (string * json)).   (* unquoted keys, in order *)

(** *** UTF-8 (unicode/utf8) *)

Definition isCont (lo hi : N) (s : string) : bool :=
  match s with
  | String c _ => between lo hi c
  | EmptyString => false
  end.

Definition tail (s : string) : string :=
  match s with
  | String _ r => r
  | EmptyString => EmptyString
  end.

Fixpoint drop (n : nat) (s : string) : string :=
  match n with
  | O => s
  | S k => drop k (tail s)
  end.

(** The size utf8.DecodeRune reports for a sequence starting with the
    non-ASCII byte [c] followed by [rest]: 2, 3 or 4 for a well-formed
    encoding, 1 for an invalid one (RuneError). *)
Definition runeLen (c : ascii) (rest : string) : nat :=
  let c2 := isCont 128 191 (tail rest) in
  let c3 := isCont 128 191 (tail (tail rest)) in
  if between 194 223 c then (if isCont 128 191 rest then 2 else 1)%nat
  else if between 224 224 c then (if isCont 160 191 rest && c2 then 3 else 1)%nat
  else if between 225 236 c then (if isCont 128 191 rest && c2 then 3 else 1)%nat
  else if between 237 237 c then (if isCont 128 159 rest && c2 then 3 else 1)%nat
  else if between 238 239 c then (if isCont 128 191 rest && c2 then 3 else 1)%nat
  else if between 240 240 c then (if isCont 144 191 rest && c2 && c3 then 4 else 1)%nat
  else if between 241 243 c then (if isCont 128 191 rest && c2 && c3 then 4 else 1)%nat
  else if between 244 244 c then (if isCont 128 143 rest && c2 && c3 then 4 else 1)%nat
  else 1%nat.

Definition byte_of (n : N) : ascii := ascii_of_N (n mod 256).

(** U+FFFD, the replacement character, in UTF-8. *)
Definition replacementChar : string :=
  String (byte_of 239) (String (byte_of 191) (String (byte_of 189) EmptyString)).

(** utf8.EncodeRune *)
Definition encodeRune (r : N) : string :=
  (if r <? 128 then String (byte_of r) EmptyString
   else if r <? 2048 then
     String (byte_of (192 + r / 64)) (String (byte_of (128 + r mod 64)) EmptyString)
   else if ((55296 <=? r) && (r <? 57344)) || (1114111 <? r) then replacementChar
   else if r <? 65536 then
     String (byte_of (224 + r / 4096))
       (String (byte_of (128 + (r / 64) mod 64))
          (String (byte_of (128 + r mod 64)) EmptyString))
   else
     String (byte_of (240 + r / 262144))
       (String (byte_of (128 + (r / 4096) mod 64))
          (String (byte_of (128 + (r / 64) mod 64))
             (String (byte_of (128 + r mod 64)) EmptyString))))%N.

(** *** Unquoting string literals ([unquoteBytes]) *)

Definition hexval (c : ascii) : option N :=
  if between 48 57 c then Some (code c - 48)%N
  else if between 97 102 c then Some (code c - 87)%N
  else if between 65 70 c then Some (code c - 55)%N
  else None.

Definition isHex (c : ascii) : bool :=
  match hexval c with Some _ => true | None => false end.

(** [getu4]: the code unit of a [\uXXXX] escape at the head of [s]. *)
Definition getu4 (s : string) : option N :=
  match s with
  | String b (String u (String h1 (String h2 (String h3 (String h4 _))))) =>
      if ((b =? "\") && (u =? "u"))%char then
        match hexval h1, hexval h2, hexval h3, hexval h4 with
        | Some a, Some b, Some c, Some d => Some (((a * 16 + b) * 16 + c) * 16 + d)%N
        | _, _, _, _ => None
        end
      else None
  | _ => None
  end.

Definition isSurrogate (r : N) : bool := ((55296 <=? r) && (r <? 57344))%N.

(** utf16.DecodeRune; [None] stands for the replacement character. *)
Definition utf16_DecodeRune (r1 : N) (r2 : option N) : option N :=
  match r2 with
  | Some r2 =>
      if ((55296 <=? r1) && (r1 <? 56320) && (56320 <=? r2) && (r2 <? 57344))%N
      then Some ((r1 - 55296) * 1024 + (r2 - 56320) + 65536)%N
      else None
  | None => None
  end.

(** Position of the unquoting loop inside the literal: at a fresh byte,
    copying the continuation bytes of a well-formed rune, or skipping
    the remaining bytes of an escape that has been translated. *)
Inductive ustate := UNormal | UCopy (k : nat) | USkip (k : nat).

Definition ucopy (k : nat) : ustate :=
  match k with O => UNormal | _ => UCopy k end.

Definition uskip (k : nat) : ustate :=
  match k with O => UNormal | _ => USkip k end.

Definition prepend (p : string) (r : option string) : option string :=
  match r with
  | Some s => Some (p ++ s)%string
  | None => None
  end.

(** The contents of a string literal (without the enclosing quotes) to
    the Go string it denotes; [None] where [unquoteBytes] reports
    failure. *)
Fixpoint unquoteFrom (st : ustate) (s : string) : option string :=
  match s with
  | EmptyString => Some EmptyString
  | String c rest =>
      match st with
      | UCopy k => prepend (String c EmptyString) (unquoteFrom (ucopy (pred k)) rest)
      | USkip k => unquoteFrom (uskip (pred k)) rest
      | UNormal =>
          if (c =? "\")%char then
            match rest with
            | EmptyString => None
            | String e _ =>
                if ((e =? dquote) || (e =? "\") || (e =? "/") || (e =? "'"))%char
                then prepend (String e EmptyString) (unquoteFrom (USkip 1) rest)
                else if (e =? "b")%char
                then prepend (String "008" EmptyString) (unquoteFrom (USkip 1) rest)
                else if (e =? "f")%char
                then prepend (String "012" EmptyString) (unquoteFrom (USkip 1) rest)
                else if (e =? "n")%char
                then prepend (String "010" EmptyString) (unquoteFrom (USkip 1) rest)
                else if (e =? "r")%char
                then prepend (String "013" EmptyString) (unquoteFrom (USkip 1) rest)
                else if (e =? "t")%char
                then prepend (String "009" EmptyString) (unquoteFrom (USkip 1) rest)
                else if (e =? "u")%char
                then
                  match getu4 s with
                  | None => None
                  | Some rr =>
                      if isSurrogate rr then
                        match utf16_DecodeRune rr (getu4 (drop 6 s)) with
                        | Some dec =>
                            prepend (encodeRune dec) (unquoteFrom (USkip 11) rest)
                        | None =>
                            prepend replacementChar (unquoteFrom (USkip 5) rest)
                        end
                      else prepend (encodeRune rr) (unquoteFrom (USkip 5) rest)
                  end
                else None
            end
          else if ((c =? dquote)%char || (code c <? 32)%N) then None
          else if (code c <? 128)%N
          then prepend (String c EmptyString) (unquoteFrom UNormal rest)
          else
            match runeLen c rest with
            | S (S k) => prepend (String c EmptyString) (unquoteFrom (UCopy (S k)) rest)
            | _ => prepend replacementChar (unquoteFrom UNormal rest)
            end
      end
  end.

Definition unquote (raw : string) : option string := unquoteFrom UNormal raw.

(** *** The scanner ([scanner.go]) *)

Definition isSpace (c : ascii) : bool :=
  ((c =? " ") || (c =? "009") || (c =? "013") || (c =? "010"))%char.

Definition isDigit (c : ascii) : bool := between 48 57 c.

(** This limits the max nesting depth to prevent stack overflow. *)
Definition maxNestingDepth : N := 10000.

(** The parse state stack of the scanner, each entry carrying what has
    been read of the enclosing composite value. *)
Inductive frame :=
| inArray (items : list json)
| inObjectKey (pairs : list (string * json))
| inObjectColon (pairs : list (string * json)) (key : string)
| inObjectValue (pairs : list (string * json)) (key : string)
| inObjectNext (pairs : list (string * json)).

Inductive strState :=
| inString | inStringEsc | inStringEscU (hexLeft : nat).

Inductive numState :=
| stateNeg | state0 | state1 | stateDot | stateDot0 | stateE | stateESign | stateE0.

Inductive mode :=
| stateBeginValue
| stateBeginValueOrEmpty
| stateBeginStringOrEmpty
| stateBeginString
| stateEndValue
| stateString (raw : string) (ss : strState)
| stateNumber (lit : string) (ns : numState)
| stateLiteral (expect : string) (v : json).

Inductive scanner :=
| Scanning (m : mode) (parseState : list frame)
| ScanEnd (v : json)
| ScanError.

(** A value [v] is complete below the parse state [stack]. *)
Definition endValue (v : json) (stack : list frame) : scanner :=
  match stack with
  | [] => ScanEnd v
  | inArray items :: r => Scanning stateEndValue (inArray (items ++ [v]) :: r)
  | inObjectValue pairs k :: r =>
      Scanning stateEndValue (inObjectNext (pairs ++ [(k, v)]) :: r)
  | inObjectKey pairs :: r =>
      match v with
      | JString k => Scanning stateEndValue (inObjectColon pairs k :: r)
      | _ => ScanError
      end
  | _ => ScanError
  end.

Definition pushParseState (f : frame) (stack : list frame) (m : mode) : scanner :=
  if (N.of_nat (List.length (f :: stack)) <=? maxNestingDepth)%N
  then Scanning m (f :: stack)
  else ScanError.

Definition stepEndValue (stack : list frame) (c : ascii) : scanner :=
  if isSpace c then Scanning stateEndValue stack
  else
    match stack with
    | inObjectColon pairs k :: r =>
        if (c =? ":")%char then Scanning stateBeginValue (inObjectValue pairs k :: r)
        else ScanError
    | inObjectNext pairs :: r =>
        if (c =? ",")%char then Scanning stateBeginString (inObjectKey pairs :: r)
        else if (c =? "}")%char then endValue (JObject pairs) r
        else ScanError
    | inArray items :: r =>
        if (c =? ",")%char then Scanning stateBeginValue (inArray items :: r)
        else if (c =? "]")%char then endValue (JArray items) r
        else ScanError
    | _ => ScanError
    end.

Definition stepBeginValue (stack : list frame) (c : ascii) : scanner :=
  if isSpace c then Scanning stateBeginValue stack
  else if (c =? "{")%char then pushParseState (inObjectKey []) stack stateBeginStringOrEmpty
  else if (c =? "[")%char then pushParseState (inArray []) stack stateBeginValueOrEmpty
  else if (c =? dquote)%char then Scanning (stateString EmptyString inString) stack
  else if (c =? "-")%char then Scanning (stateNumber "-" stateNeg) stack
  else if (c =? "0")%char then Scanning (stateNumber "0" state0) stack
  else if (c =? "t")%char then Scanning (stateLiteral "rue" (JBool true)) stack
  else if (c =? "f")%char then Scanning (stateLiteral "alse" (JBool false)) stack
  else if (c =? "n")%char then Scanning (stateLiteral "ull" JNull) stack
  else if between 49 57 c then Scanning (stateNumber (String c EmptyString) state1) stack
  else ScanError.

Definition stepBeginString (stack : list frame) (c : ascii) : scanner :=
  if isSpace c then Scanning stateBeginString stack
  else if (c =? dquote)%char then Scanning (stateString EmptyString inString) stack
  else ScanError.

(** Inside a string literal: the state after a byte that does not end the
    literal, [None] where the byte is an error. *)
Definition stringByte (ss : strState) (c : ascii) : option strState :=
  match ss with
  | inString =>
      if (c =? dquote)%char then None
      else if (c =? "\")%char then Some inStringEsc
      else if (code c <? 32)%N then None
      else Some inString
  | inStringEsc =>
      if ((c =? "b") || (c =? "f") || (c =? "n") || (c =? "r") || (c =? "t")
          || (c =? "\") || (c =? "/") || (c =? dquote))%char
      then Some inString
      else if (c =? "u")%char then Some (inStringEscU 4)
      else None
  | inStringEscU k =>
      if isHex c then
        match k with
        | S (S k') => Some (inStringEscU (S k'))
        | _ => Some inString
        end
      else None
  end.

Definition stepString (raw : string) (ss : strState) (stack : list frame)
           (c : ascii) : scanner :=
  let continue :=
    match stringByte ss c with
    | Some ss' => Scanning (stateString (raw ++ String c EmptyString) ss') stack
    | None => ScanError
    end in
  match ss with
  | inString =>
      if (c =? dquote)%char then
        match unquote raw with
        | Some s => endValue (JString s) stack
        | None => ScanError
        end
      else continue
  | _ => continue
  end.

Definition stepNumber (lit : string) (ns : numState) (stack : list frame)
           (c : ascii) : scanner :=
  let more ns' := Scanning (stateNumber (lit ++ String c EmptyString) ns') stack in
  let finish :=
    match endValue (JNumber lit) stack with
    | Scanning _ stack' => stepEndValue stack' c
    | r => r
    end in
  let isE := ((c =? "e") || (c =? "E"))%char in
  match ns with
  | stateNeg =>
      if (c =? "0")%char then more state0
      else if between 49 57 c then more state1
      else ScanError
  | state1 =>
      if isDigit c then more state1
      else if (c =? ".")%char then more stateDot
      else if isE then more stateE
      else finish
  | state0 =>
      if (c =? ".")%char then more stateDot
      else if isE then more stateE
      else finish
  | stateDot => if isDigit c then more stateDot0 else ScanError
  | stateDot0 =>
      if isDigit c then more stateDot0
      else if isE then more stateE
      else finish
  | stateE =>
      if ((c =? "+") || (c =? "-"))%char then more stateESign
      else if isDigit c then more stateE0
      else ScanError
  | stateESign => if isDigit c then more stateE0 else ScanError
  | stateE0 => if isDigit c then more stateE0 else finish
  end.

(** One byte of input. *)
Definition step (s : scanner) (c : ascii) : scanner :=
  match s with
  | ScanEnd _ | ScanError => s
  | Scanning m stack =>
      match m with
      | stateBeginValue => stepBeginValue stack c
      | stateBeginValueOrEmpty =>
          if isSpace c then s
          else if (c =? "]")%char then
            match stack with
            | inArray items :: r => endValue (JArray items) r
            | _ => ScanError
            end
          else stepBeginValue stack c
      | stateBeginStringOrEmpty =>
          if isSpace c then s
          else if (c =? "}")%char then
            match stack with
            | inObjectKey pairs :: r => endValue (JObject pairs) r
            | _ => ScanError
            end
          else stepBeginString stack c
      | stateBeginString => stepBeginString stack c
      | stateEndValue => stepEndValue stack c
      | stateString raw ss => stepString raw ss stack c
      | stateNumber lit ns => stepNumber lit ns stack c
      | stateLiteral expect v =>
          match expect with
          | String e more =>
              if (c =? e)%char then
                match more with
                | EmptyString => endValue v stack
                | _ => Scanning (stateLiteral more v) stack
                end
              else ScanError
          | EmptyString => ScanError
          end
      end
  end.

Fixpoint scan (s : scanner) (input : string) : scanner :=
  match input with
  | EmptyString => s
  | String c rest => scan (step s c) rest
  end.

(** The errors [Decode] can return for a body that is read in full. *)
Inductive DecodeError :=
| EOF                    (* io.EOF: no value in the input *)
| ErrUnexpectedEOF       (* io.ErrUnexpectedEOF: the input ends inside a value *)
| SyntaxError            (* *json.SyntaxError *)
| UnmarshalTypeError (value : string).   (* *json.UnmarshalTypeError *)

Definition nonSpace (b : string) : bool :=
  negb (string_forallb isSpace b).

(** [Decoder.readValue]: the first JSON value of the input.  At the end
    of the input the scanner is stepped with a space, which completes a
    top-level number. *)
Definition readValue (body : string) : json + DecodeError :=
  match scan (Scanning stateBeginValue []) body with
  | ScanEnd v => inl v
  | ScanError => inr SyntaxError
  | Scanning m stack =>
      match step (Scanning m stack) " " with
      | ScanEnd v => inl v
      | _ => inr (if nonSpace body then ErrUnexpectedEOF else EOF)
      end
  end.

(** *** Storing a value into Go data ([decode.go]) *)

(** [decodeState.saveError]: the first error is kept, decoding goes on. *)
Definition saveError (saved : option DecodeError) (e : DecodeError)
  : option DecodeError :=
  match saved with
  | Some _ => saved
  | None => Some e
  end.

Definition kindName (j : json) : string :=
  match j with
  | JNull => "null"
  | JBool _ => "bool"
  | JNumber _ => "number"
  | JString _ => "string"
  | JArray _ => "array"
  | JObject _ => "object"
  end.

Fixpoint digitsValue (acc : Z) (s : string) : option Z :=
  match s with
  | EmptyString => Some acc
  | String c r =>
      if isDigit c then digitsValue (acc * 10 + Z.of_N (code c - 48)) r else None
  end.

(** strconv.ParseInt(s, 10, 64) followed by the overflow check for [int]. *)
Definition ParseInt (s : string) : option Z :=
  let signed (neg : bool) (digits : string) :=
    match digits with
    | EmptyString => None
    | _ =>
        match digitsValue 0 digits with
        | Some n =>
            let v := if neg then - n else n in
            if (minInt <=? v) && (v <=? maxInt) then Some v else None
        | None => None
        end
    end in
  match s with
  | EmptyString => None
  | String c r =>
      if (c =? "-")%char then signed true r
      else if (c =? "+")%char then signed false r
      else signed false s
  end.

(** A JSON value into a field of kind [int]. *)
Definition storeInt (j : json) (v : Z) (saved : option DecodeError)
  : Z * option DecodeError :=
  match j with
  | JNull => (v, saved)
  | JNumber lit =>
      match ParseInt lit with
      | Some n => (n, saved)
      | None => (v, saveError saved (UnmarshalTypeError ("number " ++ lit)))
      end
  | _ => (v, saveError saved (UnmarshalTypeError (kindName j)))
  end.

(** A JSON value into a field of kind [string]. *)
Definition storeString (j : json) (v : string) (saved : option DecodeError)
  : string * option DecodeError :=
  match j with
  | JNull => (v, saved)
  | JString s => (s, saved)
  | _ => (v, saveError saved (UnmarshalTypeError (kindName j)))
  end.

Definition upper (c : ascii) : ascii :=
  if between 97 122 c then ascii_of_N (code c - 32) else c.

Definition hasPrefix2 (a b : N) (s : string) : bool :=
  match s with
  | String x (String y _) => ((code x =? a) && (code y =? b))%N
  | _ => false
  end.

Definition hasPrefix3 (a b c : N) (s : string) : bool :=
  match s with
  | String x (String y (String z _)) =>
      ((code x =? a) && (code y =? b) && (code z =? c))%N
  | _ => false
  end.

(** Whether the key equals the ASCII field name under Unicode simple case
    folding: letters match in either case, and besides "s" matches
    U+017F (long s) and "k" matches U+212A (Kelvin sign). *)
Fixpoint equalFold (name key : string) : bool :=
  match name with
  | EmptyString =>
      match key with EmptyString => true | _ => false end
  | String n name' =>
      match key with
      | EmptyString => false
      | String c key' =>
          if (code c <? 128)%N then (upper c =? upper n)%char && equalFold name' key'
          else if (upper n =? "S")%char && hasPrefix2 197 191 key
          then equalFold name' (drop 2 key)
          else if (upper n =? "K")%char && hasPrefix3 226 132 170 key
          then equalFold name' (drop 3 key)
          else false
      end
  end.

(** The struct field an object key selects: the field with exactly that
    name, otherwise the first field whose name matches case-insensitively. *)
Definition findField (names : list string) (key : string) : option string :=
  match find (String.eqb key) names with
  | Some n => Some n
  | None => find (fun n => equalFold n key) names
  end.

(** One member of an object into an [Answer]; a key that selects no
    field is skipped with its value. *)
Definition memberAnswer (st : Answer * option DecodeError) (kv : string * json)
  : Answer * option DecodeError :=
  let (a, saved) := st in
  match findField ["questionId"; "value"] (fst kv) with
  | Some f =>
      if (f =? "questionId")%string then
        let (n, saved') := storeInt (snd kv) (QuestionID a) saved in
        (mkAnswer n (Value a), saved')
      else
        let (s, saved') := storeString (snd kv) (Value a) saved in
        (mkAnswer (QuestionID a) s, saved')
  | None => (a, saved)
  end.

(** An object into an [Answer]: the members in order. *)
Definition objectAnswer (pairs : list (string * json)) (a : Answer)
           (saved : option DecodeError) : Answer * option DecodeError :=
  fold_left memberAnswer pairs (a, saved).

(** A JSON value into an [Answer]. *)
Definition valueAnswer (j : json) (a : Answer) (saved : option DecodeError)
  : Answer * option DecodeError :=
  match j with
  | JNull => (a, saved)
  | JObject pairs => objectAnswer pairs a saved
  | _ => (a, saveError saved (UnmarshalTypeError (kindName j)))
  end.

(** The elements of an array into the slots of the target slice's
    backing array: each element is decoded into the slot at its index as
    that slot stands (a fresh slot is zero); slots past the last element
    are returned untouched. *)
Fixpoint arrayInto (items : list json) (slots : list Answer)
         (saved : option DecodeError)
  : list Answer * list Answer * option DecodeError :=
  match items with
  | [] => ([], slots, saved)
  | j :: items' =>
      let (slot, slots') :=
        match slots with
        | [] => (zeroAnswer, [])
        | a :: r => (a, r)
        end in
      let (a', saved') := valueAnswer j slot saved in
      let '(filled, spare, saved'') := arrayInto items' slots' saved' in
      (a' :: filled, spare, saved'')
  end.

(** A [[]Answer] under decoding: the slice and the slots of its backing
    array between its length and its capacity. *)
Record target := mkTarget {
  visible : slice Answer;
  spare : list Answer
}.

(** A JSON value into a [[]Answer]. *)
Definition valueSlice (j : json) (t : target) (saved : option DecodeError)
  : target * option DecodeError :=
  match j with
  | JNull => (mkTarget nil_slice [], saved)
  | JArray [] => (mkTarget (mk_slice []) [], saved)
  | JArray items =>
      let '(filled, rest, saved') :=
        arrayInto items (elements (visible t) ++ spare t) saved in
      (mkTarget (mk_slice filled) rest, saved')
  | _ => (t, saveError saved (UnmarshalTypeError (kindName j)))
  end.

(** One member of an object into an [AnswersRequest]. *)
Definition memberAnswersRequest (st : target * option DecodeError)
           (kv : string * json) : target * option DecodeError :=
  let (t, saved) := st in
  match findField ["answers"] (fst kv) with
  | Some _ => valueSlice (snd kv) t saved
  | None => (t, saved)
  end.

(** An object into an [AnswersRequest]: the members in order. *)
Definition objectAnswersRequest (pairs : list (string * json)) (t : target)
           (saved : option DecodeError) : target * option DecodeError :=
  fold_left memberAnswersRequest pairs (t, saved).

(** [decodeState.unmarshal] into a [*AnswersRequest]. *)
Definition unmarshal (j : json) (req : AnswersRequest)
  : AnswersRequest * option DecodeError :=
  match j with
  | JNull => (req, None)
  | JObject pairs =>
      let (t, saved) := objectAnswersRequest pairs (mkTarget (Answers req) []) None in
      (mkAnswersRequest (visible t), saved)
  | _ => (req, Some (UnmarshalTypeError (kindName j)))
  end.

(** [json.NewDecoder(body).Decode(&req)]: the value of [req] afterwards
    and the error returned. *)
Definition Decode (body : string) (req : AnswersRequest)
  : AnswersRequest * option DecodeError :=
  match readValue body with
  | inl j => unmarshal j req
  | inr e => (req, Some e)
  end.

(** *** Encoding ([encode.go]) *)

Definition hexDigit (n : N) : ascii :=
  (if n <? 10 then ascii_of_N (48 + n) else ascii_of_N (87 + n))%N.

(** [htmlSafeSet]: the ASCII bytes a string literal holds unescaped when
    HTML escaping is on, as it is for an Encoder. *)
Definition htmlSafe (c : ascii) : bool :=
  between 32 127 c
  && negb ((c =? dquote) || (c =? "\") || (c =? "&") || (c =? "<") || (c =? ">"))%char.

Definition escapeByte (c : ascii) : string :=
  if ((c =? "\") || (c =? dquote))%char then String "\" (String c EmptyString)
  else if (c =? "008")%char then "\b"
  else if (c =? "012")%char then "\f"
  else if (c =? "010")%char then "\n"
  else if (c =? "013")%char then "\r"
  else if (c =? "009")%char then "\t"
  else ("\u00" ++ String (hexDigit (code c / 16)) (String (hexDigit (code c mod 16)) EmptyString))%string.

(** The body of [appendString]: the literal's contents for a Go string. *)
Fixpoint escapeFrom (st : ustate) (s : string) : string :=
  match s with
  | EmptyString => EmptyString
  | String c rest =>
      match st with
      | UCopy k => String c (escapeFrom (ucopy (pred k)) rest)
      | USkip k => escapeFrom (uskip (pred k)) rest
      | UNormal =>
          if (code c <? 128)%N then
            if htmlSafe c then String c (escapeFrom UNormal rest)
            else (escapeByte c ++ escapeFrom UNormal rest)%string
          else
            match runeLen c rest with
            | S (S k) =>
                if hasPrefix3 226 128 168 s
                then ("\u2028" ++ escapeFrom (USkip 2) rest)%string
                else if hasPrefix3 226 128 169 s
                then ("\u2029" ++ escapeFrom (USkip 2) rest)%string
                else String c (escapeFrom (UCopy (S k)) rest)
            | _ => ("\ufffd" ++ escapeFrom UNormal rest)%string
            end
      end
  end.

Definition encodeString (s : string) : string :=
  String dquote (escapeFrom UNormal s ++ String dquote EmptyString).

(** strconv.AppendInt(n, 10) *)
Definition encodeInt (n : Z) : string := NilZero.string_of_int (Z.to_int n).

Fixpoint join (sep : string) (l : list string) : string :=
  match l with
  | [] => EmptyString
  | [x] => x
  | x :: r => (x ++ sep ++ join sep r)%string
  end.

Definition encodeQuestion (q : Question) : string :=
  ("{" ++ encodeString "id" ++ ":" ++ encodeInt (ID q)
   ++ "," ++ encodeString "text" ++ ":" ++ encodeString (Text q)
   ++ "," ++ encodeString "type" ++ ":" ++ encodeString (Type_ q) ++ "}")%string.

Definition encodeQuestions (qs : slice Question) : string :=
  match qs with
  | nil_slice => "null"
  | mk_slice l => ("[" ++ join "," (map encodeQuestion l) ++ "]")%string
  end.

(** Map entries are written in the order of their keys. *)
Fixpoint insertByKey (kv : string * string) (l : list (string * string))
  : list (string * string) :=
  match l with
  | [] => [kv]
  | x :: r => if String.leb (fst kv) (fst x) then kv :: l else x :: insertByKey kv r
  end.

Definition sortByKey (m : list (string * string)) : list (string * string) :=
  fold_right insertByKey [] m.

Definition encodeStringMap (m : list (string * string)) : string :=
  ("{" ++ join "," (map (fun kv => encodeString (fst kv) ++ ":" ++ encodeString (snd kv))
                          (sortByKey m)) ++ "}")%string.

(** The values the program passes as [payload any]: the catalog, a
    [[]Question], and a [map[string]string] literal (its entries, with
    distinct keys). *)
Inductive payload :=
| QuestionSlice (qs : slice Question)
| StringMap (m : list (string * string)).

(** json.Marshal; neither payload type has a value that fails to encode. *)
Definition Marshal (p : payload) : string :=
  match p with
  | QuestionSlice qs => encodeQuestions qs
  | StringMap m => encodeStringMap m
  end.

End JSON.

(* ================================================================== *)
(** ** net/http: the response side of a request *)

Module HTTP.

Definition StatusOK : Z := 200.
Definition StatusBadRequest : Z := 400.

(** http.Header, as the entries set so far (one value per key). *)
Definition Header := list (string * string).

Definition Set_ (h : Header) (key value : string) : Header :=
  (key, value) :: filter (fun kv => negb (fst kv =? key)%string) h.

Definition Get (h : Header) (key : string) : option string :=
  match find (fun kv => (fst kv =? key)%string) h with
  | Some kv => Some (snd kv)
  | None => None
  end.

(** An http.ResponseWriter: the header map of the handler, whether and
    with which status the header was written (with the header entries as
    they stood then), the body bytes written, and the error every write
    to the connection reports, if the connection is broken. *)
Record ResponseWriter := mkResponseWriter {
  header : Header;
  wroteHeader : bool;
  status : Z;
  sentHeader : Header;
  body : string;
  connErr : option string
}.

(** The writer a handler is called with. *)
Definition newResponseWriter (connErr : option string) : ResponseWriter :=
  mkResponseWriter [] false 0 [] EmptyString connErr.

(** [w.Header().Set(key, value)] *)
Definition SetHeader (w : ResponseWriter) (key value : string) : ResponseWriter :=
  mkResponseWriter (Set_ (header w) key value) (wroteHeader w) (status w)
                   (sentHeader w) (body w) (connErr w).

(** [w.WriteHeader(code)]; a second call is superfluous and ignored. *)
Definition WriteHeader (w : ResponseWriter) (code : Z) : ResponseWriter :=
  if wroteHeader w then w
  else mkResponseWriter (header w) true code (header w) (body w) (connErr w).

(** [w.Write(data)]: writes the header with status 200 first if the
    handler has not written it; returns the error of the write, if any. *)
Definition Write (w : ResponseWriter) (data : string)
  : ResponseWriter * option string :=
  let w1 := WriteHeader w StatusOK in
  match connErr w1 with
  | None =>
      (mkResponseWriter (header w1) (wroteHeader w1) (status w1) (sentHeader w1)
                        (body w1 ++ data) (connErr w1), None)
  | Some e => (w1, Some e)
  end.

(** [http.Error(w, error, code)] *)
Definition Error (w : ResponseWriter) (error : string) (code : Z) : ResponseWriter :=
  let w1 := SetHeader w "Content-Type" "text/plain; charset=utf-8" in
  let w2 := SetHeader w1 "X-Content-Type-Options" "nosniff" in
  let w3 := WriteHeader w2 code in
  fst (Write w3 (error ++ String "010" EmptyString)).

(** [json.NewEncoder(w).Encode(v)]: the encoding of [v] and a newline in
    one write; returns the error, if any. *)
Definition Encode (w : ResponseWriter) (v : JSON.payload)
  : ResponseWriter * option string :=
  Write w (JSON.Marshal v ++ String "010" EmptyString).

End HTTP.

(* ================================================================== *)
(** ** main.go *)

(** [var questions = []Question{...}] *)
Definition questions : slice Question :=
  mk_slice
    [ mkQuestion 1 "Как вас зовут?" "text";
      mkQuestion 2 "Сколько вам лет?" "number";
      mkQuestion 3 "Ваш любимый язык программирования?" "text";
      mkQuestion 4 "Готовы учить Go глубже?" "text" ].

(** [type answerStore struct] *)
Record answerStore := mkAnswerStore {
  mu : Sync.Mutex;
  answers : slice AnswersRequest
}.

(** [func (s *answerStore) save(req AnswersRequest)], run without
    interference from other goroutines: lock, append, and the deferred
    unlock on return. *)
Definition save (s : answerStore) (req : AnswersRequest) : exec answerStore :=
  m <- Sync.Lock (mu s) ;;
  let s1 := mkAnswerStore m (answers s) in
  let s2 := mkAnswerStore (mu s1) (append (answers s1) req) in
  m' <- Sync.Unlock (mu s2) ;;
  Done (mkAnswerStore m' (answers s2)).

(** *** [save] under interleaving

    The same body cut at its accesses to shared memory.  The assignment
    [s.answers = append(s.answers, req)] reads the field and writes it back
    in two steps, between which other goroutines may run. *)
Inductive savePC :=
| atLock                                   (* before s.mu.Lock() *)
| atRead                                   (* before reading s.answers *)
| atWrite (old : slice AnswersRequest)     (* before writing s.answers *)
| atUnlock                                 (* before the deferred s.mu.Unlock() *)
| returned.

(** One step of a goroutine executing [save(req)]; [Blocked] when it has
    no step to take in the state [s]. *)
Definition saveStep (req : AnswersRequest) (pc : savePC) (s : answerStore)
  : exec (savePC * answerStore) :=
  match pc with
  | atLock => m <- Sync.Lock (mu s) ;; Done (atRead, mkAnswerStore m (answers s))
  | atRead => Done (atWrite (answers s), s)
  | atWrite old => Done (atUnlock, mkAnswerStore (mu s) (append old req))
  | atUnlock => m <- Sync.Unlock (mu s) ;; Done (returned, mkAnswerStore m (answers s))
  | returned => Blocked
  end.

(** Goroutines calling [save] on one shared store. *)
Record config := mkConfig {
  shared : answerStore;
  goroutines : list (savePC * AnswersRequest)
}.

Fixpoint replaceAt {A} (i : nat) (x : A) (l : list A) : list A :=
  match l with
  | [] => []
  | y :: r =>
      match i with
      | O => x :: r
      | S j => y :: replaceAt j x r
      end
  end.

(** The goroutine at index [i] takes its next step. *)
Definition stepAt (i : nat) (c : config) : exec config :=
  match nth_error (goroutines c) i with
  | Some (pc, req) =>
      r <- saveStep req pc (shared c) ;;
      Done (mkConfig (snd r) (replaceAt i (fst r, req) (goroutines c)))
  | None => Blocked
  end.

(** A schedule names the goroutine that steps next. *)
Fixpoint run (schedule : list nat) (c : config) : exec config :=
  match schedule with
  | [] => Done c
  | i :: rest => c' <- stepAt i c ;; run rest c'
  end.

(** All calls are about to begin. *)
Definition spawn (s : answerStore) (batches : list AnswersRequest) : config :=
  mkConfig s (map (fun req => (atLock, req)) batches).

Definition isReturned (g : savePC * AnswersRequest) : bool :=
  match fst g with
  | returned => true
  | _ => false
  end.

Definition allReturned (c : config) : bool := forallb isReturned (goroutines c).

(** *** The handlers *)

(** The standard logger's output, a line per entry. *)
Definition Logger := list string.

(** [func writeJSON(w http.ResponseWriter, status int, payload any)] *)
Definition writeJSON (w : HTTP.ResponseWriter) (status : Z) (payload : JSON.payload)
           (lg : Logger) : HTTP.ResponseWriter * Logger :=
  let w1 := HTTP.SetHeader w "Content-Type" "application/json" in
  let w2 := HTTP.WriteHeader w1 status in
  let (w3, err) := HTTP.Encode w2 payload in
  match err with
  | Some e => (w3, lg ++ [("write json error: " ++ e)%string])
  | None => (w3, lg)
  end.

(** The handler of "GET /questions". *)
Definition handleQuestions (w : HTTP.ResponseWriter) (lg : Logger)
  : HTTP.ResponseWriter * Logger :=
  writeJSON w HTTP.StatusOK (JSON.QuestionSlice questions) lg.

(** The handler of "POST /answers"; [store] is the variable of [main] the
    closure captures, [reqBody] the bytes of [r.Body]. *)
Definition handleAnswers (store : answerStore) (reqBody : string)
           (w : HTTP.ResponseWriter) (lg : Logger)
  : exec (answerStore * HTTP.ResponseWriter * Logger) :=
  let (req, err) := JSON.Decode reqBody zeroAnswersRequest in
  match err with
  | Some _ =>
      Done (store, HTTP.Error w "invalid JSON payload" HTTP.StatusBadRequest, lg)
  | None =>
      store' <- save store req ;;
      let (w', lg') :=
        writeJSON w HTTP.StatusOK (JSON.StringMap [("status", "ok")]) lg in
      Done (store', w', lg')
  end.

(** *** The server *)

(** What a running server holds: the store created in [main] and the log. *)
Record server := mkServer {
  store : answerStore;
  logs : Logger
}.

(** [main] up to [http.ListenAndServe]. *)
Definition main : server :=
  mkServer (mkAnswerStore Sync.Unlocked (mk_slice []))
           ["Server started on http://localhost:8080"].

(** The requests the two registered patterns route to the handlers. *)
Inductive request :=
| GET_questions
| POST_answers (reqBody : string).

(** One request served to completion: the server afterwards and the
    response.  [conn] is the write error of the client connection, if it is
    broken. *)
Definition serve (r : request) (conn : option string) (sv : server)
  : exec (server * HTTP.ResponseWriter) :=
  let w := HTTP.newResponseWriter conn in
  match r with
  | GET_questions =>
      let (w', lg) := handleQuestions w (logs sv) in
      Done (mkServer (store sv) lg, w')
  | POST_answers reqBody =>
      r <- handleAnswers (store sv) reqBody w (logs sv) ;;
      Done (mkServer (fst (fst r)) (snd r), snd (fst r))
  end.

(** Requests served one after the other. *)
Fixpoint serveAll (rs : list (request * option string)) (sv : server)
  : exec (server * list HTTP.ResponseWriter) :=
  match rs with
  | [] => Done (sv, [])
  | (r, conn) :: rest =>
      p <- serve r conn sv ;;
      q <- serveAll rest (fst p) ;;
      Done (fst q, snd p :: snd q)
  end.

(* ================================================================== *)
(** ** Vocabulary of the statements *)

Definition newline : string := String "010" EmptyString.

(** The success acknowledgement of "POST /answers" as the client receives
    it: status 200, JSON content type, body [{"status":"ok"}]. *)
Definition okResponse : HTTP.ResponseWriter :=
  HTTP.mkResponseWriter
    [("Content-Type", "application/json")] true 200
    [("Content-Type", "application/json")]
    (dq "{'status':'ok'}" ++ newline) None.

(** The rejection of "POST /answers": status 400, plain text. *)
Definition errorResponse : HTTP.ResponseWriter :=
  HTTP.mkResponseWriter
    [("X-Content-Type-Options", "nosniff");
     ("Content-Type", "text/plain; charset=utf-8")] true 400
    [("X-Content-Type-Options", "nosniff");
     ("Content-Type", "text/plain; charset=utf-8")]
    ("invalid JSON payload" ++ newline) None.

(** A status in the 4xx class. *)
Definition clientError (code : Z) : Prop := 400 <= code < 500.

(** The server with [req] appended to its store and nothing else changed. *)
Definition appended (sv : server) (req : AnswersRequest) : server :=
  mkServer (mkAnswerStore Sync.Unlocked (append (answers (store sv)) req)) (logs sv).

(** The stored batches, oldest first. *)
Definition history (sv : server) : list AnswersRequest :=
  elements (answers (store sv)).

(** The identifiers of the catalog. *)
Definition catalogIDs : list Z := map ID (elements questions).

(** Some answer of the batch names a question the catalog does not have. *)
Definition referencesUnknown (req : AnswersRequest) : Prop :=
  exists a, In a (elements (Answers req)) /\ ~ In (QuestionID a) catalogIDs.

(** *** The JSON values the decoder stores without a type error

    A null is accepted everywhere and leaves the target as it is. *)

Definition isSome {A} (o : option A) : bool :=
  match o with
  | Some _ => true
  | None => false
  end.

(** For an [int]: an integer literal in range. *)
Definition fitsInt (j : JSON.json) : bool :=
  match j with
  | JSON.JNull => true
  | JSON.JNumber lit => isSome (JSON.ParseInt lit)
  | _ => false
  end.

(** For a [string]: a string. *)
Definition fitsString (j : JSON.json) : bool :=
  match j with
  | JSON.JNull | JSON.JString _ => true
  | _ => false
  end.

Definition fitsAnswerMember (kv : string * JSON.json) : bool :=
  match JSON.findField ["questionId"; "value"] (fst kv) with
  | Some f => if (f =? "questionId")%string then fitsInt (snd kv) else fitsString (snd kv)
  | None => true
  end.

(** For an [Answer]: an object whose members, where they select a field,
    fit its type. *)
Definition fitsAnswer (j : JSON.json) : bool :=
  match j with
  | JSON.JNull => true
  | JSON.JObject pairs => forallb fitsAnswerMember pairs
  | _ => false
  end.

(** For a [[]Answer]: an array of values fit for an [Answer]. *)
Definition fitsSlice (j : JSON.json) : bool :=
  match j with
  | JSON.JNull => true
  | JSON.JArray items => forallb fitsAnswer items
  | _ => false
  end.

Definition fitsRequestMember (kv : string * JSON.json) : bool :=
  match JSON.findField ["answers"] (fst kv) with
  | Some _ => fitsSlice (snd kv)
  | None => true
  end.

(** For an [AnswersRequest]. *)
Definition fitsRequest (j : JSON.json) : bool :=
  match j with
  | JSON.JNull => true
  | JSON.JObject pairs => forallb fitsRequestMember pairs
  | _ => false
  end.




Fixpoint nestedText (n : nat) : string :=
  match n with
  | O => "[]"
  | S k => ("[" ++ nestedText k ++ "]")%string
  end.

(** *** Goroutines in [save] *)

(** The goroutine is between its [Lock] and its [Unlock]. *)
Definition inCritical (g : savePC * AnswersRequest) : bool :=
  match fst g with
  | atRead | atWrite _ | atUnlock => true
  | atLock | returned => false
  end.

(** The goroutine has written its batch to the store. *)
Definition hasWritten (g : savePC * AnswersRequest) : bool :=
  match fst g with
  | atUnlock | returned => true
  | atLock | atRead | atWrite _ => false
  end.

Definition written (gs : list (savePC * AnswersRequest)) : list AnswersRequest :=
  map snd (filter hasWritten gs).

(** What holds of every configuration reached from [spawn]: the calls keep
    their arguments; the mutex is locked exactly when one goroutine is in
    the critical section, and then only one is; a goroutine about to write
    has read the current sequence; the store holds the initial sequence
    followed by the batches written so far, in some order. *)
Definition invariant (init batches : list AnswersRequest) (c : config) : Prop :=
  map snd (goroutines c) = batches
  /\ List.length (filter inCritical (goroutines c))
     = match mu (shared c) with
       | Sync.Locked => 1%nat
       | Sync.Unlocked => 0%nat
       end
  /\ Forall (fun g => forall old, fst g = atWrite old -> old = answers (shared c))
            (goroutines c)
  /\ exists added,
      elements (answers (shared c)) = init ++ added
      /\ Permutation added (written (goroutines c)).

Definition Answer_eq_dec (a b : Answer) : {a = b} + {a <> b}.
Proof.
  decide equality; [apply string_dec | apply Z.eq_dec].
Defined.

Definition AnswersRequest_eq_dec (a b : AnswersRequest) : {a = b} + {a <> b}.
Proof.
  decide equality. decide equality. apply (list_eq_dec Answer_eq_dec).
Defined.

(** The steps a goroutine has left before it returns. *)
Definition stepsLeft (g : savePC * AnswersRequest) : nat :=
  match fst g with
  | atLock => 4
  | atRead => 3
  | atWrite _ => 2
  | atUnlock => 1
  | returned => 0
  end.

Definition totalStepsLeft (gs : list (savePC * AnswersRequest)) : nat :=
  list_sum (map stepsLeft gs).

(** *** String literals the scanner has accepted *)

(** The scanner's state after the bytes [s] inside a string literal. *)
Fixpoint stringTrace (ss : JSON.strState) (s : string) : option JSON.strState :=
  match s with
  | EmptyString => Some ss
  | String c r =>
      match JSON.stringByte ss c with
      | Some ss' => stringTrace ss' r
      | None => None
      end
  end.

(** The first [m] bytes of [s] exist and are not ASCII. *)
Fixpoint contBytes (m : nat) (s : string) : bool :=
  match m with
  | O => true
  | S m' =>
      match s with
      | String c r => (128 <=? code c)%N && contBytes m' r
      | EmptyString => false
      end
  end.

(** What the scanner has collected of a string literal is what its string
    states have accepted. *)
Definition collected (s : JSON.scanner) : Prop :=
  match s with
  | JSON.Scanning (JSON.stateString raw ss) _ => stringTrace JSON.inString raw = Some ss
  | _ => True
  end.

(** *** What a request leaves behind *)

(** The request is a submission whose body does not decode. *)
Definition rejected (r : request) : bool :=
  match r with
  | GET_questions => false
  | POST_answers reqBody => isSome (snd (JSON.Decode reqBody zeroAnswersRequest))
  end.

(** The request is a submission whose body decodes. *)
Definition accepted (r : request) : bool :=
  match r with
  | GET_questions => false
  | POST_answers _ => negb (rejected r)
  end.

(** The batch the request adds to the store, if any. *)
Definition submitted (r : request) : list AnswersRequest :=
  match r with
  | GET_questions => []
  | POST_answers reqBody =>
      if rejected r then [] else [fst (JSON.Decode reqBody zeroAnswersRequest)]
  end.

(** The line the request adds to the log, if any, on a connection whose
    write error is [conn]. *)
Definition logged (r : request) (conn : option string) : list string :=
  match conn with
  | Some e => if rejected r then [] else [("write json error: " ++ e)%string]
  | None => []
  end.

(** *** The order in which concurrent calls are served *)

(** The goroutine holds the lock and has not yet written its batch. *)
Definition isPending (g : savePC * AnswersRequest) : bool :=
  match fst g with
  | atRead | atWrite _ => true
  | atLock | atUnlock | returned => false
  end.

Definition pending (gs : list (savePC * AnswersRequest)) : list AnswersRequest :=
  map snd (filter isPending gs).

(** The batch of the goroutine at index [i] if its next step is [Lock]. *)
Definition acquiring (i : nat) (c : config) : list AnswersRequest :=
  match nth_error (goroutines c) i with
  | Some (atLock, req) => [req]
  | _ => []
  end.

(** The batches in the order in which their goroutines acquire the mutex
    along a schedule. *)
Fixpoint acquisitions (schedule : list nat) (c : config) : list AnswersRequest :=
  match schedule with
  | [] => []
  | i :: rest =>
      match stepAt i c with
      | Done c' => acquiring i c ++ acquisitions rest c'
      | _ => []
      end
  end.

(** *** What of a body reaches the store *)

(** The members of an object whose keys select one of the named fields. *)
Definition selecting (names : list string) (pairs : list (string * JSON.json))
  : list (string * JSON.json) :=
  filter (fun kv => isSome (JSON.findField names (fst kv))) pairs.

(** A value for the request with every member removed that selects no
    field: at the top level, and in each element of the values given for
    [Answers]. *)
Definition stripAnswer (j : JSON.json) : JSON.json :=
  match j with
  | JSON.JObject pairs => JSON.JObject (selecting ["questionId"; "value"] pairs)
  | _ => j
  end.

Definition stripSlice (j : JSON.json) : JSON.json :=
  match j with
  | JSON.JArray items => JSON.JArray (map stripAnswer items)
  | _ => j
  end.

Definition stripRequest (j : JSON.json) : JSON.json :=
  match j with
  | JSON.JObject pairs =>
      JSON.JObject (map (fun kv => (fst kv, stripSlice (snd kv)))
                        (selecting ["answers"] pairs))
  | _ => j
  end.

(** The answer an array element decodes to in a fresh slot. *)
Definition answerOf (j : JSON.json) : Answer :=
  fst (JSON.valueAnswer j zeroAnswer None).

(** The value is one a Go [int] can hold. *)
Definition inIntRange (n : Z) : Prop := minInt <= n <= maxInt.

Definition answersInRange (req : AnswersRequest) : Prop :=
  Forall (fun a => inIntRange (QuestionID a)) (elements (Answers req)).

(* ================================================================== *)
(** ** The browser side (app.js)

    The page holds the form [#survey-form] and the status line [#status].
    What the script does to them is modelled on the values it is written
    for: the catalog as an array of objects with a number [id] and strings
    [text] and [type]; numbers that are integers of magnitude below 2^53,
    which JavaScript represents exactly and prints in decimal; strings as
    the UTF-8 bytes of their scalar values, which is how they travel in a
    request body. *)

Module Client.

(** An element of the parsed catalog. *)
Record question := mkQuestion {
  id : Z;
  text : string;
  type_ : string
}.

(** [<input>] as the script sets it up, with the value the user has typed. *)
Record input := mkInput {
  input_id : string;
  name : string;
  input_type : string;
  required : bool;
  value : string
}.

(** The children of the form: a [div.question] with its label and input,
    or the button. *)
Inductive node :=
| Wrapper (className labelFor labelText : string) (field : input)
| Button (buttonType textContent : string).

Record page := mkPage {
  form : list node;
  statusNode : string
}.

(** The outcome of [fetch] and of reading the response: the request
    failed, or a response arrived with its [ok] flag and, for a JSON body,
    the value [response.json()] resolves to. *)
Inductive fetched (A : Type) :=
| NetworkError
| Response (ok : bool) (json : option A).
Arguments NetworkError {A}.

Definition maxSafeInteger : Z := 2 ^ 53 - 1.

Definition safeInteger (n : Z) : bool :=
  (- maxSafeInteger <=? n) && (n <=? maxSafeInteger).

(** [String(n)] for an integer [n]. *)
Definition String_ (n : Z) : string := NilZero.string_of_int (Z.to_int n).

(** The decimal spelling [String] gives an integer: "0", or digits without
    a leading zero, with a minus sign for a negative number. *)
Definition positiveLiteral (s : string) : bool :=
  match s with
  | String c r => between 49 57 c && string_forallb JSON.isDigit r
  | EmptyString => false
  end.

Definition canonicalInt (s : string) : bool :=
  match s with
  | String c r =>
      if (c =? "-")%char then positiveLiteral r
      else (s =? "0")%string || positiveLiteral s
  | EmptyString => false
  end.

(** [Number(s)] for a string in that spelling of a safe integer; [None]
    for every other string, where the result is not modelled. *)
Definition Number_ (s : string) : option Z :=
  if canonicalInt s then
    match
      match s with
      | String c r =>
          if (c =? "-")%char then option_map Z.opp (JSON.digitsValue 0 r)
          else JSON.digitsValue 0 s
      | EmptyString => None
      end
    with
    | Some n => if safeInteger n then Some n else None
    | None => None
    end
  else None.

(** [renderQuestions(questions)] *)
Definition renderQuestion (q : question) : node :=
  Wrapper "question" ("q-" ++ String_ (id q)) (text q)
          (mkInput ("q-" ++ String_ (id q)) (String_ (id q))
                   (if (type_ q =? "number")%string then "number" else "text")
                   true EmptyString).

Definition renderQuestions (questions : list question) (p : page) : page :=
  mkPage (map renderQuestion questions ++ [Button "submit" "Отправить"])
         (statusNode p).

(** [loadQuestions()], from the call to the state in which it settles. *)
Definition loadQuestions (r : fetched (list question)) (p : page) : page :=
  let p1 := mkPage (form p) "Загрузка вопросов..." in
  match r with
  | Response true (Some questions) =>
      mkPage (form (renderQuestions questions p1)) EmptyString
  | _ => mkPage (form p1) "Ошибка загрузки вопросов"
  end.

(** The user types into the inputs, in document order. *)
Fixpoint fill (values : list string) (nodes : list node) : list node :=
  match nodes with
  | [] => []
  | Wrapper c f t i :: rest =>
      match values with
      | v :: values' =>
          Wrapper c f t (mkInput (input_id i) (name i) (input_type i) (required i) v)
          :: fill values' rest
      | [] => nodes
      end
  | n :: rest => n :: fill values rest
  end.

(** [form.reset()]: the inputs, created without a default value, are
    empty again. *)
Definition reset (nodes : list node) : list node :=
  map (fun n =>
         match n with
         | Wrapper c f t i =>
             Wrapper c f t (mkInput (input_id i) (name i) (input_type i) (required i)
                                    EmptyString)
         | Button _ _ => n
         end) nodes.

(** The inputs of the form, in document order. *)
Definition inputs (nodes : list node) : list input :=
  flat_map (fun n =>
              match n with
              | Wrapper _ _ _ i => [i]
              | Button _ _ => []
              end) nodes.

(** [new FormData(form).entries()]: name and value of each named input. *)
Definition entries (nodes : list node) : list (string * string) :=
  flat_map (fun n =>
              match n with
              | Wrapper _ _ _ i =>
                  if (name i =? EmptyString)%string then [] else [(name i, value i)]
              | Button _ _ => []
              end) nodes.

(** The [answers] array the submit handler builds; [None] when a name is
    outside the strings [Number_] is modelled on. *)
Fixpoint answersOf (es : list (string * string)) : option (list (Z * string)) :=
  match es with
  | [] => Some []
  | (questionId, v) :: rest =>
      match Number_ questionId, answersOf rest with
      | Some n, Some l => Some ((n, v) :: l)
      | _, _ => None
      end
  end.

(** The contents of a JSON string literal for a string (QuoteJSONString):
    quote, backslash and control characters escaped, all else as it is. *)
Definition escapeByte (c : ascii) : string :=
  if (c =? dquote)%char then String "\" (String dquote EmptyString)
  else if (c =? "\")%char then "\\"
  else if (c =? "008")%char then "\b"
  else if (c =? "012")%char then "\f"
  else if (c =? "010")%char then "\n"
  else if (c =? "013")%char then "\r"
  else if (c =? "009")%char then "\t"
  else if (code c <? 32)%N then
    ("\u00" ++ String (JSON.hexDigit (code c / 16))
                       (String (JSON.hexDigit (code c mod 16)) EmptyString))%string
  else String c EmptyString.

Fixpoint escape (s : string) : string :=
  match s with
  | EmptyString => EmptyString
  | String c r => (escapeByte c ++ escape r)%string
  end.

Definition quote (s : string) : string :=
  String dquote (escape s ++ String dquote EmptyString).

(** [JSON.stringify({ answers })] *)
Definition stringifyAnswer (a : Z * string) : string :=
  (dq "{'questionId':" ++ String_ (fst a) ++ dq ",'value':" ++ quote (snd a) ++ "}")%string.

Definition stringify (answers : list (Z * string)) : string :=
  (dq "{'answers':[" ++ JSON.join "," (map stringifyAnswer answers) ++ "]}")%string.

(** The body the submit handler posts to /answers. *)
Definition submitBody (p : page) : option string :=
  option_map stringify (answersOf (entries (form p))).

(** The submit handler, from the event to the state in which it settles;
    [post] is the outcome of the request for a body. *)
Definition onSubmit (post : string -> fetched unit) (p : page) : option page :=
  let p1 := mkPage (form p) EmptyString in
  match answersOf (entries (form p1)) with
  | Some answers =>
      Some match post (stringify answers) with
           | Response true _ => mkPage (reset (form p1)) "Спасибо!"
           | _ => mkPage (form p1) "Не удалось отправить ответы"
           end
  | None => None
  end.

(** A well-formed UTF-8 string: the bytes of a string of scalar values.
    [k] is the number of continuation bytes still due. *)
Fixpoint wellFormedFrom (k : nat) (s : string) : bool :=
  match s with
  | EmptyString => Nat.eqb k 0
  | String c r =>
      match k with
      | S k' => (128 <=? code c)%N && wellFormedFrom k' r
      | O =>
          if (code c <? 128)%N then wellFormedFrom 0 r
          else
            match JSON.runeLen c r with
            | S (S n) => wellFormedFrom (S n) r
            | _ => false
            end
      end
  end.

Definition scalarValues (s : string) : bool := wellFormedFrom 0 s.

End Client.

(** The catalog as the array of objects its JSON encoding denotes. *)
Definition catalogObjects : list Client.question :=
  map (fun q => Client.mkQuestion (ID q) (Text q) (Type_ q)) (elements questions).

(** What the browser is told of a response: its [ok] flag is set for a
    status from 200 to 299. *)
Definition responseOK (w : HTTP.ResponseWriter) : bool :=
  (200 <=? HTTP.status w) && (HTTP.status w <=? 299).

(** The outcome of a request the server has answered with [w]; the
    submit handler does not read the body. *)
Definition delivered (w : HTTP.ResponseWriter) : Client.fetched unit :=
  Client.Response (responseOK w) None.

(** The JSON value of an answer as the page submits it. *)
Definition answerObject (a : Z * string) : JSON.json :=
  JSON.JObject [("questionId", JSON.JNumber (Client.String_ (fst a)));
                ("value", JSON.JString (snd a))].

(** The scanner's parse state inside the array of the member [answers],
    with the elements read so far. *)
Definition inAnswers (items : list JSON.json) : list JSON.frame :=
  [JSON.inArray items; JSON.inObjectValue [] "answers"].

(** The batch the page's inputs stand for: one answer per question, in
    order, with the value typed for it. *)
Definition typed (questions : list Client.question) (values : list string)
  : AnswersRequest :=
  mkAnswersRequest
    (mk_slice (map (fun qv => mkAnswer (Client.id (fst qv)) (snd qv))
                   (combine questions values))).

(* ================================================================== *)
(** ** Proof steps used throughout *)

Unset Implicit Arguments.

(** Case analysis on every condition the goal branches on. *)
Ltac split_ifs :=
  repeat match goal with
         | |- context [if ?b then _ else _] => destruct b
         end.

(** An equivalence [saved' = None <-> saved = None /\ false = true] where
    [saved'] records an error: [lem] says that it is not [None]. *)
Ltac type_error lem :=
  let H := fresh "H" in
  split; [intros H; apply lem in H; contradiction | intros [_ H]; discriminate H].

(** Case analysis on the 256 values of a byte. *)
Ltac each_byte c := destruct c as [[] [] [] [] [] [] [] []].

(* ================================================================== *)
(** ** The store, called from one goroutine *)

Lemma save_returns (s : answerStore) (req : AnswersRequest) :
  mu s = Sync.Unlocked ->
  save s req = Done (mkAnswerStore Sync.Unlocked (append (answers s) req)).
Proof.
  intros free. unfold save. rewrite free. reflexivity.
Qed.

Lemma elements_append {A} (sl : slice A) (x : A) :
  elements (append sl x) = elements sl ++ [x].
Proof. reflexivity. Qed.

Lemma len_append {A} (sl : slice A) (x : A) : len (append sl x) = S (len sl).
Proof.
  unfold len. rewrite elements_append, length_app. simpl. lia.
Qed.

(** The response to a request that decodes. *)
Lemma writeJSON_ok (lg : Logger) :
  writeJSON (HTTP.newResponseWriter None) HTTP.StatusOK
            (JSON.StringMap [("status", "ok")]) lg
  = (okResponse, lg).
Proof. reflexivity. Qed.

Lemma writeJSON_broken (e : string) (lg : Logger) :
  writeJSON (HTTP.newResponseWriter (Some e)) HTTP.StatusOK
            (JSON.StringMap [("status", "ok")]) lg
  = (HTTP.mkResponseWriter
       [("Content-Type", "application/json")] true 200
       [("Content-Type", "application/json")] EmptyString (Some e),
     lg ++ [("write json error: " ++ e)%string]).
Proof. reflexivity. Qed.

Lemma serve_decoded (sv : server) (reqBody : string) (req : AnswersRequest)
      (conn : option string) :
  JSON.Decode reqBody zeroAnswersRequest = (req, None) ->
  mu (store sv) = Sync.Unlocked ->
  serve (POST_answers reqBody) conn sv
  = let (w, lg) := writeJSON (HTTP.newResponseWriter conn) HTTP.StatusOK
                             (JSON.StringMap [("status", "ok")]) (logs sv) in
    Done (mkServer (store (appended sv req)) lg, w).
Proof.
  intros Hdec Hfree.
  unfold serve, handleAnswers. rewrite Hdec.
  rewrite (save_returns _ _ Hfree). cbn [bind].
  destruct (writeJSON _ _ _ _) as [w lg]. reflexivity.
Qed.

Lemma serve_undecodable (sv : server) (reqBody : string) (req : AnswersRequest)
      (e : JSON.DecodeError) (conn : option string) :
  JSON.Decode reqBody zeroAnswersRequest = (req, Some e) ->
  serve (POST_answers reqBody) conn sv
  = Done (sv, HTTP.Error (HTTP.newResponseWriter conn) "invalid JSON payload"
                         HTTP.StatusBadRequest).
Proof.
  intros Hdec. unfold serve, handleAnswers. rewrite Hdec.
  cbn [bind fst snd]. destruct sv; reflexivity.
Qed.

(** C1. Whenever the body of a POST /answers request decodes into a batch
    [req], and no other goroutine holds the store's mutex, the handler
    returns with the store's sequence extended by exactly the one element
    [req] (its answers as decoded, in order) and nothing else of the server
    changed, and the response is the acknowledgement: status 200 and the
    JSON body {"status":"ok"}. *)
Theorem C1_decoded_batch_appended_once_then_ok
        (sv : server) (reqBody : string) (req : AnswersRequest) :
  JSON.Decode reqBody zeroAnswersRequest = (req, None) ->
  mu (store sv) = Sync.Unlocked ->
  serve (POST_answers reqBody) None sv = Done (appended sv req, okResponse)
  /\ history (appended sv req) = history sv ++ [req]
  /\ List.length (history (appended sv req)) = S (List.length (history sv))
  /\ HTTP.status okResponse = HTTP.StatusOK
  /\ HTTP.body okResponse = (dq "{'status':'ok'}" ++ newline)%string.
Proof.
  intros Hdec Hfree. split.
  - rewrite (serve_decoded sv reqBody req None Hdec Hfree), writeJSON_ok. reflexivity.
  - unfold history, appended. cbn [store answers].
    rewrite elements_append, length_app. cbn. repeat split; lia.
Qed.

Lemma C1_witness :
  let reqBody := dq "{'answers':[{'questionId':1,'value':'Иван'}]}" in
  let req := mkAnswersRequest (mk_slice [mkAnswer 1 "Иван"]) in
  JSON.Decode reqBody zeroAnswersRequest = (req, None)
  /\ mu (store main) = Sync.Unlocked
  /\ serve (POST_answers reqBody) None main = Done (appended main req, okResponse).
Proof.
  intros reqBody req.
  assert (Hdec : JSON.Decode reqBody zeroAnswersRequest = (req, None))
    by (vm_compute; reflexivity).
  assert (Hfree : mu (store main) = Sync.Unlocked) by reflexivity.
  split; [exact Hdec | split; [exact Hfree |]].
  exact (proj1 (C1_decoded_batch_appended_once_then_ok main reqBody req Hdec Hfree)).
Defined.

Lemma Error_status (conn : option string) :
  HTTP.Error (HTTP.newResponseWriter conn) "invalid JSON payload" HTTP.StatusBadRequest
  = HTTP.mkResponseWriter
      (HTTP.header errorResponse) true 400 (HTTP.sentHeader errorResponse)
      (match conn with
       | None => ("invalid JSON payload" ++ newline)%string
       | Some _ => EmptyString
       end) conn.
Proof. destruct conn; reflexivity. Qed.

(** C2. Whenever the body of a POST /answers request fails to decode, the
    handler returns with the server as it was (the store, hence the length
    of its sequence, untouched) and a response with the client-error status
    400 and a text/plain content type, whose body is not the
    {"status":"ok"} envelope; on a working connection the body is the text
    "invalid JSON payload". *)
Theorem C2_undecodable_body_rejected_store_untouched
        (sv : server) (reqBody : string) (req : AnswersRequest)
        (e : JSON.DecodeError) (conn : option string) :
  JSON.Decode reqBody zeroAnswersRequest = (req, Some e) ->
  exists w,
    serve (POST_answers reqBody) conn sv = Done (sv, w)
    /\ clientError (HTTP.status w)
    /\ HTTP.Get (HTTP.sentHeader w) "Content-Type" = Some "text/plain; charset=utf-8"
    /\ HTTP.body w <> HTTP.body okResponse
    /\ (conn = None -> w = errorResponse).
Proof.
  intros Hdec. eexists. split.
  - exact (serve_undecodable sv reqBody req e conn Hdec).
  - rewrite Error_status. cbn [HTTP.status HTTP.sentHeader HTTP.body].
    split; [unfold clientError; lia |].
    split; [reflexivity |].
    split; [destruct conn; discriminate |].
    intros ->. reflexivity.
Qed.

Lemma C2_witness :
  JSON.Decode "not-json" zeroAnswersRequest = (zeroAnswersRequest, Some JSON.SyntaxError)
  /\ serve (POST_answers "not-json") None main = Done (main, errorResponse).
Proof.
  assert (Hdec : JSON.Decode "not-json" zeroAnswersRequest
                 = (zeroAnswersRequest, Some JSON.SyntaxError))
    by (vm_compute; reflexivity).
  split; [exact Hdec |].
  destruct (C2_undecodable_body_rejected_store_untouched
              main "not-json" zeroAnswersRequest JSON.SyntaxError None Hdec)
    as [w [Hserve [_ [_ [_ Hw]]]]].
  rewrite Hserve, (Hw eq_refl). reflexivity.
Defined.

(** C8. A decoded batch that references a question id the catalog does not
    have is stored exactly as decoded and acknowledged like any other: the
    store gains that batch as its last element and the response is the
    acknowledgement every decodable submission receives, whether or not
    its ids are in the catalog. *)
Theorem C8_unknown_question_ids_stored_as_submitted
        (sv : server) (reqBody : string) (req : AnswersRequest) :
  JSON.Decode reqBody zeroAnswersRequest = (req, None) ->
  mu (store sv) = Sync.Unlocked ->
  referencesUnknown req ->
  serve (POST_answers reqBody) None sv = Done (appended sv req, okResponse)
  /\ history (appended sv req) = history sv ++ [req]
  /\ forall reqBody' req',
      JSON.Decode reqBody' zeroAnswersRequest = (req', None) ->
      ~ referencesUnknown req' ->
      serve (POST_answers reqBody') None sv = Done (appended sv req', okResponse).
Proof.
  intros Hdec Hfree _. split; [| split].
  - rewrite (serve_decoded sv reqBody req None Hdec Hfree), writeJSON_ok. reflexivity.
  - reflexivity.
  - intros reqBody' req' Hdec' _.
    rewrite (serve_decoded sv reqBody' req' None Hdec' Hfree), writeJSON_ok. reflexivity.
Qed.

Lemma C8_witness :
  let reqBody := dq "{'answers':[{'questionId':99,'value':'x'}]}" in
  let req := mkAnswersRequest (mk_slice [mkAnswer 99 "x"]) in
  JSON.Decode reqBody zeroAnswersRequest = (req, None)
  /\ referencesUnknown req
  /\ serve (POST_answers reqBody) None main = Done (appended main req, okResponse).
Proof.
  intros reqBody req.
  assert (Hdec : JSON.Decode reqBody zeroAnswersRequest = (req, None))
    by (vm_compute; reflexivity).
  assert (Hunk : referencesUnknown req).
  { exists (mkAnswer 99 "x"). split; [left; reflexivity |].
    cbn. intros [H | [H | [H | [H | []]]]]; discriminate H. }
  split; [exact Hdec | split; [exact Hunk |]].
  exact (proj1 (C8_unknown_question_ids_stored_as_submitted
                  main reqBody req Hdec eq_refl Hunk)).
Defined.

(** C9. When writing the acknowledgement fails (every write to the
    connection reports the error [e]), the handler still returns, with the
    store exactly as the append left it, which is the store a successful
    response leaves; the failure only adds the line "write json error: e"
    to the log. *)
Theorem C9_encoding_failure_leaves_appended_store
        (sv : server) (reqBody : string) (req : AnswersRequest) (e : string) :
  JSON.Decode reqBody zeroAnswersRequest = (req, None) ->
  mu (store sv) = Sync.Unlocked ->
  exists sv1 w1 sv2 w2,
    serve (POST_answers reqBody) (Some e) sv = Done (sv1, w1)
    /\ serve (POST_answers reqBody) None sv = Done (sv2, w2)
    /\ store sv1 = store (appended sv req)
    /\ store sv1 = store sv2
    /\ logs sv1 = logs sv ++ [("write json error: " ++ e)%string]
    /\ logs sv2 = logs sv.
Proof.
  intros Hdec Hfree.
  rewrite (serve_decoded sv reqBody req (Some e) Hdec Hfree), writeJSON_broken.
  rewrite (serve_decoded sv reqBody req None Hdec Hfree), writeJSON_ok.
  do 4 eexists. repeat split.
Qed.

Lemma C9_witness :
  let reqBody := dq "{'answers':[]}" in
  let req := mkAnswersRequest (mk_slice []) in
  JSON.Decode reqBody zeroAnswersRequest = (req, None)
  /\ mu (store main) = Sync.Unlocked
  /\ exists sv1 w1,
      serve (POST_answers reqBody) (Some "broken pipe") main = Done (sv1, w1)
      /\ store sv1 = store (appended main req).
Proof.
  intros reqBody req.
  assert (Hdec : JSON.Decode reqBody zeroAnswersRequest = (req, None))
    by (vm_compute; reflexivity).
  split; [exact Hdec | split; [reflexivity |]].
  destruct (C9_encoding_failure_leaves_appended_store
              main reqBody req "broken pipe" Hdec eq_refl)
    as [sv1 [w1 [_ [_ [H1 [_ [H3 _]]]]]]].
  exists sv1, w1. split; [exact H1 | exact H3].
Defined.

(* ================================================================== *)
(** ** Concurrent calls of [save] *)

Lemma nth_error_replaceAt {A} (l : list A) :
  forall i g x,
    nth_error l i = Some g ->
    exists l1 l2, l = l1 ++ g :: l2 /\ replaceAt i x l = l1 ++ x :: l2.
Proof.
  induction l as [| y r IH]; intros i g x H.
  - destruct i; discriminate H.
  - destruct i as [| j]; cbn in H.
    + injection H as ->. exists [], r. split; reflexivity.
    + destruct (IH j g x H) as [l1 [l2 [-> Hr]]].
      exists (y :: l1), l2. cbn. rewrite Hr. split; reflexivity.
Qed.

Lemma written_middle (l1 l2 : list (savePC * AnswersRequest)) (g : savePC * AnswersRequest) :
  written (l1 ++ g :: l2)
  = written l1 ++ (if hasWritten g then [snd g] else []) ++ written l2.
Proof.
  unfold written. rewrite filter_app, map_app. cbn [filter].
  destruct (hasWritten g); reflexivity.
Qed.

Lemma critical_middle (l1 l2 : list (savePC * AnswersRequest)) (g : savePC * AnswersRequest) :
  List.length (filter inCritical (l1 ++ g :: l2))
  = (List.length (filter inCritical l1)
     + (if inCritical g then 1 else 0)
     + List.length (filter inCritical l2))%nat.
Proof.
  rewrite filter_app, length_app. cbn [filter].
  destruct (inCritical g); cbn [List.length]; lia.
Qed.

Lemma no_critical_fresh (l : list (savePC * AnswersRequest)) (s : slice AnswersRequest) :
  List.length (filter inCritical l) = 0%nat ->
  Forall (fun g => forall old, fst g = atWrite old -> old = s) l.
Proof.
  induction l as [| g r IH]; intros H; constructor.
  - intros old Hpc. cbn [filter] in H. unfold inCritical in H at 1.
    rewrite Hpc in H. discriminate H.
  - apply IH. cbn [filter] in H. destruct (inCritical g); [discriminate H | exact H].
Qed.

Lemma spawn_invariant (s : answerStore) (batches : list AnswersRequest) :
  mu s = Sync.Unlocked ->
  invariant (elements (answers s)) batches (spawn s batches).
Proof.
  intros Hfree. unfold invariant, spawn. cbn [goroutines shared].
  rewrite Hfree.
  assert (Hnone : forall f : savePC * AnswersRequest -> bool,
             (forall req, f (atLock, req) = false) ->
             filter f (map (fun req => (atLock, req)) batches) = []).
  { intros f Hf. induction batches as [| b r IH]; [reflexivity |].
    cbn. rewrite Hf. exact IH. }
  split; [| split; [| split]].
  - rewrite map_map. cbn. apply map_id.
  - rewrite Hnone; reflexivity.
  - apply no_critical_fresh. rewrite Hnone; reflexivity.
  - exists []. unfold written. rewrite Hnone by reflexivity.
    rewrite app_nil_r. split; [reflexivity | constructor].
Qed.

(** *** The invariant is kept by every step *)

Section Interleaving.

Variables init batches : list AnswersRequest.

Lemma stepAt_invariant (i : nat) (c c' : config) :
  invariant init batches c ->
  stepAt i c = Done c' ->
  invariant init batches c'.
Proof.
  intros [Hreqs [Hmutex [Hfresh [added [Hstore Hperm]]]]] Hstep.
  unfold stepAt in Hstep.
  destruct (nth_error (goroutines c) i) as [[pc req] |] eqn:Hnth; [| discriminate Hstep].
  destruct c as [s gs]. cbn [goroutines shared] in *.
  destruct pc as [| | old | |]; cbn [saveStep bind fst snd] in Hstep.
  - (* Lock *)
    destruct (mu s) eqn:Hmu; cbn in Hstep; [| discriminate Hstep].
    injection Hstep as <-.
    destruct (nth_error_replaceAt gs i (atLock, req) (atRead, req) Hnth)
      as [l1 [l2 [-> ->]]].
    unfold invariant. cbn [goroutines shared mu answers].
    rewrite critical_middle in *. rewrite written_middle in *.
    rewrite map_app in *. cbn in Hmutex, Hperm, Hreqs |- *.
    split; [exact Hreqs |]. split; [lia |]. split.
    + apply Forall_app in Hfresh. destruct Hfresh as [H1 H2].
      apply Forall_app. split; [exact H1 |].
      inversion H2; subst. constructor; [intros o Ho; discriminate Ho | assumption].
    + exists added. split; assumption.
  - (* read *)
    injection Hstep as <-.
    destruct (nth_error_replaceAt gs i (atRead, req) (atWrite (answers s), req) Hnth)
      as [l1 [l2 [-> ->]]].
    unfold invariant. cbn [goroutines shared mu answers].
    rewrite critical_middle in *. rewrite written_middle in *.
    rewrite map_app in *. cbn in Hmutex, Hperm, Hreqs |- *.
    split; [exact Hreqs |]. split; [exact Hmutex |]. split.
    + apply Forall_app in Hfresh. destruct Hfresh as [H1 H2].
      apply Forall_app. split; [exact H1 |].
      inversion H2; subst.
      constructor; [intros o Ho; injection Ho as <-; reflexivity | assumption].
    + exists added. split; assumption.
  - (* write *)
    injection Hstep as <-.
    destruct (nth_error_replaceAt gs i (atWrite old, req) (atUnlock, req) Hnth)
      as [l1 [l2 [-> ->]]].
    unfold invariant. cbn [goroutines shared mu answers].
    rewrite critical_middle in *. rewrite written_middle in *.
    rewrite map_app in *. cbn in Hmutex, Hperm, Hreqs |- *.
    assert (Hold : old = answers s).
    { apply Forall_app in Hfresh. destruct Hfresh as [_ H2].
      inversion H2; subst. auto. }
    subst old.
    assert (Hc1 : List.length (filter inCritical l1) = 0%nat)
      by (destruct (mu s); lia).
    assert (Hc2 : List.length (filter inCritical l2) = 0%nat)
      by (destruct (mu s); lia).
    split; [exact Hreqs |]. split; [exact Hmutex |]. split.
    + apply Forall_app. split; [apply no_critical_fresh; exact Hc1 |].
      constructor; [intros o Ho; discriminate Ho |].
      apply no_critical_fresh; exact Hc2.
    + exists (added ++ [req]). rewrite Hstore, app_assoc. split; [reflexivity |].
      apply Permutation_trans with (req :: added).
      * apply Permutation_sym, Permutation_cons_append.
      * apply Permutation_cons_app. exact Hperm.
  - (* Unlock *)
    destruct (mu s) eqn:Hmu; cbn in Hstep; [discriminate Hstep |].
    injection Hstep as <-.
    destruct (nth_error_replaceAt gs i (atUnlock, req) (returned, req) Hnth)
      as [l1 [l2 [-> ->]]].
    unfold invariant. cbn [goroutines shared mu answers].
    rewrite critical_middle in *. rewrite written_middle in *.
    rewrite map_app in *. cbn in Hmutex, Hperm, Hreqs |- *.
    split; [exact Hreqs |]. split; [lia |]. split.
    + apply Forall_app in Hfresh. destruct Hfresh as [H1 H2].
      apply Forall_app. split; [exact H1 |].
      inversion H2; subst. constructor; [intros o Ho; discriminate Ho | assumption].
    + exists added. split; assumption.
  - discriminate Hstep.
Qed.

Lemma run_invariant (schedule : list nat) :
  forall c c',
    invariant init batches c ->
    run schedule c = Done c' ->
    invariant init batches c'.
Proof.
  induction schedule as [| i rest IH]; intros c c' Hinv Hrun; cbn [run] in Hrun.
  - injection Hrun as <-. exact Hinv.
  - destruct (stepAt i c) as [c1 | |] eqn:Hstep; cbn [bind] in Hrun;
      try discriminate Hrun.
    apply (IH c1 c'); [| exact Hrun].
    exact (stepAt_invariant i c c1 Hinv Hstep).
Qed.

Lemma nth_error_middle {A} (l1 l2 : list A) (g : A) :
  nth_error (l1 ++ g :: l2) (List.length l1) = Some g.
Proof.
  induction l1 as [| y r IH]; [reflexivity | exact IH].
Qed.

Lemma replaceAt_middle {A} (l1 l2 : list A) (g x : A) :
  replaceAt (List.length l1) x (l1 ++ g :: l2) = l1 ++ x :: l2.
Proof.
  induction l1 as [| y r IH]; [reflexivity |].
  cbn. rewrite IH. reflexivity.
Qed.

Lemma stepAt_middle (s : answerStore) (l1 l2 : list (savePC * AnswersRequest))
      (pc : savePC) (req : AnswersRequest) :
  stepAt (List.length l1) (mkConfig s (l1 ++ (pc, req) :: l2))
  = r <- saveStep req pc s ;;
    Done (mkConfig (snd r) (l1 ++ (fst r, req) :: l2)).
Proof.
  unfold stepAt. cbn [goroutines shared].
  rewrite nth_error_middle.
  destruct (saveStep req pc s) as [[pc' s'] | |]; cbn [bind fst snd]; try reflexivity.
  rewrite replaceAt_middle. reflexivity.
Qed.

(** A call that finds the mutex free runs to its return without
    interruption, and does what [save] does. *)
Lemma run_one_call (s : answerStore) (l1 l2 : list (savePC * AnswersRequest))
      (req : AnswersRequest) :
  mu s = Sync.Unlocked ->
  let i := List.length l1 in
  run [i; i; i; i] (mkConfig s (l1 ++ (atLock, req) :: l2))
  = s' <- save s req ;; Done (mkConfig s' (l1 ++ (returned, req) :: l2)).
Proof.
  intros Hfree i. subst i. rewrite (save_returns s req Hfree).
  cbn [run bind].
  rewrite stepAt_middle. cbn [saveStep]. rewrite Hfree. cbn [Sync.Lock bind fst snd].
  rewrite stepAt_middle. cbn [saveStep bind fst snd].
  rewrite stepAt_middle. cbn [saveStep bind fst snd mu answers].
  rewrite stepAt_middle. cbn [saveStep bind fst snd mu answers Sync.Unlock].
  reflexivity.
Qed.

Lemma run_app (a b : list nat) (c : config) :
  run (a ++ b) c = c' <- run a c ;; run b c'.
Proof.
  revert c. induction a as [| i r IH]; intros c; [reflexivity |].
  cbn [run app]. destruct (stepAt i c); cbn [bind]; [apply IH | reflexivity ..].
Qed.

Lemma allReturned_written (gs : list (savePC * AnswersRequest)) :
  forallb isReturned gs = true -> written gs = map snd gs.
Proof.
  unfold written. induction gs as [| g r IH]; intros H; [reflexivity |].
  cbn [forallb] in H. apply andb_true_iff in H. destruct H as [Hg Hr].
  assert (Hw : hasWritten g = true).
  { unfold isReturned in Hg. unfold hasWritten.
    destruct (fst g); try discriminate Hg. reflexivity. }
  cbn [filter]. rewrite Hw. cbn [map]. rewrite (IH Hr). reflexivity.
Qed.


(** Between two configurations of a run the stored sequence only grows at
    its end. *)
Lemma stepAt_extends (i : nat) (c c' : config) :
  invariant init batches c ->
  stepAt i c = Done c' ->
  exists suffix,
    elements (answers (shared c')) = elements (answers (shared c)) ++ suffix.
Proof.
  intros [_ [_ [Hfresh _]]] Hstep.
  unfold stepAt in Hstep.
  destruct (nth_error (goroutines c) i) as [[pc req] |] eqn:Hnth; [| discriminate Hstep].
  destruct c as [s gs]. cbn [goroutines shared] in *.
  destruct pc as [| | old | |]; cbn [saveStep bind fst snd] in Hstep.
  - destruct (mu s); cbn in Hstep; [| discriminate Hstep].
    injection Hstep as <-. exists []. cbn. rewrite app_nil_r. reflexivity.
  - injection Hstep as <-. exists []. cbn. rewrite app_nil_r. reflexivity.
  - injection Hstep as <-. exists [req]. cbn [shared answers].
    rewrite Forall_forall in Hfresh.
    rewrite (Hfresh (atWrite old, req) (nth_error_In _ _ Hnth) old eq_refl).
    reflexivity.
  - destruct (mu s); cbn in Hstep; [discriminate Hstep |].
    injection Hstep as <-. exists []. cbn. rewrite app_nil_r. reflexivity.
  - discriminate Hstep.
Qed.

Lemma run_extends (schedule : list nat) :
  forall c c',
    invariant init batches c ->
    run schedule c = Done c' ->
    exists suffix,
      elements (answers (shared c')) = elements (answers (shared c)) ++ suffix.
Proof.
  induction schedule as [| i rest IH]; intros c c' Hinv Hrun; cbn [run] in Hrun.
  - injection Hrun as <-. exists []. rewrite app_nil_r. reflexivity.
  - destruct (stepAt i c) as [c1 | |] eqn:Hstep; cbn [bind] in Hrun;
      try discriminate Hrun.
    destruct (stepAt_extends i c c1 Hinv Hstep) as [suf1 H1].
    destruct (IH c1 c' (stepAt_invariant i c c1 Hinv Hstep) Hrun)
      as [suf2 H2].
    exists (suf1 ++ suf2). rewrite H2, H1, app_assoc. reflexivity.
Qed.

(** *** No call waits for ever *)

Lemma find_split {A} (p : A -> bool) (l : list A) :
  filter p l <> [] ->
  exists l1 g l2, l = l1 ++ g :: l2 /\ p g = true.
Proof.
  induction l as [| y r IH]; intros H; [contradiction H; reflexivity |].
  cbn [filter] in H. destruct (p y) eqn:Hy.
  - exists [], y, r. split; [reflexivity | exact Hy].
  - destruct (IH H) as [l1 [g [l2 [-> Hg]]]].
    exists (y :: l1), g, l2. split; [reflexivity | exact Hg].
Qed.

Lemma totalStepsLeft_middle (l1 l2 : list (savePC * AnswersRequest))
      (g : savePC * AnswersRequest) :
  totalStepsLeft (l1 ++ g :: l2)
  = (totalStepsLeft l1 + stepsLeft g + totalStepsLeft l2)%nat.
Proof.
  unfold totalStepsLeft. rewrite map_app, list_sum_app.
  unfold list_sum. cbn [map fold_right]. lia.
Qed.

Lemma totalStepsLeft_zero (gs : list (savePC * AnswersRequest)) :
  totalStepsLeft gs = 0%nat -> forallb isReturned gs = true.
Proof.
  induction gs as [| g r IH]; intros H; [reflexivity |].
  unfold totalStepsLeft, list_sum in H. cbn [map fold_right] in H.
  cbn [forallb]. rewrite IH by (unfold totalStepsLeft, list_sum; lia).
  unfold stepsLeft in H. unfold isReturned.
  destruct (fst g); try (exfalso; lia). reflexivity.
Qed.

(** In a reachable configuration where some call has not returned, some
    goroutine can take a step, which brings the calls closer to their
    return. *)
Lemma progress (c : config) :
  invariant init batches c ->
  totalStepsLeft (goroutines c) <> 0%nat ->
  exists i c',
    stepAt i c = Done c'
    /\ S (totalStepsLeft (goroutines c')) = totalStepsLeft (goroutines c).
Proof.
  intros [_ [Hmutex _]] Hleft.
  destruct c as [s gs]. cbn [goroutines shared] in *.
  destruct (mu s) eqn:Hmu.
  - (* the mutex is free: a goroutine that has not returned is at Lock *)
    assert (Hsome : filter (fun g => negb (isReturned g)) gs <> []).
    { intros Hnil. apply Hleft. clear - Hnil.
      induction gs as [| g r IH]; [reflexivity |].
      cbn [filter] in Hnil. unfold totalStepsLeft, list_sum. cbn [map fold_right].
      destruct (isReturned g) eqn:Hg; cbn in Hnil; [| discriminate Hnil].
      unfold totalStepsLeft, list_sum in IH. rewrite (IH Hnil).
      unfold isReturned in Hg. unfold stepsLeft.
      destruct (fst g); try discriminate Hg. reflexivity. }
    destruct (find_split _ gs Hsome) as [l1 [[pc req] [l2 [-> Hg]]]].
    rewrite critical_middle in Hmutex.
    assert (Hpc : pc = atLock).
    { unfold inCritical in Hmutex at 2. unfold isReturned in Hg. cbn [fst] in *.
      destruct pc; try reflexivity; try discriminate Hg; exfalso; lia. }
    subst pc. exists (List.length l1). eexists.
    rewrite stepAt_middle. cbn [saveStep]. rewrite Hmu. cbn [Sync.Lock bind fst snd].
    split; [reflexivity |]. cbn [goroutines].
    rewrite !totalStepsLeft_middle. cbn. lia.
  - (* the mutex is held: its holder can step *)
    assert (Hsome : filter inCritical gs <> []).
    { intros Hnil. rewrite Hnil in Hmutex. discriminate Hmutex. }
    destruct (find_split _ gs Hsome) as [l1 [[pc req] [l2 [-> Hg]]]].
    exists (List.length l1). rewrite stepAt_middle.
    unfold inCritical in Hg. cbn [fst] in Hg.
    destruct pc; try discriminate Hg; cbn [saveStep]; try rewrite Hmu;
      cbn [Sync.Unlock bind fst snd]; eexists; (split; [reflexivity |]);
      cbn [goroutines]; rewrite !totalStepsLeft_middle; cbn; lia.
Qed.

(** Deadlock freedom: every reachable configuration has a schedule that
    lets all the calls return. *)
Lemma run_completes (n : nat) :
  forall c,
    invariant init batches c ->
    totalStepsLeft (goroutines c) = n ->
    exists schedule c',
      run schedule c = Done c' /\ allReturned c' = true.
Proof.
  induction n as [| k IH]; intros c Hinv Hn.
  - exists [], c. split; [reflexivity |].
    apply totalStepsLeft_zero. exact Hn.
  - destruct (progress c Hinv) as [i [c1 [Hstep Hless]]]; [lia |].
    destruct (IH c1 (stepAt_invariant i c c1 Hinv Hstep)) as
      [rest [c' [Hrun Hall]]]; [lia |].
    exists (i :: rest), c'. cbn [run]. rewrite Hstep. cbn [bind].
    split; [exact Hrun | exact Hall].
Qed.

End Interleaving.

(* ================================================================== *)
(** ** Requests served in sequence *)

Lemma serve_get (conn : option string) (sv : server) :
  serve GET_questions conn sv
  = Done (mkServer (store sv)
                   (snd (handleQuestions (HTTP.newResponseWriter conn) (logs sv))),
          fst (handleQuestions (HTTP.newResponseWriter conn) (logs sv))).
Proof.
  unfold serve. destruct (handleQuestions _ _). reflexivity.
Qed.

(** The response of [writeJSON] does not depend on the log. *)
Lemma writeJSON_response (w : HTTP.ResponseWriter) (code : Z) (p : JSON.payload)
      (lg lg' : Logger) :
  fst (writeJSON w code p lg) = fst (writeJSON w code p lg').
Proof.
  unfold writeJSON. destruct (HTTP.Encode _ _) as [w3 [e |]]; reflexivity.
Qed.

(** Every request returns when the mutex is free, leaves it free, and
    leaves the stored sequence as it was or with one batch added at the
    end. *)
Lemma serve_extends (r : request) (conn : option string) (sv : server) :
  mu (store sv) = Sync.Unlocked ->
  exists sv' w suffix,
    serve r conn sv = Done (sv', w)
    /\ history sv' = history sv ++ suffix
    /\ mu (store sv') = Sync.Unlocked.
Proof.
  intros Hfree. destruct r as [| reqBody].
  - rewrite serve_get. do 2 eexists. exists []. cbn [store].
    unfold history. cbn [store]. rewrite app_nil_r. auto.
  - destruct (JSON.Decode reqBody zeroAnswersRequest) as [req [e |]] eqn:Hdec.
    + rewrite (serve_undecodable sv reqBody req e conn Hdec).
      do 2 eexists. exists []. rewrite app_nil_r. auto.
    + rewrite (serve_decoded sv reqBody req conn Hdec Hfree).
      destruct (writeJSON _ _ _ _) as [w lg].
      do 2 eexists. exists [req]. repeat split.
Qed.

Lemma serveAll_extends (rs : list (request * option string)) :
  forall sv : server,
    mu (store sv) = Sync.Unlocked ->
    exists sv' ws suffix,
      serveAll rs sv = Done (sv', ws)
      /\ history sv' = history sv ++ suffix
      /\ mu (store sv') = Sync.Unlocked.
Proof.
  induction rs as [| [r conn] rest IH]; intros sv Hfree.
  - exists sv, [], []. rewrite app_nil_r. auto.
  - destruct (serve_extends r conn sv Hfree) as [sv1 [w [suf1 [Hs [Hh Hf]]]]].
    destruct (IH sv1 Hf) as [sv2 [ws [suf2 [Hs2 [Hh2 Hf2]]]]].
    exists sv2, (w :: ws), (suf1 ++ suf2).
    cbn [serveAll]. rewrite Hs. cbn [bind fst snd]. rewrite Hs2. cbn [bind fst snd].
    rewrite Hh2, Hh, app_assoc. auto.
Qed.

(** C3. The store is append-only.  A call of [save] returns with the old
    sequence followed by the one new batch, which is therefore the last
    element, the length grown by one.  Whatever requests the server then
    handles, it handles all of them and the sequence it started from
    remains a prefix of the stored sequence: the length never decreases and
    every entry stays at its index, unchanged.  The same holds between any
    two moments of concurrent calls of [save]. *)
Theorem C3_store_is_append_only
        (sv : server) (req : AnswersRequest) (rs : list (request * option string)) :
  mu (store sv) = Sync.Unlocked ->
  (exists s',
      save (store sv) req = Done s'
      /\ elements (answers s') = history sv ++ [req]
      /\ last (elements (answers s')) zeroAnswersRequest = req
      /\ len (answers s') = S (len (answers (store sv))))
  /\ (exists sv' ws suffix,
         serveAll rs sv = Done (sv', ws)
         /\ history sv' = history sv ++ suffix
         /\ (List.length (history sv) <= List.length (history sv'))%nat
         /\ forall i entry,
             nth_error (history sv) i = Some entry ->
             nth_error (history sv') i = Some entry)
  /\ (forall batches schedule1 schedule2 c1 c2,
         run schedule1 (spawn (store sv) batches) = Done c1 ->
         run schedule2 c1 = Done c2 ->
         exists suffix,
           elements (answers (shared c2)) = elements (answers (shared c1)) ++ suffix).
Proof.
  intros Hfree. split; [| split].
  - eexists. split; [apply save_returns; exact Hfree |].
    cbn [answers]. rewrite elements_append, len_append, last_last.
    repeat split.
  - destruct (serveAll_extends rs sv Hfree) as [sv' [ws [suffix [Hs [Hh _]]]]].
    exists sv', ws, suffix. split; [exact Hs |]. split; [exact Hh |].
    rewrite Hh, length_app. split; [lia |].
    intros i entry Hi. rewrite nth_error_app1; [exact Hi |].
    apply nth_error_Some. rewrite Hi. discriminate.
  - intros batches schedule1 schedule2 c1 c2 Hrun1 Hrun2.
    apply (run_extends (history sv) batches schedule2 c1 c2); [| exact Hrun2].
    exact (run_invariant (history sv) batches schedule1 (spawn (store sv) batches) c1
                         (spawn_invariant (store sv) batches Hfree) Hrun1).
Qed.

Lemma C3_witness :
  let req := mkAnswersRequest (mk_slice [mkAnswer 1 "Иван"]) in
  let rs : list (request * option string) :=
      [(POST_answers (dq "{'answers':[]}"), None);
             (GET_questions, None);
             (POST_answers "not-json", None)] in
  mu (store main) = Sync.Unlocked
  /\ exists s',
      save (store main) req = Done s'
      /\ elements (answers s') = history main ++ [req].
Proof.
  intros req rs. split; [reflexivity |].
  destruct (proj1 (C3_store_is_append_only main req rs eq_refl))
    as [s' [Hsave [Hel _]]].
  exists s'. split; [exact Hsave | exact Hel].
Defined.

(** C7. [save] itself has no failure: for every batch whatsoever, a batch
    without answers included, a call that finds the mutex free returns,
    with the number of stored batches increased by exactly one and the
    mutex free again; and a call made while other calls are under way is
    never stuck: from every moment of their interleaving all the calls can
    be run to their return. *)
Theorem C7_save_always_succeeds (s : answerStore) (req : AnswersRequest) :
  mu s = Sync.Unlocked ->
  (exists s',
      save s req = Done s'
      /\ len (answers s') = S (len (answers s))
      /\ mu s' = Sync.Unlocked)
  /\ forall others schedule c,
      run schedule (spawn s (req :: others)) = Done c ->
      exists schedule' c',
        run schedule' c = Done c' /\ allReturned c' = true.
Proof.
  intros Hfree. split.
  - eexists. split; [apply save_returns; exact Hfree |].
    cbn [answers mu]. rewrite len_append. split; reflexivity.
  - intros others schedule c Hrun.
    apply (run_completes (elements (answers s)) (req :: others)
                         (totalStepsLeft (goroutines c)) c); [| reflexivity].
    exact (run_invariant (elements (answers s)) (req :: others) schedule
                         (spawn s (req :: others)) c
                         (spawn_invariant s (req :: others) Hfree) Hrun).
Qed.

Lemma C7_witness :
  mu (store main) = Sync.Unlocked
  /\ exists s',
      save (store main) (mkAnswersRequest (mk_slice [])) = Done s'
      /\ len (answers s') = 1%nat.
Proof.
  split; [reflexivity |].
  destruct (proj1 (C7_save_always_succeeds (store main) (mkAnswersRequest (mk_slice []))
                                           eq_refl))
    as [s' [Hsave [Hlen _]]].
  exists s'. split; [exact Hsave | exact Hlen].
Defined.

(** C5. Listing the questions is pure and deterministic: the handler
    always returns, with status 200 and the store untouched, and its
    response is the same before and after any sequence of requests,
    submissions included; on a working connection the body is the encoding
    of the catalog in definition order. *)
Theorem C5_listing_questions_is_pure
        (sv : server) (rs : list (request * option string)) (conn : option string) :
  mu (store sv) = Sync.Unlocked ->
  exists sv1 w sv2 ws sv3,
    serve GET_questions conn sv = Done (sv1, w)
    /\ store sv1 = store sv
    /\ serveAll rs sv1 = Done (sv2, ws)
    /\ serve GET_questions conn sv2 = Done (sv3, w)
    /\ store sv3 = store sv2
    /\ HTTP.status w = HTTP.StatusOK
    /\ (conn = None ->
        HTTP.body w = (JSON.Marshal (JSON.QuestionSlice questions) ++ newline)%string).
Proof.
  intros Hfree.
  rewrite serve_get.
  set (sv1 := mkServer (store sv) _).
  destruct (serveAll_extends rs sv1 Hfree) as [sv2 [ws [_ [Hs _]]]].
  exists sv1, (fst (handleQuestions (HTTP.newResponseWriter conn) (logs sv))), sv2, ws.
  eexists. split; [reflexivity |]. split; [reflexivity |]. split; [exact Hs |].
  split.
  - rewrite serve_get. f_equal. f_equal.
    apply writeJSON_response.
  - cbn [store]. split; [reflexivity |].
    unfold handleQuestions, writeJSON, HTTP.Encode, HTTP.Write.
    destruct conn as [e |]; cbn; split; try reflexivity; intros H; discriminate H.
Qed.

Lemma C5_witness :
  let rs : list (request * option string) :=
      [(POST_answers (dq "{'answers':[{'questionId':2,'value':'30'}]}"), None)] in
  mu (store main) = Sync.Unlocked
  /\ exists sv1 w sv2 ws sv3,
      serve GET_questions None main = Done (sv1, w)
      /\ serveAll rs sv1 = Done (sv2, ws)
      /\ serve GET_questions None sv2 = Done (sv3, w)
      /\ List.length (history sv2) = 1%nat.
Proof.
  intros rs. split; [reflexivity |].
  destruct (C5_listing_questions_is_pure main rs None eq_refl)
    as [sv1 [w [sv2 [ws [sv3 [H1 [H2 [H3 [H4 _]]]]]]]]].
  exists sv1, w, sv2, ws, sv3.
  split; [exact H1 |]. split; [exact H3 |]. split; [exact H4 |].
  vm_compute in H1. injection H1 as <- _.
  vm_compute in H3. injection H3 as <- _. reflexivity.
Defined.

(** C6. The catalog has exactly four questions, each with a positive id
    and the type "text" or "number", the ids pairwise distinct, the first
    in definition order being {1, "Как вас зовут?", "text"}.  GET
    /questions answers, from any server state, with status 200 and the JSON
    array of the four objects with keys "id" (a number), "text" and "type"
    (strings), in definition order. *)
Theorem C6_catalog_of_four_questions (sv : server) :
  len questions = 4%nat
  /\ Forall (fun q => 0 < ID q /\ (Type_ q = "text" \/ Type_ q = "number"))
            (elements questions)
  /\ NoDup catalogIDs
  /\ nth_error (elements questions) 0 = Some (mkQuestion 1 "Как вас зовут?" "text")
  /\ exists sv' w,
      serve GET_questions None sv = Done (sv', w)
      /\ HTTP.status w = HTTP.StatusOK
      /\ HTTP.body w =
         (dq ("[{'id':1,'text':'Как вас зовут?','type':'text'},"
              ++ "{'id':2,'text':'Сколько вам лет?','type':'number'},"
              ++ "{'id':3,'text':'Ваш любимый язык программирования?','type':'text'},"
              ++ "{'id':4,'text':'Готовы учить Go глубже?','type':'text'}]")
          ++ newline)%string
      /\ JSON.readValue (HTTP.body w) =
         inl (JSON.JArray
                (map (fun q => JSON.JObject
                                 [("id", JSON.JNumber (JSON.encodeInt (ID q)));
                                  ("text", JSON.JString (Text q));
                                  ("type", JSON.JString (Type_ q))])
                     (elements questions))).
Proof.
  split; [reflexivity |].
  split.
  { cbn [elements questions].
    repeat (apply Forall_cons; [split; [reflexivity |]; cbn [Type_];
                                (left; reflexivity) || (right; reflexivity) |]).
    apply Forall_nil. }
  split.
  { cbn. repeat constructor; cbn; intuition discriminate. }
  split; [reflexivity |].
  rewrite serve_get. do 2 eexists. split; [reflexivity |].
  split; [reflexivity |].
  split; vm_compute; reflexivity.
Qed.

(* ================================================================== *)
(** ** The scanner and the unquoting of string literals

    The decoder unquotes only literals the scanner has accepted, and on
    those unquoting does not fail. *)

Lemma prepend_Some (p : string) (r : option string) :
  r <> None -> JSON.prepend p r <> None.
Proof. destruct r; [discriminate | intros H; contradiction H; reflexivity]. Qed.

Lemma drop_length (k : nat) :
  forall s, (String.length (JSON.drop k s) <= String.length s)%nat.
Proof.
  induction k as [| k IH]; intros s; cbn [JSON.drop]; [lia |].
  destruct s as [| c r]; cbn [JSON.tail String.length].
  - apply IH.
  - specialize (IH r). lia.
Qed.

Lemma drop_empty (k : nat) : JSON.drop k EmptyString = EmptyString.
Proof. induction k as [| k IH]; [reflexivity | exact IH]. Qed.

Lemma unquoteFrom_skip (k : nat) :
  forall s,
    JSON.unquoteFrom (JSON.uskip k) s = JSON.unquoteFrom JSON.UNormal (JSON.drop k s).
Proof.
  induction k as [| k IH]; intros s; [reflexivity |].
  destruct s as [| c r].
  - rewrite drop_empty. reflexivity.
  - cbn [JSON.uskip JSON.unquoteFrom pred JSON.drop JSON.tail]. apply IH.
Qed.

Lemma unquoteFrom_copy (k : nat) :
  forall s,
    JSON.unquoteFrom JSON.UNormal (JSON.drop k s) <> None ->
    JSON.unquoteFrom (JSON.ucopy k) s <> None.
Proof.
  induction k as [| k IH]; intros s H; [exact H |].
  destruct s as [| c r]; [discriminate |].
  cbn [JSON.ucopy JSON.unquoteFrom pred]. apply prepend_Some.
  apply IH. exact H.
Qed.

Lemma stringTrace_cont (m : nat) :
  forall s,
    contBytes m s = true ->
    stringTrace JSON.inString s = stringTrace JSON.inString (JSON.drop m s).
Proof.
  induction m as [| m IH]; intros s H; [reflexivity |].
  destruct s as [| c r]; [discriminate H |].
  cbn [contBytes] in H. apply andb_true_iff in H. destruct H as [Hc Hr].
  cbn [JSON.drop JSON.tail stringTrace JSON.stringByte]. rewrite <- (IH r Hr).
  apply N.leb_le in Hc.
  assert (Hq : (c =? dquote)%char = false).
  { apply Ascii.eqb_neq. intros ->. vm_compute in Hc. apply Hc. reflexivity. }
  assert (Hb : (c =? "\")%char = false).
  { apply Ascii.eqb_neq. intros ->. vm_compute in Hc. apply Hc. reflexivity. }
  assert (Hl : (code c <? 32)%N = false) by (apply N.ltb_ge; lia).
  rewrite Hq, Hb, Hl. reflexivity.
Qed.

Lemma isCont_high (lo hi : N) (s : string) :
  (128 <= lo)%N -> JSON.isCont lo hi s = true -> contBytes 1 s = true.
Proof.
  intros Hlo H. destruct s as [| c r]; [discriminate H |].
  cbn [JSON.isCont contBytes] in *. unfold between in H.
  apply andb_true_iff in H. destruct H as [H _]. apply N.leb_le in H.
  rewrite andb_true_r. apply N.leb_le. lia.
Qed.

Lemma contBytes_S (m : nat) (s : string) :
  contBytes 1 s = true -> contBytes m (JSON.tail s) = true -> contBytes (S m) s = true.
Proof.
  destruct s as [| c r]; [discriminate |].
  cbn [contBytes JSON.tail]. rewrite andb_true_r. intros -> ->. reflexivity.
Qed.

(** The bytes [utf8.DecodeRune] takes with a leading byte are
    continuation bytes. *)
Lemma runeLen_cont (c : ascii) (rest : string) (k : nat) :
  JSON.runeLen c rest = S (S k) -> contBytes (S k) rest = true.
Proof.
  unfold JSON.runeLen.
  repeat match goal with
         | |- context [if ?b then _ else _] =>
             lazymatch b with
             | between _ _ c => destruct b
             | _ => destruct b eqn:?
             end
         end;
    intros H; try discriminate H; injection H as <-;
    repeat match goal with
           | E : (_ && _)%bool = true |- _ =>
               apply andb_true_iff in E; destruct E
           end;
    repeat (apply contBytes_S;
            [eapply isCont_high; [| eassumption]; lia |]);
    reflexivity.
Qed.

Lemma isHex_hexval (c : ascii) :
  JSON.isHex c = true -> exists v, JSON.hexval c = Some v.
Proof.
  unfold JSON.isHex. destruct (JSON.hexval c) as [v |]; [| discriminate].
  intros _. exists v. reflexivity.
Qed.

Lemma getu4_inv (s : string) (r : N) :
  JSON.getu4 s = Some r ->
  exists h1 h2 h3 h4 rest,
    s = String "\" (String "u" (String h1 (String h2 (String h3 (String h4 rest)))))
    /\ JSON.isHex h1 = true /\ JSON.isHex h2 = true
    /\ JSON.isHex h3 = true /\ JSON.isHex h4 = true.
Proof.
  destruct s as [| b [| u [| h1 [| h2 [| h3 [| h4 rest]]]]]]; try discriminate.
  cbn [JSON.getu4].
  destruct (b =? "\")%char eqn:Hb; [| discriminate].
  destruct (u =? "u")%char eqn:Hu; [| discriminate].
  apply Ascii.eqb_eq in Hb, Hu. subst b u. cbn [andb].
  unfold JSON.isHex.
  destruct (JSON.hexval h1) eqn:E1; [| discriminate].
  destruct (JSON.hexval h2) eqn:E2; [| discriminate].
  destruct (JSON.hexval h3) eqn:E3; [| discriminate].
  destruct (JSON.hexval h4) eqn:E4; [| discriminate].
  intros _. exists h1, h2, h3, h4, rest. rewrite E1, E2, E3, E4. repeat split.
Qed.

Lemma stringTrace_hex4 (s : string) :
  stringTrace (JSON.inStringEscU 4) s = Some JSON.inString ->
  exists h1 h2 h3 h4 rest,
    s = String h1 (String h2 (String h3 (String h4 rest)))
    /\ JSON.isHex h1 = true /\ JSON.isHex h2 = true
    /\ JSON.isHex h3 = true /\ JSON.isHex h4 = true
    /\ stringTrace JSON.inString rest = Some JSON.inString.
Proof.
  destruct s as [| h1 s]; cbn [stringTrace JSON.stringByte]; [discriminate |].
  destruct (JSON.isHex h1) eqn:H1; [| discriminate].
  destruct s as [| h2 s]; cbn [stringTrace JSON.stringByte]; [discriminate |].
  destruct (JSON.isHex h2) eqn:H2; [| discriminate].
  destruct s as [| h3 s]; cbn [stringTrace JSON.stringByte]; [discriminate |].
  destruct (JSON.isHex h3) eqn:H3; [| discriminate].
  destruct s as [| h4 s]; cbn [stringTrace JSON.stringByte]; [discriminate |].
  destruct (JSON.isHex h4) eqn:H4; [| discriminate].
  intros Htr. exists h1, h2, h3, h4, s. repeat split; assumption.
Qed.

Lemma stringTrace_u (rest : string) :
  stringTrace JSON.inString (String "\" (String "u" rest))
  = stringTrace (JSON.inStringEscU 4) rest.
Proof. reflexivity. Qed.

Lemma stringTrace_hex (h1 h2 h3 h4 : ascii) (rest : string) :
  JSON.isHex h1 = true -> JSON.isHex h2 = true ->
  JSON.isHex h3 = true -> JSON.isHex h4 = true ->
  stringTrace (JSON.inStringEscU 4) (String h1 (String h2 (String h3 (String h4 rest))))
  = stringTrace JSON.inString rest.
Proof.
  intros H1 H2 H3 H4.
  cbn [stringTrace JSON.stringByte]. rewrite H1.
  cbn [stringTrace JSON.stringByte]. rewrite H2.
  cbn [stringTrace JSON.stringByte]. rewrite H3.
  cbn [stringTrace JSON.stringByte]. rewrite H4. reflexivity.
Qed.

Lemma unquoteFrom_u (rest1 : string) :
  JSON.unquoteFrom JSON.UNormal (String "\" (String "u" rest1))
  = match JSON.getu4 (String "\" (String "u" rest1)) with
    | None => None
    | Some rr =>
        if JSON.isSurrogate rr then
          match JSON.utf16_DecodeRune rr (JSON.getu4 (JSON.drop 4 rest1)) with
          | Some dec =>
              JSON.prepend (JSON.encodeRune dec) (JSON.unquoteFrom (JSON.uskip 10) rest1)
          | None =>
              JSON.prepend JSON.replacementChar (JSON.unquoteFrom (JSON.uskip 4) rest1)
          end
        else JSON.prepend (JSON.encodeRune rr) (JSON.unquoteFrom (JSON.uskip 4) rest1)
    end.
Proof. reflexivity. Qed.

Lemma getu4_hex (h1 h2 h3 h4 : ascii) (rest : string) (v1 v2 v3 v4 : N) :
  JSON.hexval h1 = Some v1 -> JSON.hexval h2 = Some v2 ->
  JSON.hexval h3 = Some v3 -> JSON.hexval h4 = Some v4 ->
  JSON.getu4 (String "\" (String "u" (String h1 (String h2 (String h3 (String h4 rest))))))
  = Some (((v1 * 16 + v2) * 16 + v3) * 16 + v4)%N.
Proof.
  intros E1 E2 E3 E4. unfold JSON.getu4. rewrite E1, E2, E3, E4. reflexivity.
Qed.

(** Unquoting succeeds on everything the string states accept. *)
Lemma unquote_accepted (n : nat) :
  forall s,
    (String.length s <= n)%nat ->
    stringTrace JSON.inString s = Some JSON.inString ->
    JSON.unquoteFrom JSON.UNormal s <> None.
Proof.
  induction n as [| n IH]; intros s Hlen Htr.
  - destruct s; [discriminate | cbn in Hlen; lia].
  - destruct s as [| c rest]; [discriminate |].
    cbn [String.length] in Hlen.
    cbn [stringTrace JSON.stringByte] in Htr.
    destruct (c =? dquote)%char eqn:Hq; [discriminate Htr |].
    destruct (c =? "\")%char eqn:Hb.
    + (* an escape *)
      destruct rest as [| e rest1]; [discriminate Htr |].
      cbn [String.length] in Hlen.
      cbn [stringTrace JSON.stringByte] in Htr.
      destruct (e =? "u")%char eqn:Hu.
      * apply Ascii.eqb_eq in Hb, Hu. subst c e. cbn in Htr.
        destruct (stringTrace_hex4 rest1 Htr)
          as [h1 [h2 [h3 [h4 [rest2 [-> [H1 [H2 [H3 [H4 Htr2]]]]]]]]]].
        destruct (isHex_hexval h1 H1) as [v1 E1].
        destruct (isHex_hexval h2 H2) as [v2 E2].
        destruct (isHex_hexval h3 H3) as [v3 E3].
        destruct (isHex_hexval h4 H4) as [v4 E4].
        cbn [String.length] in Hlen.
        rewrite unquoteFrom_u, (getu4_hex h1 h2 h3 h4 rest2 v1 v2 v3 v4 E1 E2 E3 E4).
        rewrite !unquoteFrom_skip. cbn [JSON.drop JSON.tail].
        assert (Hrest2 : JSON.unquoteFrom JSON.UNormal rest2 <> None)
          by (apply IH; [lia | exact Htr2]).
        destruct (JSON.isSurrogate _); [| apply prepend_Some; exact Hrest2].
        destruct (JSON.getu4 rest2) as [r2 |] eqn:Hg;
          [| cbn [JSON.utf16_DecodeRune]; apply prepend_Some; exact Hrest2].
        destruct (JSON.utf16_DecodeRune _ _); [| apply prepend_Some; exact Hrest2].
        apply prepend_Some.
        destruct (getu4_inv rest2 r2 Hg)
          as [g1 [g2 [g3 [g4 [rest3 [-> [G1 [G2 [G3 G4]]]]]]]]].
        cbn [JSON.tail String.length] in *.
        apply IH; [lia |].
        rewrite stringTrace_u, (stringTrace_hex g1 g2 g3 g4 rest3 G1 G2 G3 G4) in Htr2.
        exact Htr2.
      * destruct ((e =? "b") || (e =? "f") || (e =? "n") || (e =? "r") || (e =? "t")
                  || (e =? "\") || (e =? "/") || (e =? dquote))%char eqn:Hd;
          [| discriminate Htr].
        assert (Hrest1 : JSON.unquoteFrom JSON.UNormal rest1 <> None)
          by (apply IH; [lia | exact Htr]).
        cbn [JSON.unquoteFrom JSON.uskip pred]. rewrite Hb, Hu.
        repeat match goal with
               | |- (if ?b then _ else _) <> None =>
                   destruct b eqn:?; [apply prepend_Some; exact Hrest1 |]
               end.
        repeat match goal with
               | E : (_ || _)%bool = false |- _ =>
                   apply orb_false_iff in E; destruct E
               end.
        repeat match goal with
               | E : (e =? ?x)%char = false |- _ => rewrite E in Hd; clear E
               end.
        discriminate Hd.
    + (* a plain byte *)
      destruct (code c <? 32)%N eqn:Hl; [discriminate Htr |].
      cbn [JSON.unquoteFrom]. rewrite Hb, Hq, Hl. cbn [orb].
      assert (Hrest : JSON.unquoteFrom JSON.UNormal rest <> None)
        by (apply IH; [lia | exact Htr]).
      destruct (code c <? 128)%N; [apply prepend_Some; exact Hrest |].
      destruct (JSON.runeLen c rest) as [| [| k]] eqn:Hrl;
        try (apply prepend_Some; exact Hrest).
      apply prepend_Some.
      change (JSON.UCopy (S k)) with (JSON.ucopy (S k)).
      apply unquoteFrom_copy. apply IH.
      * pose proof (drop_length (S k) rest). lia.
      * rewrite <- (stringTrace_cont (S k) rest (runeLen_cont c rest k Hrl)). exact Htr.
Qed.

Lemma stringTrace_snoc (s : string) (c : ascii) :
  forall ss0,
    stringTrace ss0 (s ++ String c EmptyString)
    = match stringTrace ss0 s with
      | Some ss => JSON.stringByte ss c
      | None => None
      end.
Proof.
  induction s as [| x r IH]; intros ss0; cbn [String.append stringTrace].
  - destruct (JSON.stringByte ss0 c); reflexivity.
  - destruct (JSON.stringByte ss0 x); [apply IH | reflexivity].
Qed.

Lemma endValue_collected (v : JSON.json) (stack : list JSON.frame) :
  collected (JSON.endValue v stack).
Proof.
  destruct stack as [| [] r]; cbn; auto. destruct v; cbn; auto.
Qed.

Lemma stepEndValue_collected (stack : list JSON.frame) (c : ascii) :
  collected (JSON.stepEndValue stack c).
Proof.
  unfold JSON.stepEndValue.
  destruct (JSON.isSpace c); [exact I |].
  destruct stack as [| [] r]; try exact I;
    split_ifs; try exact I; apply endValue_collected.
Qed.

Lemma stepBeginValue_collected (stack : list JSON.frame) (c : ascii) :
  collected (JSON.stepBeginValue stack c).
Proof.
  unfold JSON.stepBeginValue, JSON.pushParseState.
  split_ifs; cbn [collected stringTrace]; auto.
Qed.

Lemma stepBeginString_collected (stack : list JSON.frame) (c : ascii) :
  collected (JSON.stepBeginString stack c).
Proof.
  unfold JSON.stepBeginString.
  split_ifs; cbn [collected stringTrace]; auto.
Qed.

Lemma stepString_collected (raw : string) (ss : JSON.strState)
      (stack : list JSON.frame) (c : ascii) :
  stringTrace JSON.inString raw = Some ss ->
  collected (JSON.stepString raw ss stack c).
Proof.
  intros Htr. unfold JSON.stepString.
  assert (Hcont : collected
                    match JSON.stringByte ss c with
                    | Some ss' =>
                        JSON.Scanning
                          (JSON.stateString (raw ++ String c EmptyString) ss') stack
                    | None => JSON.ScanError
                    end).
  { destruct (JSON.stringByte ss c) as [ss' |] eqn:Hb; [| exact I].
    cbn [collected]. rewrite stringTrace_snoc, Htr. exact Hb. }
  destruct ss; try exact Hcont.
  destruct (c =? dquote)%char; [| exact Hcont].
  destruct (JSON.unquote raw); [apply endValue_collected | exact I].
Qed.

Lemma stepNumber_collected (lit : string) (ns : JSON.numState)
      (stack : list JSON.frame) (c : ascii) :
  collected (JSON.stepNumber lit ns stack c).
Proof.
  assert (Hfinish : collected
                      match JSON.endValue (JSON.JNumber lit) stack with
                      | JSON.Scanning _ stack' => JSON.stepEndValue stack' c
                      | r => r
                      end).
  { destruct (JSON.endValue _ _); try exact I. apply stepEndValue_collected. }
  unfold JSON.stepNumber.
  destruct ns; split_ifs; try exact I; exact Hfinish.
Qed.

Lemma step_collected (s : JSON.scanner) (c : ascii) :
  collected s -> collected (JSON.step s c).
Proof.
  intros Hs. destruct s as [m stack | v |]; [| exact I | exact I].
  destruct m; cbn [JSON.step].
  - apply stepBeginValue_collected.
  - destruct (JSON.isSpace c); [exact I |].
    destruct (c =? "]")%char; [| apply stepBeginValue_collected].
    destruct stack as [| [] r]; try exact I. apply endValue_collected.
  - destruct (JSON.isSpace c); [exact I |].
    destruct (c =? "}")%char; [| apply stepBeginString_collected].
    destruct stack as [| [] r]; try exact I. apply endValue_collected.
  - apply stepBeginString_collected.
  - apply stepEndValue_collected.
  - apply stepString_collected. exact Hs.
  - apply stepNumber_collected.
  - destruct expect as [| e more]; [exact I |].
    destruct (c =? e)%char; [| exact I].
    destruct more; [apply endValue_collected | exact I].
Qed.

Lemma scan_collected (input : string) :
  forall s, collected s -> collected (JSON.scan s input).
Proof.
  induction input as [| c rest IH]; intros s Hs; [exact Hs |].
  apply IH, step_collected, Hs.
Qed.

(** Wherever the scanner stands at the end of a string literal, the
    literal it has collected unquotes: the scanner never takes the error
    branch of [stepString] at a closing quote. *)
Lemma closing_quote_unquotes (input raw : string) (stack : list JSON.frame) :
  JSON.scan (JSON.Scanning JSON.stateBeginValue []) input
  = JSON.Scanning (JSON.stateString raw JSON.inString) stack ->
  exists s,
    JSON.unquote raw = Some s
    /\ JSON.step (JSON.Scanning (JSON.stateString raw JSON.inString) stack) dquote
       = JSON.endValue (JSON.JString s) stack.
Proof.
  intros Hscan.
  pose proof (scan_collected input (JSON.Scanning JSON.stateBeginValue []) I) as Hc.
  rewrite Hscan in Hc. cbn [collected] in Hc.
  pose proof (unquote_accepted (String.length raw) raw (le_n _) Hc) as Hu.
  unfold JSON.unquote. cbn [JSON.step]. unfold JSON.stepString, JSON.unquote.
  destruct (JSON.unquoteFrom JSON.UNormal raw) as [s |]; [| contradiction Hu; reflexivity].
  exists s. split; reflexivity.
Qed.

(** *** Input in pieces, and the nesting limit *)

Lemma scan_app (a b : string) :
  forall s, JSON.scan s (a ++ b) = JSON.scan (JSON.scan s a) b.
Proof.
  induction a as [| c r IH]; intros s; [reflexivity |].
  cbn [String.append JSON.scan]. apply IH.
Qed.

Lemma scan_ScanEnd (v : JSON.json) (b : string) :
  JSON.scan (JSON.ScanEnd v) b = JSON.ScanEnd v.
Proof. induction b as [| c r IH]; [reflexivity | exact IH]. Qed.



Lemma nestedText_head (n : nat) : exists r, nestedText n = String "[" r.
Proof. destruct n; eexists; reflexivity. Qed.



(* ================================================================== *)
(** ** Which bodies decode *)

Lemma saveError_None (saved : option JSON.DecodeError) (e : JSON.DecodeError) :
  JSON.saveError saved e <> None.
Proof. destruct saved; discriminate. Qed.

Lemma storeInt_saved (j : JSON.json) (v : Z) (saved : option JSON.DecodeError) :
  snd (JSON.storeInt j v saved) = None <-> saved = None /\ fitsInt j = true.
Proof.
  destruct j; cbn; try type_error saveError_None.
  - tauto.
  - destruct (JSON.ParseInt lit); cbn.
    + tauto.
    + type_error saveError_None.
Qed.

Lemma storeString_saved (j : JSON.json) (v : string) (saved : option JSON.DecodeError) :
  snd (JSON.storeString j v saved) = None <-> saved = None /\ fitsString j = true.
Proof.
  destruct j; cbn; try tauto;
    type_error saveError_None.
Qed.

Lemma memberAnswer_saved (st : Answer * option JSON.DecodeError) (kv : string * JSON.json) :
  snd (JSON.memberAnswer st kv) = None <-> snd st = None /\ fitsAnswerMember kv = true.
Proof.
  destruct st as [a saved]. unfold JSON.memberAnswer, fitsAnswerMember.
  destruct (JSON.findField _ _) as [f |]; [| cbn; tauto].
  destruct (f =? "questionId")%string.
  - pose proof (storeInt_saved (snd kv) (QuestionID a) saved) as H.
    destruct (JSON.storeInt _ _ _). exact H.
  - pose proof (storeString_saved (snd kv) (Value a) saved) as H.
    destruct (JSON.storeString _ _ _). exact H.
Qed.

Lemma objectAnswer_saved (pairs : list (string * JSON.json)) :
  forall st,
    snd (fold_left JSON.memberAnswer pairs st) = None
    <-> snd st = None /\ forallb fitsAnswerMember pairs = true.
Proof.
  induction pairs as [| kv rest IH]; intros st; cbn [fold_left forallb].
  - tauto.
  - rewrite IH, memberAnswer_saved, andb_true_iff. tauto.
Qed.

Lemma valueAnswer_saved (j : JSON.json) (a : Answer) (saved : option JSON.DecodeError) :
  snd (JSON.valueAnswer j a saved) = None <-> saved = None /\ fitsAnswer j = true.
Proof.
  destruct j; cbn [JSON.valueAnswer fitsAnswer snd];
    try type_error saveError_None.
  - tauto.
  - unfold JSON.objectAnswer. rewrite objectAnswer_saved. reflexivity.
Qed.

Lemma arrayInto_saved (items : list JSON.json) :
  forall slots saved,
    snd (JSON.arrayInto items slots saved) = None
    <-> saved = None /\ forallb fitsAnswer items = true.
Proof.
  induction items as [| j rest IH]; intros slots saved; cbn [JSON.arrayInto forallb].
  - cbn. tauto.
  - destruct slots as [| slot slots'].
    + pose proof (valueAnswer_saved j zeroAnswer saved) as Hv.
      destruct (JSON.valueAnswer j zeroAnswer saved) as [a' saved'].
      specialize (IH [] saved').
      destruct (JSON.arrayInto rest [] saved') as [[filled spare] saved''].
      cbn [snd] in *. rewrite IH, Hv, andb_true_iff. tauto.
    + pose proof (valueAnswer_saved j slot saved) as Hv.
      destruct (JSON.valueAnswer j slot saved) as [a' saved'].
      specialize (IH slots' saved').
      destruct (JSON.arrayInto rest slots' saved') as [[filled spare] saved''].
      cbn [snd] in *. rewrite IH, Hv, andb_true_iff. tauto.
Qed.

Lemma valueSlice_saved (j : JSON.json) (t : JSON.target) (saved : option JSON.DecodeError) :
  snd (JSON.valueSlice j t saved) = None <-> saved = None /\ fitsSlice j = true.
Proof.
  destruct j; cbn [JSON.valueSlice fitsSlice snd];
    try type_error saveError_None.
  - tauto.
  - destruct items as [| j rest]; [cbn; tauto |].
    pose proof (arrayInto_saved (j :: rest)
                  (elements (JSON.visible t) ++ JSON.spare t) saved) as H.
    destruct (JSON.arrayInto (j :: rest) _ saved) as [[filled spare] saved'].
    exact H.
Qed.

Lemma memberAnswersRequest_saved (st : JSON.target * option JSON.DecodeError)
      (kv : string * JSON.json) :
  snd (JSON.memberAnswersRequest st kv) = None
  <-> snd st = None /\ fitsRequestMember kv = true.
Proof.
  destruct st as [t saved]. unfold JSON.memberAnswersRequest, fitsRequestMember.
  destruct (JSON.findField _ _) as [f |]; [| cbn; tauto].
  apply valueSlice_saved.
Qed.

Lemma objectAnswersRequest_saved (pairs : list (string * JSON.json)) :
  forall st,
    snd (fold_left JSON.memberAnswersRequest pairs st) = None
    <-> snd st = None /\ forallb fitsRequestMember pairs = true.
Proof.
  induction pairs as [| kv rest IH]; intros st; cbn [fold_left forallb].
  - tauto.
  - rewrite IH, memberAnswersRequest_saved, andb_true_iff. tauto.
Qed.

(** The decoder reports a type error exactly on the values that do not fit
    the request type. *)
Lemma unmarshal_saved (j : JSON.json) (req : AnswersRequest) :
  snd (JSON.unmarshal j req) = None <-> fitsRequest j = true.
Proof.
  destruct j; cbn [JSON.unmarshal fitsRequest snd];
    try (split; intros H; discriminate H).
  - tauto.
  - unfold JSON.objectAnswersRequest.
    pose proof (objectAnswersRequest_saved pairs
                  (JSON.mkTarget (Answers req) [], None)) as H.
    destruct (fold_left _ _ _) as [t saved]. cbn [snd] in *. tauto.
Qed.






(** *** The decoder on some bodies *)

Example decode_documented_shape :
  JSON.Decode (dq "{'answers':[{'questionId':1,'value':'Иван'},{'questionId':2,'value':'30'}]}")
              zeroAnswersRequest
  = (mkAnswersRequest (mk_slice [mkAnswer 1 "Иван"; mkAnswer 2 "30"]), None).
Proof. vm_compute. reflexivity. Qed.

(** Only the first value of the body is decoded. *)
Example decode_first_value_only :
  JSON.Decode (dq "{'answers':[]} not-json") zeroAnswersRequest
  = (mkAnswersRequest (mk_slice []), None).
Proof. vm_compute. reflexivity. Qed.

(** Keys select fields without regard to case. *)
Example decode_key_case :
  JSON.Decode (dq "{'ANSWERS':[{'QuestionID':7,'VALUE':'x'}]}") zeroAnswersRequest
  = (mkAnswersRequest (mk_slice [mkAnswer 7 "x"]), None).
Proof. vm_compute. reflexivity. Qed.

Example decode_null_members :
  JSON.Decode (dq "{'answers':[null,{'questionId':null,'value':'И'}]}")
              zeroAnswersRequest
  = (mkAnswersRequest (mk_slice [zeroAnswer; mkAnswer 0 "И"]), None).
Proof. vm_compute. reflexivity. Qed.

Example decode_type_mismatches :
  snd (JSON.Decode (dq "{'answers':{}}") zeroAnswersRequest)
  = Some (JSON.UnmarshalTypeError "object")
  /\ snd (JSON.Decode (dq "{'answers':[{'questionId':'1'}]}") zeroAnswersRequest)
     = Some (JSON.UnmarshalTypeError "string")
  /\ snd (JSON.Decode (dq "{'answers':[{'questionId':1.5}]}") zeroAnswersRequest)
     = Some (JSON.UnmarshalTypeError "number 1.5")
  /\ snd (JSON.Decode (dq "{'answers':[{'questionId':9223372036854775808}]}")
                      zeroAnswersRequest)
     = Some (JSON.UnmarshalTypeError "number 9223372036854775808")
  /\ snd (JSON.Decode (dq "[{'questionId':1,'value':'x'}]") zeroAnswersRequest)
     = Some (JSON.UnmarshalTypeError "array").
Proof. vm_compute. repeat split. Qed.

Example decode_malformed :
  snd (JSON.Decode "not-json" zeroAnswersRequest) = Some JSON.SyntaxError
  /\ snd (JSON.Decode "" zeroAnswersRequest) = Some JSON.EOF
  /\ snd (JSON.Decode (dq "{'answers':[") zeroAnswersRequest) = Some JSON.ErrUnexpectedEOF
  /\ snd (JSON.Decode (dq "{'answers':[],}") zeroAnswersRequest) = Some JSON.SyntaxError.
Proof. vm_compute. repeat split. Qed.

(** Escapes are translated; a surrogate half without its pair becomes
    U+FFFD. *)
Example decode_escapes :
  JSON.Decode (dq "{'answers':[{'value':'a\n\u0418\ud83d\ude00\ud83d'}]}")
              zeroAnswersRequest
  = (mkAnswersRequest
       (mk_slice [mkAnswer 0 ("a" ++ newline ++ "И" ++ JSON.encodeRune 128512 ++ JSON.replacementChar)]),
     None).
Proof. vm_compute. reflexivity. Qed.

(** C4. N goroutines call [save] concurrently, each with its own batch, on
    a store holding L batches whose mutex is free.  However far their steps
    have been interleaved, the calls can all be run on to their return; and
    under every interleaving in which all of them have returned, the store
    holds the L initial batches followed by the N submitted batches, each
    whole, in some order: L+N elements, and when the submitted batches are
    pairwise distinct each occurs exactly once among the added ones. *)
Theorem C4_concurrent_saves_lose_nothing
        (s : answerStore) (batches : list AnswersRequest) :
  mu s = Sync.Unlocked ->
  (forall schedule c,
      run schedule (spawn s batches) = Done c ->
      exists schedule' c',
        run schedule' c = Done c' /\ allReturned c' = true)
  /\ forall schedule c,
      run schedule (spawn s batches) = Done c ->
      allReturned c = true ->
      exists added,
        elements (answers (shared c)) = elements (answers s) ++ added
        /\ Permutation added batches
        /\ len (answers (shared c)) = (len (answers s) + List.length batches)%nat
        /\ (NoDup batches ->
            forall b, In b batches -> count_occ AnswersRequest_eq_dec added b = 1%nat)
        /\ mu (shared c) = Sync.Unlocked.
Proof.
  intros Hfree. split.
  - intros schedule c Hrun.
    apply (run_completes (elements (answers s)) batches
                         (totalStepsLeft (goroutines c)) c); [| reflexivity].
    exact (run_invariant (elements (answers s)) batches schedule
                         (spawn s batches) c (spawn_invariant s batches Hfree) Hrun).
  - intros schedule c Hrun Hall.
    pose proof (run_invariant (elements (answers s)) batches schedule
                  (spawn s batches) c (spawn_invariant s batches Hfree) Hrun)
      as [Hreqs [Hmutex [_ [added [Hstore Hperm]]]]].
    unfold allReturned in Hall.
    rewrite (allReturned_written _ Hall), Hreqs in Hperm.
    exists added. split; [exact Hstore |]. split; [exact Hperm |].
    split; [| split].
    + unfold len. rewrite Hstore, length_app, (Permutation_length Hperm). reflexivity.
    + intros Hnodup b Hin.
      rewrite (Permutation_count_occ AnswersRequest_eq_dec) in Hperm.
      rewrite Hperm.
      apply (proj1 (NoDup_count_occ' AnswersRequest_eq_dec batches) Hnodup b Hin).
    + assert (Hnone : List.length (filter inCritical (goroutines c)) = 0%nat).
      { clear - Hall. induction (goroutines c) as [| g r IH]; [reflexivity |].
        cbn [forallb] in Hall. apply andb_true_iff in Hall. destruct Hall as [Hg Hr].
        assert (Hc : inCritical g = false).
        { unfold isReturned in Hg. unfold inCritical.
          destruct (fst g); try discriminate Hg. reflexivity. }
        cbn [filter]. rewrite Hc. exact (IH Hr). }
      rewrite Hnone in Hmutex. destruct (mu (shared c)); [reflexivity | discriminate Hmutex].
Qed.

Lemma C4_witness :
  let b1 := mkAnswersRequest (mk_slice [mkAnswer 1 "Иван"]) in
  let b2 := mkAnswersRequest (mk_slice [mkAnswer 2 "30"]) in
  let b3 := mkAnswersRequest (mk_slice [mkAnswer 3 "Go"]) in
  let schedule := [1; 1; 1; 1; 2; 2; 2; 2; 0; 0; 0; 0]%nat in
  mu (store main) = Sync.Unlocked
  /\ NoDup [b1; b2; b3]
  /\ exists c,
      run schedule (spawn (store main) [b1; b2; b3]) = Done c
      /\ allReturned c = true
      /\ exists added,
          elements (answers (shared c)) = elements (answers (store main)) ++ added
          /\ Permutation added [b1; b2; b3]
          /\ len (answers (shared c)) = 3%nat.
Proof.
  intros b1 b2 b3 schedule.
  assert (Hnodup : NoDup [b1; b2; b3]).
  { repeat constructor; cbn; intuition discriminate. }
  split; [reflexivity | split; [exact Hnodup |]].
  destruct (run schedule (spawn (store main) [b1; b2; b3])) as [c | |] eqn:Hrun;
    try (vm_compute in Hrun; discriminate Hrun).
  assert (Hall : allReturned c = true).
  { vm_compute in Hrun. injection Hrun as <-. reflexivity. }
  exists c. split; [reflexivity | split; [exact Hall |]].
  destruct (proj2 (C4_concurrent_saves_lose_nothing (store main) [b1; b2; b3] eq_refl)
                  schedule c Hrun Hall)
    as [added [Hstore [Hperm [Hlen _]]]].
  exists added. split; [exact Hstore | split; [exact Hperm | exact Hlen]].
Defined.

(** The scenario of a first visit: the catalog is listed, one submission
    with an answer and one without are acknowledged, and the store holds
    the two batches in that order. *)
Example end_to_end :
  exists sv catalog,
    serveAll [(GET_questions, None);
              (POST_answers (dq "{'answers':[{'questionId':1,'value':'Иван'}]}"), None);
              (POST_answers (dq "{'answers':[]}"), None)] main
    = Done (sv, [catalog; okResponse; okResponse])
    /\ history sv = [mkAnswersRequest (mk_slice [mkAnswer 1 "Иван"]);
                     mkAnswersRequest (mk_slice [])].
Proof. do 2 eexists. vm_compute. split; reflexivity. Qed.

(* ================================================================== *)
(** ** The effect of requests on store, log and response *)

(** One request: the store gains what the request submits, the log what
    it logs, the mutex is free again, and the response has the status and
    content type of its kind. *)
Lemma serve_effect (r : request) (conn : option string) (sv : server) :
  mu (store sv) = Sync.Unlocked ->
  exists sv' w,
    serve r conn sv = Done (sv', w)
    /\ history sv' = history sv ++ submitted r
    /\ logs sv' = logs sv ++ logged r conn
    /\ mu (store sv') = Sync.Unlocked
    /\ HTTP.wroteHeader w = true
    /\ HTTP.status w = (if rejected r then HTTP.StatusBadRequest else HTTP.StatusOK)
    /\ HTTP.Get (HTTP.sentHeader w) "Content-Type"
       = Some (if rejected r then "text/plain; charset=utf-8" else "application/json").
Proof.
  intros Hfree. destruct r as [| reqBody].
  - rewrite serve_get. do 2 eexists. split; [reflexivity |].
    unfold history, submitted, logged, rejected. cbn [store logs].
    rewrite app_nil_r. split; [reflexivity |].
    unfold handleQuestions, writeJSON, HTTP.Encode, HTTP.Write.
    destruct conn as [e |]; cbn; rewrite ?app_nil_r; auto 10.
  - unfold submitted, logged, rejected.
    destruct (JSON.Decode reqBody zeroAnswersRequest) as [req [e |]] eqn:Hdec;
      cbn [fst snd isSome].
    + rewrite (serve_undecodable sv reqBody req e conn Hdec), Error_status.
      do 2 eexists. split; [reflexivity |].
      destruct conn; cbn; rewrite ?app_nil_r; auto 10.
    + rewrite (serve_decoded sv reqBody req conn Hdec Hfree).
      destruct conn as [e |].
      * rewrite writeJSON_broken. do 2 eexists. split; [reflexivity |].
        cbn. auto 10.
      * rewrite writeJSON_ok. do 2 eexists. split; [reflexivity |].
        cbn. rewrite app_nil_r. auto 10.
Qed.

Lemma serveAll_effect (rs : list (request * option string)) :
  forall sv : server,
    mu (store sv) = Sync.Unlocked ->
    exists sv' ws,
      serveAll rs sv = Done (sv', ws)
      /\ history sv' = history sv ++ flat_map (fun rc => submitted (fst rc)) rs
      /\ logs sv' = logs sv ++ flat_map (fun rc => logged (fst rc) (snd rc)) rs
      /\ mu (store sv') = Sync.Unlocked
      /\ List.length ws = List.length rs.
Proof.
  induction rs as [| [r conn] rest IH]; intros sv Hfree.
  - exists sv, []. cbn. rewrite !app_nil_r. auto.
  - destruct (serve_effect r conn sv Hfree) as [sv1 [w [Hs [Hh [Hl [Hf _]]]]]].
    destruct (IH sv1 Hf) as [sv2 [ws [Hs2 [Hh2 [Hl2 [Hf2 Hn]]]]]].
    exists sv2, (w :: ws). cbn [serveAll]. rewrite Hs. cbn [bind fst snd].
    rewrite Hs2. cbn [bind fst snd flat_map List.length].
    rewrite Hh2, Hh, Hl2, Hl, <- !app_assoc, Hn. auto.
Qed.

(** X1. The store is the record of the submissions that decoded: after
    any sequence of requests, served from a state with the mutex free, the
    stored sequence is the earlier one followed by the decoded batch of
    each POST whose body decodes, in the order of the requests; listings
    and rejected submissions leave no trace in it, and every request gets
    its response. *)
Theorem X1_store_records_decoded_submissions
        (rs : list (request * option string)) (sv : server) :
  mu (store sv) = Sync.Unlocked ->
  exists sv' ws,
    serveAll rs sv = Done (sv', ws)
    /\ history sv' = history sv ++ flat_map (fun rc => submitted (fst rc)) rs
    /\ List.length (history sv')
       = (List.length (history sv)
          + List.length (filter (fun rc => accepted (fst rc)) rs))%nat
    /\ List.length ws = List.length rs.
Proof.
  intros Hfree.
  destruct (serveAll_effect rs sv Hfree) as [sv' [ws [Hs [Hh [_ [_ Hn]]]]]].
  exists sv', ws. split; [exact Hs |]. split; [exact Hh |]. split; [| exact Hn].
  rewrite Hh, length_app. f_equal.
  clear. induction rs as [| [r conn] rest IH]; [reflexivity |].
  cbn [flat_map filter fst]. rewrite length_app, IH.
  destruct r as [| reqBody]; cbn [submitted accepted]; [reflexivity |].
  destruct (rejected _); reflexivity.
Qed.

Lemma X1_witness :
  let rs : list (request * option string) :=
      [(POST_answers "not-json", None);
       (GET_questions, None);
       (POST_answers (dq "{'answers':[{'questionId':3,'value':'Go'}]}"), Some "broken pipe")] in
  mu (store main) = Sync.Unlocked
  /\ exists sv' ws,
      serveAll rs main = Done (sv', ws)
      /\ history sv' = [mkAnswersRequest (mk_slice [mkAnswer 3 "Go"])].
Proof.
  intros rs. split; [reflexivity |].
  destruct (X1_store_records_decoded_submissions rs main eq_refl)
    as [sv' [ws [Hs [Hh _]]]].
  exists sv', ws. split; [exact Hs |]. rewrite Hh. vm_compute. reflexivity.
Defined.

Lemma serve_response (r : request) (conn : option string) (sv1 sv2 : server) :
  mu (store sv1) = Sync.Unlocked ->
  mu (store sv2) = Sync.Unlocked ->
  exists sv1' sv2' w,
    serve r conn sv1 = Done (sv1', w)
    /\ serve r conn sv2 = Done (sv2', w)
    /\ mu (store sv1') = Sync.Unlocked
    /\ mu (store sv2') = Sync.Unlocked.
Proof.
  intros H1 H2. destruct r as [| reqBody].
  - rewrite !serve_get. do 3 eexists. split; [reflexivity |]. split.
    + f_equal. f_equal. apply writeJSON_response.
    + split; assumption.
  - destruct (JSON.Decode reqBody zeroAnswersRequest) as [req [e |]] eqn:Hdec.
    + rewrite !(serve_undecodable _ reqBody req e conn Hdec).
      do 3 eexists. repeat split; assumption.
    + rewrite (serve_decoded sv1 reqBody req conn Hdec H1).
      rewrite (serve_decoded sv2 reqBody req conn Hdec H2).
      pose proof (writeJSON_response (HTTP.newResponseWriter conn) HTTP.StatusOK
                    (JSON.StringMap [("status", "ok")]) (logs sv1) (logs sv2)) as Hw.
      destruct (writeJSON _ _ _ (logs sv1)) as [w1 lg1].
      destruct (writeJSON _ _ _ (logs sv2)) as [w2 lg2].
      cbn [fst] in Hw. subst w2.
      do 3 eexists. repeat split.
Qed.

(** X2. No response depends on what the server holds: served from any
    two states (with the mutex free), the same requests on the same
    connections receive the same responses, one by one.  Nothing that was
    stored or logged is ever read back into a response. *)
Theorem X2_responses_do_not_depend_on_state
        (rs : list (request * option string)) :
  forall sv1 sv2 : server,
    mu (store sv1) = Sync.Unlocked ->
    mu (store sv2) = Sync.Unlocked ->
    exists sv1' sv2' ws,
      serveAll rs sv1 = Done (sv1', ws) /\ serveAll rs sv2 = Done (sv2', ws).
Proof.
  induction rs as [| [r conn] rest IH]; intros sv1 sv2 H1 H2.
  - exists sv1, sv2, []. split; reflexivity.
  - destruct (serve_response r conn sv1 sv2 H1 H2)
      as [sv1' [sv2' [w [Hs1 [Hs2 [Hf1 Hf2]]]]]].
    destruct (IH sv1' sv2' Hf1 Hf2) as [sv1'' [sv2'' [ws [Hr1 Hr2]]]].
    exists sv1'', sv2'', (w :: ws). cbn [serveAll].
    rewrite Hs1, Hs2. cbn [bind fst snd]. rewrite Hr1, Hr2. split; reflexivity.
Qed.

Lemma X2_witness :
  let rs : list (request * option string) :=
      [(GET_questions, None); (POST_answers "{}", None); (POST_answers "[", None)] in
  let later := appended main (mkAnswersRequest (mk_slice [mkAnswer 1 "Иван"])) in
  mu (store main) = Sync.Unlocked
  /\ mu (store later) = Sync.Unlocked
  /\ exists sv1' sv2' ws,
      serveAll rs main = Done (sv1', ws) /\ serveAll rs later = Done (sv2', ws).
Proof.
  intros rs later. split; [reflexivity | split; [reflexivity |]].
  exact (X2_responses_do_not_depend_on_state rs main later eq_refl eq_refl).
Defined.

(** X3. Every request is answered, and in one of two ways only: an
    undecodable submission with status 400 and a text/plain content type,
    the server left exactly as it was; every other request (a listing, a
    decodable submission) with status 200 and the content type
    application/json.  This holds on a broken connection as well: the
    header is written before the body is attempted. *)
Theorem X3_status_is_200_or_400 (r : request) (conn : option string) (sv : server) :
  mu (store sv) = Sync.Unlocked ->
  exists sv' w,
    serve r conn sv = Done (sv', w)
    /\ HTTP.wroteHeader w = true
    /\ (rejected r = true ->
        sv' = sv
        /\ HTTP.status w = 400
        /\ HTTP.Get (HTTP.sentHeader w) "Content-Type" = Some "text/plain; charset=utf-8")
    /\ (rejected r = false ->
        HTTP.status w = 200
        /\ HTTP.Get (HTTP.sentHeader w) "Content-Type" = Some "application/json").
Proof.
  intros Hfree.
  destruct (serve_effect r conn sv Hfree) as [sv' [w [Hs [_ [_ [_ [Hw [Hst Hct]]]]]]]].
  exists sv', w. split; [exact Hs |]. split; [exact Hw |].
  destruct (rejected r) eqn:Hrej; split; intros H; try discriminate H.
  - split; [| split; [exact Hst | exact Hct]].
    destruct r as [| reqBody]; [discriminate Hrej |].
    unfold rejected in Hrej.
    destruct (JSON.Decode reqBody zeroAnswersRequest) as [req [e |]] eqn:Hdec;
      [| discriminate Hrej].
    rewrite (serve_undecodable sv reqBody req e conn Hdec) in Hs.
    injection Hs as <- _. reflexivity.
  - split; [exact Hst | exact Hct].
Qed.

Lemma X3_witness :
  mu (store main) = Sync.Unlocked
  /\ rejected (POST_answers (dq "{'answers':7}")) = true
  /\ exists w,
      serve (POST_answers (dq "{'answers':7}")) (Some "broken pipe") main = Done (main, w)
      /\ HTTP.status w = 400.
Proof.
  split; [reflexivity |].
  assert (Hrej : rejected (POST_answers (dq "{'answers':7}")) = true)
    by (vm_compute; reflexivity).
  split; [exact Hrej |].
  destruct (X3_status_is_200_or_400 (POST_answers (dq "{'answers':7}"))
              (Some "broken pipe") main eq_refl)
    as [sv' [w [Hs [_ [Hbad _]]]]].
  destruct (Hbad Hrej) as [-> [Hst _]].
  exists w. split; [exact Hs | exact Hst].
Defined.

(** X4. The log records failed writes of JSON responses and nothing else:
    after any sequence of requests it is the earlier log followed by one
    line "write json error: e" for each listing or decodable submission
    served on a connection whose writes fail with [e], in request order.  A
    rejected submission never logs, not even on a broken connection, and
    with every connection working the log does not change. *)
Theorem X4_log_records_failed_json_writes
        (rs : list (request * option string)) (sv : server) :
  mu (store sv) = Sync.Unlocked ->
  exists sv' ws,
    serveAll rs sv = Done (sv', ws)
    /\ logs sv' = logs sv ++ flat_map (fun rc => logged (fst rc) (snd rc)) rs
    /\ (Forall (fun rc => snd rc = None \/ rejected (fst rc) = true) rs ->
        logs sv' = logs sv).
Proof.
  intros Hfree.
  destruct (serveAll_effect rs sv Hfree) as [sv' [ws [Hs [_ [Hl _]]]]].
  exists sv', ws. split; [exact Hs |]. split; [exact Hl |].
  intros Hall. rewrite Hl.
  replace (flat_map (fun rc => logged (fst rc) (snd rc)) rs) with (@nil string);
    [apply app_nil_r |].
  clear - Hall. induction Hall as [| [r conn] rest Hrc _ IH]; [reflexivity |].
  cbn [flat_map fst snd] in *. rewrite <- IH, app_nil_r.
  unfold logged. destruct Hrc as [-> | ->]; [reflexivity |].
  destruct conn; reflexivity.
Qed.

Lemma X4_witness :
  let rs : list (request * option string) :=
      [(GET_questions, Some "broken pipe"); (POST_answers "not-json", Some "reset")] in
  mu (store main) = Sync.Unlocked
  /\ exists sv' ws,
      serveAll rs main = Done (sv', ws)
      /\ logs sv' = logs main ++ ["write json error: broken pipe"].
Proof.
  intros rs. split; [reflexivity |].
  destruct (X4_log_records_failed_json_writes rs main eq_refl)
    as [sv' [ws [Hs [Hl _]]]].
  exists sv', ws. split; [exact Hs |]. rewrite Hl. vm_compute. reflexivity.
Defined.

(* ================================================================== *)
(** ** More on concurrent calls of [save] *)

Lemma filter_two {A} (p : A -> bool) (l : list A) :
  forall i j gi gj,
    nth_error l i = Some gi -> nth_error l j = Some gj ->
    p gi = true -> p gj = true -> i <> j ->
    (2 <= List.length (filter p l))%nat.
Proof.
  assert (Hone : forall (l : list A) i g,
             nth_error l i = Some g -> p g = true ->
             (1 <= List.length (filter p l))%nat).
  { intros l0. induction l0 as [| y r IH]; intros i g Hi Hp.
    - destruct i; discriminate Hi.
    - cbn [filter]. destruct i as [| i]; cbn in Hi.
      + injection Hi as ->. rewrite Hp. cbn. lia.
      + specialize (IH i g Hi Hp). destruct (p y); cbn; lia. }
  induction l as [| y r IH]; intros i j gi gj Hi Hj Hpi Hpj Hne.
  - destruct i; discriminate Hi.
  - cbn [filter]. destruct i as [| i], j as [| j]; cbn in Hi, Hj.
    + contradiction Hne; reflexivity.
    + injection Hi as ->. rewrite Hpi. cbn.
      pose proof (Hone r j gj Hj Hpj). lia.
    + injection Hj as ->. rewrite Hpj. cbn.
      pose proof (Hone r i gi Hi Hpi). lia.
    + assert (i <> j) by (intros ->; apply Hne; reflexivity).
      specialize (IH i j gi gj Hi Hj Hpi Hpj H). destruct (p y); cbn; lia.
Qed.

(** X5. Mutual exclusion: at every moment of every interleaving of
    concurrent calls of [save], at most one goroutine is between its
    [Lock] and its [Unlock], and the mutex is locked exactly when one
    is. *)
Theorem X5_mutual_exclusion
        (s : answerStore) (batches : list AnswersRequest) (schedule : list nat)
        (c : config) :
  mu s = Sync.Unlocked ->
  run schedule (spawn s batches) = Done c ->
  (forall i j gi gj,
      nth_error (goroutines c) i = Some gi ->
      nth_error (goroutines c) j = Some gj ->
      inCritical gi = true -> inCritical gj = true -> i = j)
  /\ (mu (shared c) = Sync.Locked <-> exists g, In g (goroutines c) /\ inCritical g = true).
Proof.
  intros Hfree Hrun.
  pose proof (run_invariant (elements (answers s)) batches schedule
                (spawn s batches) c (spawn_invariant s batches Hfree) Hrun)
    as [_ [Hmutex _]].
  split.
  - intros i j gi gj Hi Hj Hpi Hpj.
    destruct (Nat.eq_dec i j) as [Heq | Hne]; [exact Heq | exfalso].
    pose proof (filter_two inCritical (goroutines c) i j gi gj Hi Hj Hpi Hpj Hne).
    destruct (mu (shared c)); lia.
  - split.
    + intros Hlocked. rewrite Hlocked in Hmutex.
      destruct (filter inCritical (goroutines c)) as [| g r] eqn:Hf; [discriminate Hmutex |].
      exists g. apply filter_In. rewrite Hf. left. reflexivity.
    + intros [g [Hin Hg]].
      destruct (mu (shared c)); [exfalso | reflexivity].
      assert (Hg' : In g (filter inCritical (goroutines c)))
        by (apply filter_In; split; assumption).
      destruct (filter inCritical (goroutines c)); [contradiction Hg' | discriminate Hmutex].
Qed.

Lemma X5_witness :
  let b1 := mkAnswersRequest (mk_slice [mkAnswer 1 "Иван"]) in
  let b2 := mkAnswersRequest (mk_slice [mkAnswer 2 "30"]) in
  mu (store main) = Sync.Unlocked
  /\ exists c,
      run [1; 1; 1]%nat (spawn (store main) [b1; b2]) = Done c
      /\ mu (shared c) = Sync.Locked
      /\ forall i gi,
          nth_error (goroutines c) i = Some gi -> inCritical gi = true -> i = 1%nat.
Proof.
  intros b1 b2. split; [reflexivity |].
  destruct (run [1; 1; 1]%nat (spawn (store main) [b1; b2])) as [c | |] eqn:Hrun;
    try (vm_compute in Hrun; discriminate Hrun).
  exists c. split; [reflexivity |].
  destruct (X5_mutual_exclusion (store main) [b1; b2] [1; 1; 1]%nat c eq_refl Hrun)
    as [Hexcl Hlock].
  vm_compute in Hrun. injection Hrun as <-.
  split; [reflexivity |].
  intros i gi Hi Hci.
  exact (Hexcl i 1%nat gi (atUnlock, b2) Hi eq_refl Hci eq_refl).
Defined.

Lemma stepAt_not_Fatal (init batches : list AnswersRequest) (i : nat) (c : config) :
  invariant init batches c -> stepAt i c <> Fatal.
Proof.
  intros [_ [Hmutex _]]. unfold stepAt.
  destruct (nth_error (goroutines c) i) as [[pc req] |] eqn:Hnth; [| discriminate].
  destruct pc; cbn [saveStep bind]; try discriminate.
  - destruct (mu (shared c)); discriminate.
  - destruct (mu (shared c)) eqn:Hmu; [| discriminate]. exfalso.
    destruct (nth_error_replaceAt (goroutines c) i (atUnlock, req) (atUnlock, req) Hnth)
      as [l1 [l2 [Hsplit _]]].
    rewrite Hsplit, critical_middle in Hmutex. cbn in Hmutex. lia.
Qed.

(** X6. Under no interleaving does a call of [save] end in the fatal
    error of unlocking an unlocked mutex; and the goroutine that holds the
    lock is never held up: whenever a goroutine is inside the critical
    section, it can take its next step. *)
Theorem X6_never_fatal_holder_never_blocked
        (s : answerStore) (batches : list AnswersRequest) :
  mu s = Sync.Unlocked ->
  (forall schedule, run schedule (spawn s batches) <> Fatal)
  /\ forall schedule c i g,
      run schedule (spawn s batches) = Done c ->
      nth_error (goroutines c) i = Some g ->
      inCritical g = true ->
      exists c', stepAt i c = Done c'.
Proof.
  intros Hfree.
  pose proof (spawn_invariant s batches Hfree) as Hinit.
  split.
  - intros schedule. revert Hinit. generalize (spawn s batches).
    induction schedule as [| i rest IH]; intros c Hinv; cbn [run]; [discriminate |].
    destruct (stepAt i c) as [c1 | |] eqn:Hstep; cbn [bind].
    + apply IH. exact (stepAt_invariant (elements (answers s)) batches i c c1 Hinv Hstep).
    + discriminate.
    + exfalso. exact (stepAt_not_Fatal _ _ i c Hinv Hstep).
  - intros schedule c i [pc req] Hrun Hnth Hcrit.
    pose proof (run_invariant (elements (answers s)) batches schedule
                  (spawn s batches) c Hinit Hrun) as Hinv.
    pose proof (stepAt_not_Fatal _ _ i c Hinv) as Hnf.
    unfold stepAt in *. rewrite Hnth in *.
    unfold inCritical in Hcrit. cbn [fst] in Hcrit.
    destruct pc; try discriminate Hcrit; cbn [saveStep bind] in *;
      try (eexists; reflexivity).
    destruct (mu (shared c)); cbn [Sync.Unlock bind] in *;
      [contradiction Hnf; reflexivity | eexists; reflexivity].
Qed.

Lemma X6_witness :
  let b1 := mkAnswersRequest (mk_slice [mkAnswer 1 "Иван"]) in
  mu (store main) = Sync.Unlocked
  /\ run [0; 0; 0; 0; 0]%nat (spawn (store main) [b1]) = Blocked.
Proof.
  intros b1. split; [reflexivity |].
  destruct (run [0; 0; 0; 0; 0]%nat (spawn (store main) [b1])) as [c | |] eqn:Hrun.
  - vm_compute in Hrun. discriminate Hrun.
  - reflexivity.
  - contradiction (proj1 (X6_never_fatal_holder_never_blocked (store main) [b1] eq_refl)
                         [0; 0; 0; 0; 0]%nat Hrun).
Defined.

Lemma pending_middle (l1 l2 : list (savePC * AnswersRequest)) (g : savePC * AnswersRequest) :
  pending (l1 ++ g :: l2)
  = pending l1 ++ (if isPending g then [snd g] else []) ++ pending l2.
Proof.
  unfold pending. rewrite filter_app, map_app. cbn [filter].
  destruct (isPending g); reflexivity.
Qed.

Lemma no_critical_pending (l : list (savePC * AnswersRequest)) :
  List.length (filter inCritical l) = 0%nat -> pending l = [].
Proof.
  unfold pending. induction l as [| g r IH]; intros H; [reflexivity |].
  cbn [filter] in *.
  assert (Hg : inCritical g = false) by (destruct (inCritical g); [discriminate H | reflexivity]).
  rewrite Hg in H.
  assert (Hp : isPending g = false).
  { unfold inCritical in Hg. unfold isPending. destruct (fst g); try discriminate Hg; reflexivity. }
  rewrite Hp. exact (IH H).
Qed.

(** What a step does to the stored sequence and the batch on its way
    into it. *)
Lemma stepAt_account (init batches : list AnswersRequest) (i : nat) (c c' : config) :
  invariant init batches c ->
  stepAt i c = Done c' ->
  elements (answers (shared c')) ++ pending (goroutines c')
  = elements (answers (shared c)) ++ pending (goroutines c) ++ acquiring i c.
Proof.
  intros [_ [Hmutex [Hfresh _]]] Hstep.
  unfold stepAt in Hstep. unfold acquiring.
  destruct (nth_error (goroutines c) i) as [[pc req] |] eqn:Hnth; [| discriminate Hstep].
  destruct c as [s gs]. cbn [goroutines shared] in *.
  destruct (nth_error_replaceAt gs i (pc, req) (fst (match saveStep req pc s with
                                                     | Done r => r
                                                     | _ => (pc, s)
                                                     end), req) Hnth)
    as [l1 [l2 [Hgs Hrep]]].
  rewrite Hgs in Hmutex, Hfresh. rewrite critical_middle in Hmutex.
  destruct pc as [| | old | |]; cbn [saveStep bind fst snd] in Hstep, Hrep.
  - destruct (mu s) eqn:Hmu; cbn in Hstep, Hrep; [| discriminate Hstep].
    injection Hstep as <-. cbn [goroutines shared answers].
    rewrite Hrep, Hgs, !pending_middle. cbn in Hmutex |- *.
    rewrite (no_critical_pending l1), (no_critical_pending l2) by lia.
    reflexivity.
  - injection Hstep as <-. cbn [goroutines shared answers].
    rewrite Hrep, Hgs, !pending_middle. cbn. rewrite app_nil_r. reflexivity.
  - injection Hstep as <-. cbn [goroutines shared answers].
    assert (Hold : old = answers s).
    { apply Forall_app in Hfresh. destruct Hfresh as [_ H2].
      inversion H2; subst. auto. }
    subst old.
    rewrite Hrep, Hgs, !pending_middle. cbn in Hmutex |- *.
    rewrite (no_critical_pending l1), (no_critical_pending l2)
      by (destruct (mu s); lia).
    rewrite app_nil_r. reflexivity.
  - destruct (mu s) eqn:Hmu; cbn in Hstep, Hrep; [discriminate Hstep |].
    injection Hstep as <-. cbn [goroutines shared answers].
    rewrite Hrep, Hgs, !pending_middle. cbn. rewrite app_nil_r. reflexivity.
  - discriminate Hstep.
Qed.

Lemma run_account (init batches : list AnswersRequest) (schedule : list nat) :
  forall c c',
    invariant init batches c ->
    run schedule c = Done c' ->
    elements (answers (shared c')) ++ pending (goroutines c')
    = elements (answers (shared c)) ++ pending (goroutines c) ++ acquisitions schedule c.
Proof.
  induction schedule as [| i rest IH]; intros c c' Hinv Hrun;
    cbn [run acquisitions] in *.
  - injection Hrun as <-. rewrite app_nil_r. reflexivity.
  - destruct (stepAt i c) as [c1 | |] eqn:Hstep; cbn [bind] in Hrun;
      try discriminate Hrun.
    rewrite (IH c1 c' (stepAt_invariant init batches i c c1 Hinv Hstep) Hrun).
    rewrite !app_assoc. f_equal. rewrite <- app_assoc.
    exact (stepAt_account init batches i c c1 Hinv Hstep).
Qed.

(** X7. Concurrent calls are stored in the order in which they acquired
    the mutex: under every interleaving in which all calls have returned,
    the store holds its initial sequence followed by the batches in the
    order of their goroutines' [Lock] steps in the schedule, whatever the
    order of the calls themselves. *)
Theorem X7_stored_in_lock_order
        (s : answerStore) (batches : list AnswersRequest) (schedule : list nat)
        (c : config) :
  mu s = Sync.Unlocked ->
  run schedule (spawn s batches) = Done c ->
  allReturned c = true ->
  elements (answers (shared c))
  = elements (answers s) ++ acquisitions schedule (spawn s batches).
Proof.
  intros Hfree Hrun Hall.
  pose proof (spawn_invariant s batches Hfree) as Hinit.
  pose proof (run_account (elements (answers s)) batches schedule
                (spawn s batches) c Hinit Hrun) as Hacc.
  assert (Hnone : forall gs, forallb isReturned gs = true -> pending gs = []).
  { unfold pending. induction gs as [| g r IH]; intros H; [reflexivity |].
    cbn [forallb] in H. apply andb_true_iff in H. destruct H as [Hg Hr].
    cbn [filter].
    assert (Hp : isPending g = false).
    { unfold isReturned in Hg. unfold isPending.
      destruct (fst g); try discriminate Hg; reflexivity. }
    rewrite Hp. exact (IH Hr). }
  assert (Hstart : pending (goroutines (spawn s batches)) = []).
  { unfold spawn, pending. cbn [goroutines]. clear.
    induction batches as [| b r IH]; [reflexivity | exact IH]. }
  rewrite (Hnone _ Hall), Hstart, app_nil_r in Hacc. exact Hacc.
Qed.

Lemma X7_witness :
  let b1 := mkAnswersRequest (mk_slice [mkAnswer 1 "Иван"]) in
  let b2 := mkAnswersRequest (mk_slice [mkAnswer 2 "30"]) in
  let b3 := mkAnswersRequest (mk_slice [mkAnswer 3 "Go"]) in
  let schedule := [2; 2; 2; 2; 0; 0; 0; 0; 1; 1; 1; 1]%nat in
  mu (store main) = Sync.Unlocked
  /\ exists c,
      run schedule (spawn (store main) [b1; b2; b3]) = Done c
      /\ allReturned c = true
      /\ elements (answers (shared c)) = [b3; b1; b2].
Proof.
  intros b1 b2 b3 schedule. split; [reflexivity |].
  destruct (run schedule (spawn (store main) [b1; b2; b3])) as [c | |] eqn:Hrun;
    try (vm_compute in Hrun; discriminate Hrun).
  assert (Hall : allReturned c = true).
  { vm_compute in Hrun. injection Hrun as <-. reflexivity. }
  exists c. split; [reflexivity | split; [exact Hall |]].
  rewrite (X7_stored_in_lock_order (store main) [b1; b2; b3] schedule c eq_refl Hrun Hall).
  vm_compute. reflexivity.
Defined.

(** X8. A call that is not interleaved with others is the sequential
    [save]: from a state with the mutex free, the four steps of one
    goroutine in a row change the store exactly as [save] does, bring that
    goroutine to its return and leave every other goroutine where it
    was. *)
Theorem X8_uninterrupted_call_is_save
        (s : answerStore) (l1 l2 : list (savePC * AnswersRequest)) (req : AnswersRequest) :
  mu s = Sync.Unlocked ->
  let i := List.length l1 in
  exists s',
    save s req = Done s'
    /\ run [i; i; i; i] (mkConfig s (l1 ++ (atLock, req) :: l2))
       = Done (mkConfig s' (l1 ++ (returned, req) :: l2)).
Proof.
  intros Hfree i. subst i.
  rewrite (run_one_call s l1 l2 req Hfree), (save_returns s req Hfree).
  eexists. split; reflexivity.
Qed.

Lemma X8_witness :
  let b1 := mkAnswersRequest (mk_slice [mkAnswer 1 "Иван"]) in
  let b2 := mkAnswersRequest (mk_slice []) in
  mu (store main) = Sync.Unlocked
  /\ exists s',
      save (store main) b2 = Done s'
      /\ run [1; 1; 1; 1]%nat (mkConfig (store main) [(atLock, b1); (atLock, b2)])
         = Done (mkConfig s' [(atLock, b1); (returned, b2)]).
Proof.
  intros b1 b2. split; [reflexivity |].
  exact (X8_uninterrupted_call_is_save (store main) [(atLock, b1)] [] b2 eq_refl).
Defined.

(* ================================================================== *)
(** ** What of a body reaches the store *)

Lemma memberAnswer_unselected (st : Answer * option JSON.DecodeError)
      (kv : string * JSON.json) :
  JSON.findField ["questionId"; "value"] (fst kv) = None ->
  JSON.memberAnswer st kv = st.
Proof.
  intros H. destruct st as [a saved]. unfold JSON.memberAnswer. rewrite H. reflexivity.
Qed.

Lemma objectAnswer_selecting (pairs : list (string * JSON.json)) :
  forall st,
    fold_left JSON.memberAnswer (selecting ["questionId"; "value"] pairs) st
    = fold_left JSON.memberAnswer pairs st.
Proof.
  unfold selecting.
  induction pairs as [| kv rest IH]; intros st; cbn [filter fold_left]; [reflexivity |].
  destruct (JSON.findField _ (fst kv)) eqn:Hf; cbn [isSome fold_left].
  - apply IH.
  - rewrite (memberAnswer_unselected st kv Hf). apply IH.
Qed.

Lemma valueAnswer_strip (j : JSON.json) (a : Answer) (saved : option JSON.DecodeError) :
  JSON.valueAnswer (stripAnswer j) a saved = JSON.valueAnswer j a saved.
Proof.
  destruct j; try reflexivity.
  cbn [stripAnswer JSON.valueAnswer]. unfold JSON.objectAnswer.
  apply objectAnswer_selecting.
Qed.

Lemma arrayInto_strip (items : list JSON.json) :
  forall slots saved,
    JSON.arrayInto (map stripAnswer items) slots saved = JSON.arrayInto items slots saved.
Proof.
  induction items as [| j rest IH]; intros slots saved; cbn [map JSON.arrayInto];
    [reflexivity |].
  destruct slots as [| slot slots']; rewrite valueAnswer_strip;
    destruct (JSON.valueAnswer j _ saved) as [a' saved']; rewrite IH; reflexivity.
Qed.

Lemma valueSlice_strip (j : JSON.json) (t : JSON.target) (saved : option JSON.DecodeError) :
  JSON.valueSlice (stripSlice j) t saved = JSON.valueSlice j t saved.
Proof.
  destruct j; try reflexivity.
  cbn [stripSlice]. destruct items as [| j rest]; [reflexivity |].
  change (map stripAnswer (j :: rest)) with (stripAnswer j :: map stripAnswer rest).
  cbn [JSON.valueSlice].
  change (stripAnswer j :: map stripAnswer rest) with (map stripAnswer (j :: rest)).
  rewrite arrayInto_strip. reflexivity.
Qed.

Lemma objectAnswersRequest_strip (pairs : list (string * JSON.json)) :
  forall st,
    fold_left JSON.memberAnswersRequest
              (map (fun kv => (fst kv, stripSlice (snd kv))) (selecting ["answers"] pairs)) st
    = fold_left JSON.memberAnswersRequest pairs st.
Proof.
  unfold selecting.
  induction pairs as [| kv rest IH]; intros st; cbn [filter map fold_left]; [reflexivity |].
  destruct st as [t saved].
  destruct (JSON.findField ["answers"] (fst kv)) eqn:Hf; cbn [isSome map fold_left].
  - unfold JSON.memberAnswersRequest at 2 4. cbn [fst snd]. rewrite Hf, valueSlice_strip.
    apply IH.
  - unfold JSON.memberAnswersRequest at 3. rewrite Hf. apply IH.
Qed.

Lemma unmarshal_strip (j : JSON.json) (req : AnswersRequest) :
  JSON.unmarshal (stripRequest j) req = JSON.unmarshal j req.
Proof.
  destruct j; try reflexivity.
  cbn [stripRequest JSON.unmarshal]. unfold JSON.objectAnswersRequest.
  rewrite objectAnswersRequest_strip. reflexivity.
Qed.

(** X9. Members that name no field are ignored, at the top level of a
    submission and inside each answer: two bodies whose first values
    differ only by such members decode to the same batch with the same
    error, and so are served alike. *)
Theorem X9_unknown_members_are_ignored
        (reqBody reqBody' : string) (j : JSON.json) (conn : option string) (sv : server) :
  JSON.readValue reqBody = inl j ->
  JSON.readValue reqBody' = inl (stripRequest j) ->
  JSON.Decode reqBody' zeroAnswersRequest = JSON.Decode reqBody zeroAnswersRequest
  /\ serve (POST_answers reqBody') conn sv = serve (POST_answers reqBody) conn sv.
Proof.
  intros H H'.
  assert (Hdec : JSON.Decode reqBody' zeroAnswersRequest
                 = JSON.Decode reqBody zeroAnswersRequest).
  { unfold JSON.Decode. rewrite H, H'. apply unmarshal_strip. }
  split; [exact Hdec |].
  unfold serve, handleAnswers. rewrite Hdec. reflexivity.
Qed.

Lemma X9_witness :
  let reqBody :=
      dq "{'user':'u1','answers':[{'questionId':2,'comment':[1,2],'value':'30'}],'v':2}" in
  let reqBody' := dq "{'answers':[{'questionId':2,'value':'30'}]}" in
  exists j,
    JSON.readValue reqBody = inl j
    /\ JSON.readValue reqBody' = inl (stripRequest j)
    /\ JSON.Decode reqBody zeroAnswersRequest
       = (mkAnswersRequest (mk_slice [mkAnswer 2 "30"]), None).
Proof.
  intros reqBody reqBody'.
  destruct (JSON.readValue reqBody) as [j | e] eqn:Hread;
    [| vm_compute in Hread; discriminate Hread].
  exists j. split; [reflexivity |].
  assert (H' : JSON.readValue reqBody' = inl (stripRequest j)).
  { vm_compute in Hread. injection Hread as <-. vm_compute. reflexivity. }
  split; [exact H' |].
  rewrite <- (proj1 (X9_unknown_members_are_ignored reqBody reqBody' j None main Hread H')).
  vm_compute. reflexivity.
Defined.

Lemma storeInt_fst (j : JSON.json) (v : Z) (s1 s2 : option JSON.DecodeError) :
  fst (JSON.storeInt j v s1) = fst (JSON.storeInt j v s2).
Proof.
  destruct j; try reflexivity. cbn [JSON.storeInt].
  destruct (JSON.ParseInt lit); reflexivity.
Qed.

Lemma storeString_fst (j : JSON.json) (v : string) (s1 s2 : option JSON.DecodeError) :
  fst (JSON.storeString j v s1) = fst (JSON.storeString j v s2).
Proof. destruct j; reflexivity. Qed.

Lemma memberAnswer_fst (a : Answer) (s1 s2 : option JSON.DecodeError)
      (kv : string * JSON.json) :
  fst (JSON.memberAnswer (a, s1) kv) = fst (JSON.memberAnswer (a, s2) kv).
Proof.
  unfold JSON.memberAnswer.
  destruct (JSON.findField _ _) as [f |]; [| reflexivity].
  destruct (f =? "questionId")%string.
  - pose proof (storeInt_fst (snd kv) (QuestionID a) s1 s2) as H.
    destruct (JSON.storeInt _ _ s1), (JSON.storeInt _ _ s2).
    cbn [fst] in *. rewrite H. reflexivity.
  - pose proof (storeString_fst (snd kv) (Value a) s1 s2) as H.
    destruct (JSON.storeString _ _ s1), (JSON.storeString _ _ s2).
    cbn [fst] in *. rewrite H. reflexivity.
Qed.

Lemma objectAnswer_fst (pairs : list (string * JSON.json)) :
  forall a s1 s2,
    fst (fold_left JSON.memberAnswer pairs (a, s1))
    = fst (fold_left JSON.memberAnswer pairs (a, s2)).
Proof.
  induction pairs as [| kv rest IH]; intros a s1 s2; cbn [fold_left]; [reflexivity |].
  pose proof (memberAnswer_fst a s1 s2 kv) as H.
  destruct (JSON.memberAnswer (a, s1) kv) as [a1 t1].
  destruct (JSON.memberAnswer (a, s2) kv) as [a2 t2].
  cbn [fst] in H. subst a2. apply IH.
Qed.

Lemma valueAnswer_fst (j : JSON.json) (a : Answer) (s1 s2 : option JSON.DecodeError) :
  fst (JSON.valueAnswer j a s1) = fst (JSON.valueAnswer j a s2).
Proof.
  destruct j; try reflexivity. cbn [JSON.valueAnswer]. apply objectAnswer_fst.
Qed.

Lemma arrayInto_fresh (items : list JSON.json) :
  forall saved,
    fst (JSON.arrayInto items [] saved) = (map answerOf items, []).
Proof.
  induction items as [| j rest IH]; intros saved; cbn [JSON.arrayInto map]; [reflexivity |].
  pose proof (valueAnswer_fst j zeroAnswer saved None) as Hj.
  destruct (JSON.valueAnswer j zeroAnswer saved) as [a' saved'].
  specialize (IH saved').
  destruct (JSON.arrayInto rest [] saved') as [[filled spare] saved''].
  cbn [fst] in *. injection IH as -> ->. rewrite Hj. reflexivity.
Qed.

(** An object whose one member selects the field, with an array: the
    field becomes the slice of the answers the elements decode to. *)
Lemma unmarshal_array (key field : string) (items : list JSON.json) :
  JSON.findField ["answers"] key = Some field ->
  Answers (fst (JSON.unmarshal (JSON.JObject [(key, JSON.JArray items)])
                               zeroAnswersRequest))
  = mk_slice (map answerOf items).
Proof.
  intros Hkey.
  cbn [JSON.unmarshal JSON.objectAnswersRequest fold_left JSON.memberAnswersRequest fst].
  rewrite Hkey. cbn [snd].
  destruct items as [| j rest]; [reflexivity |].
  cbn [JSON.valueSlice zeroAnswersRequest Answers JSON.visible JSON.spare elements app].
  pose proof (arrayInto_fresh (j :: rest) None) as Ha.
  destruct (JSON.arrayInto (j :: rest) [] None) as [[filled spare] saved].
  cbn [fst] in Ha. injection Ha as -> ->. reflexivity.
Qed.

(** X10. A submission whose value is an object with one member for the
    field, an array, is decoded element by element: the batch has exactly
    one answer per array element, in the order of the array, each decoded
    into a fresh zero answer on its own (so a null element or an empty
    object yields the zero answer), whether or not an element is in
    error. *)
Theorem X10_one_answer_per_element
        (reqBody key field : string) (items : list JSON.json) :
  JSON.readValue reqBody = inl (JSON.JObject [(key, JSON.JArray items)]) ->
  JSON.findField ["answers"] key = Some field ->
  Answers (fst (JSON.Decode reqBody zeroAnswersRequest)) = mk_slice (map answerOf items)
  /\ len (Answers (fst (JSON.Decode reqBody zeroAnswersRequest))) = List.length items.
Proof.
  intros Hread Hkey.
  assert (H : Answers (fst (JSON.Decode reqBody zeroAnswersRequest))
              = mk_slice (map answerOf items)).
  { unfold JSON.Decode. rewrite Hread.
    exact (unmarshal_array key field items Hkey). }
  split; [exact H |]. rewrite H. unfold len. cbn [elements]. apply length_map.
Qed.

Lemma X10_witness :
  let reqBody := dq "{'Answers':[{'value':'a'},null,{'questionId':'x'},{}]}" in
  JSON.findField ["answers"] "Answers" = Some "answers"
  /\ Answers (fst (JSON.Decode reqBody zeroAnswersRequest))
     = mk_slice [mkAnswer 0 "a"; zeroAnswer; zeroAnswer; zeroAnswer].
Proof.
  intros reqBody. split; [reflexivity |].
  assert (Hread : JSON.readValue reqBody
                  = inl (JSON.JObject
                           [("Answers",
                             JSON.JArray [JSON.JObject [("value", JSON.JString "a")];
                                          JSON.JNull;
                                          JSON.JObject [("questionId", JSON.JString "x")];
                                          JSON.JObject []])]))
    by (vm_compute; reflexivity).
  rewrite (proj1 (X10_one_answer_per_element reqBody "Answers" "answers" _ Hread eq_refl)).
  reflexivity.
Defined.

(** *** The range of stored question ids *)

Lemma ParseInt_range (s : string) (n : Z) : JSON.ParseInt s = Some n -> inIntRange n.
Proof.
  unfold JSON.ParseInt.
  assert (Hsigned : forall (neg : bool) (digits : string),
             match digits with
             | EmptyString => None
             | String _ _ =>
                 match JSON.digitsValue 0 digits with
                 | Some m =>
                     let v := if neg then - m else m in
                     if (minInt <=? v) && (v <=? maxInt) then Some v else None
                 | None => None
                 end
             end = Some n -> inIntRange n).
  { intros neg digits. destruct digits; [discriminate |].
    destruct (JSON.digitsValue 0 _) as [m |]; [| discriminate].
    cbn zeta. destruct (_ && _)%bool eqn:Hb; [| discriminate].
    intros H. injection H as <-.
    apply andb_true_iff in Hb. destruct Hb as [H1 H2].
    split; [apply Z.leb_le, H1 | apply Z.leb_le, H2]. }
  destruct s as [| c r]; [discriminate |].
  destruct (c =? "-")%char; [exact (Hsigned true r) |].
  destruct (c =? "+")%char; [exact (Hsigned false r) | exact (Hsigned false (String c r))].
Qed.

Lemma zero_inIntRange : inIntRange 0.
Proof. split; vm_compute; discriminate. Qed.

Lemma memberAnswer_range (st : Answer * option JSON.DecodeError) (kv : string * JSON.json) :
  inIntRange (QuestionID (fst st)) ->
  inIntRange (QuestionID (fst (JSON.memberAnswer st kv))).
Proof.
  destruct st as [a saved]. cbn [fst]. intros Ha. unfold JSON.memberAnswer.
  destruct (JSON.findField _ _) as [f |]; [| exact Ha].
  destruct (f =? "questionId")%string.
  - unfold JSON.storeInt. destruct (snd kv); try exact Ha.
    destruct (JSON.ParseInt lit) as [n |] eqn:Hp; [| exact Ha].
    exact (ParseInt_range lit n Hp).
  - destruct (JSON.storeString _ _ _). exact Ha.
Qed.

Lemma valueAnswer_range (j : JSON.json) (a : Answer) (saved : option JSON.DecodeError) :
  inIntRange (QuestionID a) ->
  inIntRange (QuestionID (fst (JSON.valueAnswer j a saved))).
Proof.
  intros Ha. destruct j; try exact Ha.
  cbn [JSON.valueAnswer]. unfold JSON.objectAnswer.
  change a with (fst (a, saved)) in Ha. revert Ha. generalize (a, saved).
  induction pairs as [| kv rest IH]; intros st Hst; cbn [fold_left]; [exact Hst |].
  apply IH, memberAnswer_range, Hst.
Qed.

Lemma arrayInto_range (items : list JSON.json) :
  forall slots saved,
    Forall (fun a => inIntRange (QuestionID a)) slots ->
    Forall (fun a => inIntRange (QuestionID a))
           (fst (fst (JSON.arrayInto items slots saved))
            ++ snd (fst (JSON.arrayInto items slots saved))).
Proof.
  induction items as [| j rest IH]; intros slots saved Hs; cbn [JSON.arrayInto].
  - exact Hs.
  - assert (Hslot : inIntRange (QuestionID (match slots with [] => zeroAnswer | a :: _ => a end))
                    /\ Forall (fun a => inIntRange (QuestionID a))
                              (match slots with [] => [] | _ :: r => r end)).
    { destruct slots as [| a r]; [split; [apply zero_inIntRange | constructor] |].
      inversion Hs; subst. split; assumption. }
    destruct Hslot as [Hslot Hrest].
    destruct slots as [| slot slots'].
    + pose proof (valueAnswer_range j zeroAnswer saved Hslot) as Hv.
      destruct (JSON.valueAnswer j zeroAnswer saved) as [a' saved'].
      specialize (IH [] saved' Hrest).
      destruct (JSON.arrayInto rest [] saved') as [[filled spare] saved''].
      cbn [fst snd app] in *. constructor; assumption.
    + pose proof (valueAnswer_range j slot saved Hslot) as Hv.
      destruct (JSON.valueAnswer j slot saved) as [a' saved'].
      specialize (IH slots' saved' Hrest).
      destruct (JSON.arrayInto rest slots' saved') as [[filled spare] saved''].
      cbn [fst snd app] in *. constructor; assumption.
Qed.

Lemma valueSlice_range (j : JSON.json) (t : JSON.target) (saved : option JSON.DecodeError) :
  Forall (fun a => inIntRange (QuestionID a)) (elements (JSON.visible t) ++ JSON.spare t) ->
  Forall (fun a => inIntRange (QuestionID a))
         (elements (JSON.visible (fst (JSON.valueSlice j t saved)))
          ++ JSON.spare (fst (JSON.valueSlice j t saved))).
Proof.
  intros Ht. destruct j; try exact Ht; cbn [JSON.valueSlice]; try (constructor).
  destruct items as [| j rest]; [constructor |].
  pose proof (arrayInto_range (j :: rest) _ saved Ht) as H.
  destruct (JSON.arrayInto (j :: rest) _ saved) as [[filled spare] saved'].
  exact H.
Qed.

Lemma unmarshal_range (j : JSON.json) (req : AnswersRequest) :
  answersInRange req -> answersInRange (fst (JSON.unmarshal j req)).
Proof.
  intros Hreq. destruct j; try exact Hreq.
  cbn [JSON.unmarshal]. unfold JSON.objectAnswersRequest.
  assert (Hfold : forall pairs st,
             Forall (fun a => inIntRange (QuestionID a))
                    (elements (JSON.visible (fst st)) ++ JSON.spare (fst st)) ->
             Forall (fun a => inIntRange (QuestionID a))
                    (elements (JSON.visible (fst (fold_left JSON.memberAnswersRequest pairs st)))
                     ++ JSON.spare (fst (fold_left JSON.memberAnswersRequest pairs st)))).
  { induction pairs0 as [| kv rest IH]; intros st Hst; cbn [fold_left]; [exact Hst |].
    apply IH. destruct st as [t saved]. unfold JSON.memberAnswersRequest.
    destruct (JSON.findField _ _); [apply valueSlice_range |]; exact Hst. }
  specialize (Hfold pairs (JSON.mkTarget (Answers req) [], None)).
  destruct (fold_left _ _ _) as [t saved]. cbn [fst] in *.
  unfold answersInRange. cbn [Answers].
  apply Forall_app in Hfold; [apply Hfold |].
  cbn [JSON.visible JSON.spare]. rewrite app_nil_r. exact Hreq.
Qed.

Lemma Decode_range (reqBody : string) :
  answersInRange (fst (JSON.Decode reqBody zeroAnswersRequest)).
Proof.
  unfold JSON.Decode. destruct (JSON.readValue reqBody).
  - apply unmarshal_range. constructor.
  - constructor.
Qed.

(** X11. No stored answer names a question by a number a Go [int] cannot
    hold: whatever the requests, if all answers in the store had their
    [QuestionID] in the 64-bit range before, they all have after.  (A
    literal out of range is a decode error, and nothing is stored.) *)
Theorem X11_stored_ids_in_int_range
        (rs : list (request * option string)) (sv : server) :
  mu (store sv) = Sync.Unlocked ->
  Forall answersInRange (history sv) ->
  exists sv' ws,
    serveAll rs sv = Done (sv', ws) /\ Forall answersInRange (history sv').
Proof.
  intros Hfree Hsv.
  destruct (serveAll_effect rs sv Hfree) as [sv' [ws [Hs [Hh _]]]].
  exists sv', ws. split; [exact Hs |]. rewrite Hh.
  apply Forall_app. split; [exact Hsv |].
  clear. induction rs as [| [r conn] rest IH]; [constructor |].
  cbn [flat_map fst]. apply Forall_app. split; [| exact IH].
  destruct r as [| reqBody]; cbn [submitted]; [constructor |].
  destruct (rejected _); constructor; [apply Decode_range | constructor].
Qed.

Lemma X11_witness :
  let rs : list (request * option string) :=
      [(POST_answers (dq "{'answers':[{'questionId':9223372036854775807,'value':'max'}]}"), None);
       (POST_answers (dq "{'answers':[{'questionId':9223372036854775808,'value':'over'}]}"), None)] in
  mu (store main) = Sync.Unlocked
  /\ Forall answersInRange (history main)
  /\ exists sv' ws,
      serveAll rs main = Done (sv', ws)
      /\ history sv' = [mkAnswersRequest (mk_slice [mkAnswer 9223372036854775807 "max"])]
      /\ Forall answersInRange (history sv').
Proof.
  intros rs.
  assert (H0 : Forall answersInRange (history main)) by constructor.
  split; [reflexivity | split; [exact H0 |]].
  destruct (X11_stored_ids_in_int_range rs main eq_refl H0) as [sv' [ws [Hs Hr]]].
  exists sv', ws. split; [exact Hs |]. split; [| exact Hr].
  vm_compute in Hs. injection Hs as <- _. reflexivity.
Defined.

(** *** The end of the first value *)

(** X12. Only the first JSON value of a body counts.  Once the scanner has
    completed that value, whatever bytes follow in the body make no
    difference: the decoded batch, the error, the response and the server
    afterwards are those of the body cut after the value.  A malformed
    tail does not make a submission fail. *)
Theorem X12_bytes_after_first_value_ignored
        (reqBody tail : string) (j : JSON.json) (conn : option string) (sv : server) :
  JSON.scan (JSON.Scanning JSON.stateBeginValue []) reqBody = JSON.ScanEnd j ->
  JSON.Decode (reqBody ++ tail) zeroAnswersRequest = JSON.Decode reqBody zeroAnswersRequest
  /\ serve (POST_answers (reqBody ++ tail)) conn sv = serve (POST_answers reqBody) conn sv.
Proof.
  intros Hscan.
  assert (Hdec : JSON.Decode (reqBody ++ tail) zeroAnswersRequest
                 = JSON.Decode reqBody zeroAnswersRequest).
  { unfold JSON.Decode, JSON.readValue.
    rewrite scan_app, Hscan, scan_ScanEnd. reflexivity. }
  split; [exact Hdec |].
  unfold serve, handleAnswers. rewrite Hdec. reflexivity.
Qed.

Lemma X12_witness :
  let reqBody := dq "{'answers':[{'questionId':1,'value':'Иван'}]}" in
  let tail := dq "}]='" in
  exists j,
    JSON.scan (JSON.Scanning JSON.stateBeginValue []) reqBody = JSON.ScanEnd j
    /\ serve (POST_answers (reqBody ++ tail)) None main
       = Done (appended main (mkAnswersRequest (mk_slice [mkAnswer 1 "Иван"])), okResponse).
Proof.
  intros reqBody tail.
  destruct (JSON.scan (JSON.Scanning JSON.stateBeginValue []) reqBody) as [m st | j |] eqn:Hscan;
    try (vm_compute in Hscan; discriminate Hscan).
  exists j. split; [reflexivity |].
  rewrite (proj2 (X12_bytes_after_first_value_ignored reqBody tail j None main Hscan)).
  vm_compute. reflexivity.
Defined.

(** X13. Decoding cannot break on a string literal: wherever the scanner
    stands inside a literal and may meet its closing quote, what it has
    collected of the literal unquotes, so the closing quote completes a
    string value.  The scanner accepts no escape that unquoting cannot
    translate. *)
Theorem X13_accepted_literals_unquote
        (input raw : string) (stack : list JSON.frame) :
  JSON.scan (JSON.Scanning JSON.stateBeginValue []) input
  = JSON.Scanning (JSON.stateString raw JSON.inString) stack ->
  exists s,
    JSON.unquote raw = Some s
    /\ JSON.scan (JSON.Scanning JSON.stateBeginValue [])
                 (input ++ String dquote EmptyString)
       = JSON.endValue (JSON.JString s) stack.
Proof.
  intros Hscan.
  destruct (closing_quote_unquotes input raw stack Hscan) as [s [Hu Hstep]].
  exists s. split; [exact Hu |].
  rewrite scan_app, Hscan. exact Hstep.
Qed.

Lemma X13_witness :
  let input := dq "{'answers':[{'value':'a\n\ud83d\\\ud83d\ude00" in
  exists raw stack s,
    JSON.scan (JSON.Scanning JSON.stateBeginValue []) input
    = JSON.Scanning (JSON.stateString raw JSON.inString) stack
    /\ JSON.unquote raw = Some s
    /\ s = ("a" ++ newline ++ JSON.replacementChar ++ "\" ++ JSON.encodeRune 128512)%string.
Proof.
  intros input.
  destruct (JSON.scan (JSON.Scanning JSON.stateBeginValue []) input) as [m stack | j |] eqn:Hscan;
    try (vm_compute in Hscan; discriminate Hscan).
  destruct m as [| | | | | raw ss | |]; try (vm_compute in Hscan; discriminate Hscan).
  destruct ss; try (vm_compute in Hscan; discriminate Hscan).
  destruct (X13_accepted_literals_unquote input raw stack Hscan) as [s [Hu _]].
  exists raw, stack, s. split; [reflexivity |]. split; [exact Hu |].
  vm_compute in Hscan. injection Hscan as <- _.
  vm_compute in Hu. injection Hu as <-. reflexivity.
Defined.

(* ================================================================== *)
(** ** The page and the server together *)

(** *** Integers in decimal *)

Lemma string_of_uint_digits (d : Decimal.uint) :
  string_forallb JSON.isDigit (NilEmpty.string_of_uint d) = true.
Proof. induction d; cbn; auto. Qed.

Lemma digitsValue_acc (d : Decimal.uint) :
  forall acc,
    JSON.digitsValue (Zpos acc) (NilEmpty.string_of_uint d)
    = Some (Zpos (Pos.of_uint_acc d acc)).
Proof.
  induction d as [| d IH | d IH | d IH | d IH | d IH | d IH | d IH | d IH | d IH | d IH];
    intros acc; [reflexivity | ..];
    cbn [NilEmpty.string_of_uint JSON.digitsValue Pos.of_uint_acc];
    (replace (JSON.isDigit _) with true by reflexivity);
    rewrite <- IH; f_equal; vm_compute (Z.of_N _); lia.
Qed.

Lemma digitsValue_uint (d : Decimal.uint) :
  JSON.digitsValue 0 (NilEmpty.string_of_uint d) = Some (Z.of_N (Pos.of_uint d)).
Proof.
  induction d as [| d IH | d IH | d IH | d IH | d IH | d IH | d IH | d IH | d IH | d IH];
    [reflexivity | exact IH | ..];
    cbn [NilEmpty.string_of_uint JSON.digitsValue Pos.of_uint];
    (replace (JSON.isDigit _) with true by reflexivity);
    exact (digitsValue_acc d _).
Qed.

(** The decimal digits of a positive number: a digit from 1 to 9, then
    digits. *)
Lemma to_uint_head (p : positive) :
  exists c r,
    NilEmpty.string_of_uint (Pos.to_uint p) = String c r
    /\ between 49 57 c = true
    /\ string_forallb JSON.isDigit r = true.
Proof.
  pose proof (DecimalPos.Unsigned.of_to p) as Hof.
  pose proof (DecimalPos.Unsigned.to_of (Pos.to_uint p)) as Hnorm.
  rewrite Hof in Hnorm. cbn [N.to_uint] in Hnorm.
  pose proof (DecimalPos.Unsigned.to_uint_nonzero p) as Hnz.
  unfold Decimal.unorm in Hnorm.
  pose proof (DecimalFacts.nzhead_nonzero (Pos.to_uint p)) as Hhead.
  destruct (Decimal.nzhead (Pos.to_uint p)) as [| d | d | d | d | d | d | d | d | d | d];
    [contradiction Hnz; exact Hnorm | contradiction (Hhead d); reflexivity | ..];
    rewrite Hnorm; cbn [NilEmpty.string_of_uint];
    eexists; eexists; (split; [reflexivity |]); (split; [reflexivity |]);
    apply string_of_uint_digits.
Qed.

Lemma String_pos (p : positive) :
  Client.String_ (Zpos p) = NilEmpty.string_of_uint (Pos.to_uint p).
Proof.
  unfold Client.String_. cbn [Z.to_int NilZero.string_of_int NilZero.string_of_uint].
  pose proof (DecimalPos.Unsigned.to_uint_nonnil p) as H.
  destruct (Pos.to_uint p); [contradiction H |..]; reflexivity.
Qed.

Lemma String_neg (p : positive) :
  Client.String_ (Zneg p) = String "-" (NilEmpty.string_of_uint (Pos.to_uint p)).
Proof.
  unfold Client.String_. cbn [Z.to_int NilZero.string_of_int NilZero.string_of_uint].
  pose proof (DecimalPos.Unsigned.to_uint_nonnil p) as H.
  destruct (Pos.to_uint p); [contradiction H; reflexivity |..]; reflexivity.
Qed.

Lemma digitsValue_pos (p : positive) :
  JSON.digitsValue 0 (NilEmpty.string_of_uint (Pos.to_uint p)) = Some (Zpos p).
Proof.
  rewrite digitsValue_uint.
  pose proof (DecimalPos.Unsigned.of_to p) as H. unfold N.of_uint in H.
  rewrite H. reflexivity.
Qed.

Lemma between_not (lo hi : N) (c x : ascii) :
  between lo hi c = true -> between lo hi x = false -> (c =? x)%char = false.
Proof.
  intros Hc Hx. apply Ascii.eqb_neq. intros ->. rewrite Hx in Hc. discriminate Hc.
Qed.

(** [String] spells an integer canonically. *)
Lemma String_canonical (n : Z) : Client.canonicalInt (Client.String_ n) = true.
Proof.
  destruct n as [| p | p].
  - reflexivity.
  - rewrite String_pos. destruct (to_uint_head p) as [c [r [-> [Hc Hr]]]].
    unfold Client.canonicalInt.
    rewrite (between_not 49 57 c "-" Hc eq_refl).
    cbn [Client.positiveLiteral]. rewrite Hc, Hr. apply orb_true_r.
  - rewrite String_neg. destruct (to_uint_head p) as [c [r [E [Hc Hr]]]].
    cbn [Client.canonicalInt]. rewrite E.
    replace ("-" =? "-")%char with true by reflexivity.
    cbn [Client.positiveLiteral]. rewrite Hc, Hr. reflexivity.
Qed.

Lemma String_nonempty (n : Z) : Client.String_ n <> EmptyString.
Proof.
  pose proof (String_canonical n) as H. intros E. rewrite E in H. discriminate H.
Qed.

(** [Number] reads back what [String] prints. *)
Lemma Number_String (n : Z) :
  Client.safeInteger n = true -> Client.Number_ (Client.String_ n) = Some n.
Proof.
  intros Hsafe. unfold Client.Number_. rewrite String_canonical.
  destruct n as [| p | p].
  - reflexivity.
  - rewrite String_pos. destruct (to_uint_head p) as [c [r [E [Hc Hr]]]].
    pose proof (digitsValue_pos p) as Hv. rewrite E in *.
    rewrite (between_not 49 57 c "-" Hc eq_refl), Hv, Hsafe. reflexivity.
  - rewrite String_neg.
    replace ("-" =? "-")%char with true by reflexivity.
    rewrite digitsValue_pos. cbn [option_map Z.opp]. rewrite Hsafe. reflexivity.
Qed.

(** The decoder's [ParseInt] reads what [String] prints for a safe
    integer, which is within [int]. *)
Lemma ParseInt_String (n : Z) :
  Client.safeInteger n = true -> JSON.ParseInt (Client.String_ n) = Some n.
Proof.
  intros Hsafe.
  assert (Hrange : (minInt <=? n) && (n <=? maxInt) = true).
  { unfold Client.safeInteger in Hsafe. apply andb_true_iff in Hsafe.
    destruct Hsafe as [H1 H2]. apply Z.leb_le in H1, H2.
    apply andb_true_iff. split; apply Z.leb_le.
    - assert (minInt <= - Client.maxSafeInteger) by (vm_compute; discriminate). lia.
    - assert (Client.maxSafeInteger <= maxInt) by (vm_compute; discriminate). lia. }
  unfold JSON.ParseInt. destruct n as [| p | p].
  - reflexivity.
  - rewrite String_pos. destruct (to_uint_head p) as [c [r [E [Hc Hr]]]].
    pose proof (digitsValue_pos p) as Hv. rewrite E in *.
    rewrite (between_not 49 57 c "-" Hc eq_refl), (between_not 49 57 c "+" Hc eq_refl).
    rewrite Hv, Hrange. reflexivity.
  - rewrite String_neg.
    replace ("-" =? "-")%char with true by reflexivity.
    pose proof (digitsValue_pos p) as Hv.
    destruct (to_uint_head p) as [c [r [E [Hc Hr]]]]. rewrite E in *.
    rewrite Hv. change (- Z.pos p) with (Z.neg p). rewrite Hrange. reflexivity.
Qed.

(** *** String literals *)

Lemma stringTrace_app (a b : string) :
  forall ss,
    stringTrace ss (a ++ b)
    = match stringTrace ss a with
      | Some ss' => stringTrace ss' b
      | None => None
      end.
Proof.
  induction a as [| c r IH]; intros ss; cbn [String.append stringTrace]; [reflexivity |].
  destruct (JSON.stringByte ss c); [apply IH | reflexivity].
Qed.

Lemma stringTrace_escapeByte (c : ascii) :
  stringTrace JSON.inString (Client.escapeByte c) = Some JSON.inString.
Proof. each_byte c; reflexivity. Qed.

(** The scanner's string states accept what the page writes between the
    quotes, for every string. *)
Lemma stringTrace_escape (s : string) :
  stringTrace JSON.inString (Client.escape s) = Some JSON.inString.
Proof.
  induction s as [| c r IH]; [reflexivity |].
  cbn [Client.escape]. rewrite stringTrace_app, stringTrace_escapeByte. exact IH.
Qed.

Lemma escapeByte_high (c : ascii) :
  (code c <? 128)%N = false -> Client.escapeByte c = String c EmptyString.
Proof. each_byte c; intros H; try discriminate H; reflexivity. Qed.

Lemma escapeByte_low (c : ascii) :
  (code c <? 128)%N = true ->
  exists f t, Client.escapeByte c = String f t /\ (code f <? 128)%N = true.
Proof.
  each_byte c; intros H; try discriminate H;
    eexists; eexists; (split; [reflexivity |]); reflexivity.
Qed.

Lemma isCont_low (lo hi : N) (c : ascii) (r : string) :
  (128 <= lo)%N -> (code c <? 128)%N = true -> JSON.isCont lo hi (String c r) = false.
Proof.
  intros Hlo Hc. apply N.ltb_lt in Hc. cbn [JSON.isCont]. unfold between.
  apply andb_false_iff. left. apply N.leb_gt. lia.
Qed.

Lemma isCont_escape (lo hi : N) (s : string) :
  (128 <= lo)%N -> JSON.isCont lo hi (Client.escape s) = JSON.isCont lo hi s.
Proof.
  intros Hlo. destruct s as [| c r]; [reflexivity |].
  cbn [Client.escape]. destruct (code c <? 128)%N eqn:Hc.
  - destruct (escapeByte_low c Hc) as [f [t [-> Hf]]]. cbn [String.append].
    rewrite !isCont_low by assumption. reflexivity.
  - rewrite (escapeByte_high c Hc). reflexivity.
Qed.

(** Escaping leaves the rune that starts at a non-ASCII byte as it is. *)
Lemma runeLen_escape (c : ascii) (r : string) :
  JSON.runeLen c (Client.escape r) = JSON.runeLen c r.
Proof.
  destruct r as [| a1 r1]; [reflexivity |].
  destruct (code a1 <? 128)%N eqn:H1.
  - unfold JSON.runeLen.
    rewrite !(isCont_escape _ _ (String a1 r1)) by lia.
    rewrite !(isCont_low _ _ a1 r1) by (lia || exact H1).
    reflexivity.
  - cbn [Client.escape]. rewrite (escapeByte_high a1 H1). cbn [String.append].
    unfold JSON.runeLen. cbn [JSON.tail JSON.isCont].
    rewrite !(isCont_escape _ _ r1) by lia.
    destruct r1 as [| a2 r2]; [reflexivity |].
    destruct (code a2 <? 128)%N eqn:H2.
    + rewrite !(isCont_low _ _ a2 r2) by (lia || exact H2).
      rewrite !andb_false_r. reflexivity.
    + cbn [Client.escape]. rewrite (escapeByte_high a2 H2). cbn [String.append JSON.tail].
      rewrite !(isCont_escape _ _ r2) by lia. reflexivity.
Qed.

Lemma unquoteFrom_escapeByte (c : ascii) (rest : string) :
  (code c <? 128)%N = true ->
  JSON.unquoteFrom JSON.UNormal (Client.escapeByte c ++ rest)
  = JSON.prepend (String c EmptyString) (JSON.unquoteFrom JSON.UNormal rest).
Proof. each_byte c; intros H; try discriminate H; reflexivity. Qed.

Lemma wellFormed_cont (k : nat) (c : ascii) (r : string) :
  Client.wellFormedFrom (S k) (String c r) = true ->
  (code c <? 128)%N = false /\ Client.wellFormedFrom k r = true.
Proof.
  cbn [Client.wellFormedFrom]. intros H. apply andb_true_iff in H.
  destruct H as [Hc Hr]. split; [| exact Hr].
  apply N.leb_le in Hc. apply N.ltb_ge. exact Hc.
Qed.

(** Unquoting undoes the page's escaping on every well-formed string. *)
Lemma unquoteFrom_escape (s : string) :
  forall k,
    Client.wellFormedFrom k s = true ->
    JSON.unquoteFrom (JSON.ucopy k) (Client.escape s) = Some s.
Proof.
  induction s as [| c r IH]; intros k Hwf.
  - destruct k; [reflexivity | discriminate Hwf].
  - destruct k as [| k].
    + cbn [JSON.ucopy Client.escape]. cbn [Client.wellFormedFrom] in Hwf.
      destruct (code c <? 128)%N eqn:Hc.
      * rewrite (unquoteFrom_escapeByte c _ Hc).
        change JSON.UNormal with (JSON.ucopy 0). rewrite (IH 0%nat Hwf). reflexivity.
      * rewrite (escapeByte_high c Hc). cbn [String.append JSON.unquoteFrom].
        assert (Hb : (c =? "\")%char = false)
          by (apply Ascii.eqb_neq; intros ->; discriminate Hc).
        assert (Hq : (c =? dquote)%char = false)
          by (apply Ascii.eqb_neq; intros ->; discriminate Hc).
        assert (Hl : (code c <? 32)%N = false)
          by (apply N.ltb_ge; apply N.ltb_ge in Hc; lia).
        rewrite Hb, Hq, Hl, Hc, runeLen_escape. cbn [orb].
        destruct (JSON.runeLen c r) as [| [| n]]; try discriminate Hwf.
        change (JSON.UCopy (S n)) with (JSON.ucopy (S n)).
        rewrite (IH (S n) Hwf). reflexivity.
    + destruct (wellFormed_cont k c r Hwf) as [Hc Hr].
      cbn [Client.escape]. rewrite (escapeByte_high c Hc).
      cbn [String.append JSON.ucopy JSON.unquoteFrom pred].
      rewrite (IH k Hr). reflexivity.
Qed.

Lemma unquote_escape (s : string) :
  Client.scalarValues s = true -> JSON.unquote (Client.escape s) = Some s.
Proof. intros H. exact (unquoteFrom_escape s 0%nat H). Qed.

(** Inside a literal the scanner collects the bytes its string states
    accept. *)
Lemma scan_string_body (x : string) :
  forall raw ss ss' stack,
    stringTrace ss x = Some ss' ->
    JSON.scan (JSON.Scanning (JSON.stateString raw ss) stack) x
    = JSON.Scanning (JSON.stateString (raw ++ x) ss') stack.
Proof.
  induction x as [| c r IH]; intros raw ss ss' stack Htr.
  - cbn in *. injection Htr as <-.
    replace (raw ++ EmptyString)%string with raw; [reflexivity |].
    clear. induction raw as [| a raw IH]; [reflexivity |].
    cbn [String.append]. rewrite <- IH. reflexivity.
  - cbn [stringTrace] in Htr. destruct (JSON.stringByte ss c) as [ss1 |] eqn:Hb;
      [| discriminate Htr].
    cbn [JSON.scan JSON.step]. unfold JSON.stepString. rewrite Hb.
    assert (Hstep : match ss with
                    | JSON.inString =>
                        if (c =? dquote)%char
                        then match JSON.unquote raw with
                             | Some s => JSON.endValue (JSON.JString s) stack
                             | None => JSON.ScanError
                             end
                        else JSON.Scanning
                               (JSON.stateString (raw ++ String c EmptyString) ss1) stack
                    | _ => JSON.Scanning
                             (JSON.stateString (raw ++ String c EmptyString) ss1) stack
                    end
                    = JSON.Scanning
                        (JSON.stateString (raw ++ String c EmptyString) ss1) stack).
    { destruct ss; try reflexivity.
      cbn [JSON.stringByte] in Hb. destruct (c =? dquote)%char; [discriminate Hb |].
      reflexivity. }
    rewrite Hstep, (IH _ _ _ _ Htr).
    replace ((raw ++ String c EmptyString) ++ r)%string with (raw ++ String c r)%string;
      [reflexivity |].
    clear. induction raw as [| a raw IH]; [reflexivity |].
    cbn [String.append]. rewrite IH. reflexivity.
Qed.

(** A string literal written by the page is read as the string. *)
Lemma scan_quote (s : string) (stack : list JSON.frame) :
  Client.scalarValues s = true ->
  JSON.scan (JSON.Scanning JSON.stateBeginValue stack) (Client.quote s)
  = JSON.endValue (JSON.JString s) stack.
Proof.
  intros Hs. unfold Client.quote. cbn [JSON.scan].
  change (JSON.step (JSON.Scanning JSON.stateBeginValue stack) dquote)
    with (JSON.Scanning (JSON.stateString EmptyString JSON.inString) stack).
  rewrite scan_app.
  rewrite (scan_string_body _ EmptyString JSON.inString JSON.inString stack
             (stringTrace_escape s)).
  cbn [String.append JSON.scan JSON.step]. unfold JSON.stepString.
  replace (dquote =? dquote)%char with true by reflexivity.
  rewrite (unquote_escape s Hs). reflexivity.
Qed.

(** *** Number literals *)

Lemma scan_digits (r : string) :
  forall lit stack,
    string_forallb JSON.isDigit r = true ->
    JSON.scan (JSON.Scanning (JSON.stateNumber lit JSON.state1) stack) r
    = JSON.Scanning (JSON.stateNumber (lit ++ r) JSON.state1) stack.
Proof.
  induction r as [| c r IH]; intros lit stack Hr.
  - cbn [JSON.scan].
    replace (lit ++ EmptyString)%string with lit; [reflexivity |].
    clear. induction lit as [| a lit IH]; [reflexivity |].
    cbn [String.append]. rewrite <- IH. reflexivity.
  - cbn [string_forallb] in Hr. apply andb_true_iff in Hr. destruct Hr as [Hc Hr].
    cbn [JSON.scan JSON.step]. unfold JSON.stepNumber. rewrite Hc.
    rewrite (IH _ _ Hr).
    replace ((lit ++ String c EmptyString) ++ r)%string with (lit ++ String c r)%string;
      [reflexivity |].
    clear. induction lit as [| a lit IH]; [reflexivity |].
    cbn [String.append]. rewrite IH. reflexivity.
Qed.

Lemma step_first_digit (c : ascii) (stack : list JSON.frame) :
  between 49 57 c = true ->
  JSON.step (JSON.Scanning JSON.stateBeginValue stack) c
  = JSON.Scanning (JSON.stateNumber (String c EmptyString) JSON.state1) stack
  /\ JSON.step (JSON.Scanning (JSON.stateNumber "-" JSON.stateNeg) stack) c
     = JSON.Scanning (JSON.stateNumber (String "-" (String c EmptyString)) JSON.state1)
                     stack.
Proof. each_byte c; intros H; try discriminate H; split; reflexivity. Qed.

(** The scanner takes a canonical integer as one number literal, and is
    then at the end of a zero or of a digit sequence. *)
Lemma scan_canonical (lit : string) (stack : list JSON.frame) :
  Client.canonicalInt lit = true ->
  exists ns,
    (ns = JSON.state0 \/ ns = JSON.state1)
    /\ JSON.scan (JSON.Scanning JSON.stateBeginValue stack) lit
       = JSON.Scanning (JSON.stateNumber lit ns) stack.
Proof.
  destruct lit as [| c r]; [discriminate |]. cbn [Client.canonicalInt].
  destruct (c =? "-")%char eqn:Hm.
  - apply Ascii.eqb_eq in Hm. subst c.
    destruct r as [| d r]; [discriminate |]. cbn [Client.positiveLiteral].
    intros H. apply andb_true_iff in H. destruct H as [Hd Hr].
    exists JSON.state1. split; [right; reflexivity |].
    cbn [JSON.scan].
    change (JSON.step (JSON.Scanning JSON.stateBeginValue stack) "-")
      with (JSON.Scanning (JSON.stateNumber "-" JSON.stateNeg) stack).
    rewrite (proj2 (step_first_digit d stack Hd)).
    rewrite (scan_digits r _ _ Hr). reflexivity.
  - intros H. apply orb_true_iff in H. destruct H as [H | H].
    + apply String.eqb_eq in H. injection H as -> ->.
      exists JSON.state0. split; [left; reflexivity | reflexivity].
    + cbn [Client.positiveLiteral] in H. apply andb_true_iff in H.
      destruct H as [Hc Hr].
      exists JSON.state1. split; [right; reflexivity |].
      cbn [JSON.scan]. rewrite (proj1 (step_first_digit c stack Hc)).
      rewrite (scan_digits r _ _ Hr). reflexivity.
Qed.

(** *** The body of a submission *)

Lemma scan_answer (a : Z * string) (items : list JSON.json) :
  Client.scalarValues (snd a) = true ->
  JSON.scan (JSON.Scanning JSON.stateBeginValue (inAnswers items))
            (Client.stringifyAnswer a)
  = JSON.Scanning JSON.stateEndValue (inAnswers (items ++ [answerObject a])).
Proof.
  intros Hv. unfold Client.stringifyAnswer. rewrite scan_app.
  change (JSON.scan (JSON.Scanning JSON.stateBeginValue (inAnswers items))
                    (dq "{'questionId':"))
    with (JSON.Scanning JSON.stateBeginValue
            (JSON.inObjectValue [] "questionId" :: inAnswers items)).
  rewrite scan_app.
  destruct (scan_canonical (Client.String_ (fst a))
              (JSON.inObjectValue [] "questionId" :: inAnswers items)
              (String_canonical (fst a))) as [ns [Hns ->]].
  rewrite scan_app.
  assert (Hcomma :
            JSON.scan (JSON.Scanning (JSON.stateNumber (Client.String_ (fst a)) ns)
                         (JSON.inObjectValue [] "questionId" :: inAnswers items))
                      (dq ",'value':")
            = JSON.Scanning JSON.stateBeginValue
                (JSON.inObjectValue [("questionId", JSON.JNumber (Client.String_ (fst a)))]
                                    "value" :: inAnswers items))
    by (destruct Hns as [-> | ->]; reflexivity).
  rewrite Hcomma, scan_app, (scan_quote _ _ Hv). reflexivity.
Qed.

Lemma scan_answers (l : list (Z * string)) :
  forall a items,
    Forall (fun a => Client.scalarValues (snd a) = true) (a :: l) ->
    JSON.scan (JSON.Scanning JSON.stateBeginValue (inAnswers items))
              (JSON.join "," (map Client.stringifyAnswer (a :: l)))
    = JSON.Scanning JSON.stateEndValue (inAnswers (items ++ map answerObject (a :: l))).
Proof.
  induction l as [| b l IH]; intros a items Hall.
  - apply scan_answer. exact (Forall_inv Hall).
  - change (JSON.join "," (map Client.stringifyAnswer (a :: b :: l)))
      with (Client.stringifyAnswer a ++ "," ++ JSON.join "," (map Client.stringifyAnswer (b :: l)))%string.
    rewrite scan_app, (scan_answer a items (Forall_inv Hall)).
    cbn [String.append JSON.scan].
    change (JSON.step (JSON.Scanning JSON.stateEndValue (inAnswers (items ++ [answerObject a]))) ",")
      with (JSON.Scanning JSON.stateBeginValue (inAnswers (items ++ [answerObject a]))).
    rewrite (IH b _ (Forall_inv_tail Hall)), <- app_assoc. reflexivity.
Qed.

Lemma stringifyAnswer_head (a : Z * string) (l : list (Z * string)) :
  exists x, JSON.join "," (map Client.stringifyAnswer (a :: l)) = String "{" x.
Proof. destruct l; eexists; reflexivity. Qed.

(** The decoder reads the body the page posts as the object with the one
    member [answers], an array with one object per answer. *)
Lemma readValue_stringify (answers : list (Z * string)) :
  Forall (fun a => Client.scalarValues (snd a) = true) answers ->
  JSON.readValue (Client.stringify answers)
  = inl (JSON.JObject [("answers", JSON.JArray (map answerObject answers))]).
Proof.
  intros Hall. unfold JSON.readValue, Client.stringify. rewrite scan_app.
  change (JSON.scan (JSON.Scanning JSON.stateBeginValue []) (dq "{'answers':["))
    with (JSON.Scanning JSON.stateBeginValueOrEmpty (inAnswers [])).
  destruct answers as [| a l]; [reflexivity |].
  rewrite scan_app.
  destruct (stringifyAnswer_head a l) as [x Hx].
  assert (Hbegin :
            JSON.scan (JSON.Scanning JSON.stateBeginValueOrEmpty (inAnswers []))
                      (JSON.join "," (map Client.stringifyAnswer (a :: l)))
            = JSON.scan (JSON.Scanning JSON.stateBeginValue (inAnswers []))
                        (JSON.join "," (map Client.stringifyAnswer (a :: l))))
    by (rewrite Hx; reflexivity).
  rewrite Hbegin, (scan_answers l a [] Hall). reflexivity.
Qed.

Lemma answerOf_answerObject (a : Z * string) :
  Client.safeInteger (fst a) = true ->
  answerOf (answerObject a) = mkAnswer (fst a) (snd a)
  /\ fitsAnswer (answerObject a) = true.
Proof.
  intros Hsafe. unfold answerOf, answerObject.
  cbn [JSON.valueAnswer JSON.objectAnswer fold_left fitsAnswer forallb].
  unfold JSON.memberAnswer, fitsAnswerMember. cbn [fst snd].
  change (JSON.findField ["questionId"; "value"] "questionId") with (Some "questionId").
  change (JSON.findField ["questionId"; "value"] "value") with (Some "value").
  cbn [String.eqb Ascii.eqb Bool.eqb JSON.storeInt JSON.storeString fitsInt fitsString].
  rewrite (ParseInt_String _ Hsafe). split; reflexivity.
Qed.

(** The server decodes the body the page posts for a list of answers with
    safe ids and well-formed values into exactly those answers. *)
Lemma Decode_stringify (answers : list (Z * string)) :
  Forall (fun a => Client.safeInteger (fst a) = true) answers ->
  Forall (fun a => Client.scalarValues (snd a) = true) answers ->
  JSON.Decode (Client.stringify answers) zeroAnswersRequest
  = (mkAnswersRequest (mk_slice (map (fun a => mkAnswer (fst a) (snd a)) answers)), None).
Proof.
  intros Hids Hvalues. unfold JSON.Decode.
  rewrite (readValue_stringify answers Hvalues).
  pose proof (unmarshal_array "answers" "answers" (map answerObject answers) eq_refl) as Hfst.
  assert (Hfits : fitsRequest (JSON.JObject [("answers", JSON.JArray (map answerObject answers))])
                  = true).
  { cbn [fitsRequest forallb]. unfold fitsRequestMember. cbn [fst snd].
    change (JSON.findField ["answers"] "answers") with (Some "answers").
    cbn [fitsSlice]. rewrite andb_true_r. apply forallb_forall.
    intros j Hj. apply in_map_iff in Hj. destruct Hj as [a [<- Ha]].
    rewrite Forall_forall in Hids. exact (proj2 (answerOf_answerObject a (Hids a Ha))). }
  apply (unmarshal_saved _ zeroAnswersRequest) in Hfits.
  destruct (JSON.unmarshal _ zeroAnswersRequest) as [req saved].
  cbn [fst snd] in *. subst saved. destruct req as [ans]. cbn [Answers] in Hfst.
  rewrite Hfst, map_map. do 3 f_equal.
  apply map_ext_in. intros a Ha. rewrite Forall_forall in Hids.
  exact (proj1 (answerOf_answerObject a (Hids a Ha))).
Qed.

(** *** The form *)

Lemma entries_rendered (questions : list Client.question) :
  forall values rest,
    List.length values = List.length questions ->
    Client.entries (Client.fill values (map Client.renderQuestion questions ++ rest))
    = map (fun qv => (Client.String_ (Client.id (fst qv)), snd qv))
          (combine questions values)
      ++ Client.entries (Client.fill [] rest).
Proof.
  induction questions as [| q qs IH]; intros values rest Hlen.
  - destruct values; [reflexivity | discriminate Hlen].
  - destruct values as [| v values]; [discriminate Hlen |].
    cbn [map app Client.renderQuestion Client.fill combine fst snd].
    change (Client.entries (?n :: ?l)) with
      (match n with
       | Client.Wrapper _ _ _ i =>
           if (Client.name i =? EmptyString)%string then []
           else [(Client.name i, Client.value i)]
       | Client.Button _ _ => []
       end ++ Client.entries l).
    cbn [Client.name Client.value Client.input_id Client.input_type Client.required].
    pose proof (String_nonempty (Client.id q)) as Hne.
    apply String.eqb_neq in Hne. rewrite Hne.
    cbn [app]. f_equal. apply IH. injection Hlen as Hlen. exact Hlen.
Qed.

Lemma answersOf_rendered (l : list (Client.question * string)) :
  Forall (fun qv => Client.safeInteger (Client.id (fst qv)) = true) l ->
  Client.answersOf (map (fun qv => (Client.String_ (Client.id (fst qv)), snd qv)) l)
  = Some (map (fun qv => (Client.id (fst qv), snd qv)) l).
Proof.
  induction l as [| qv l IH]; intros Hall; [reflexivity |].
  cbn [map Client.answersOf].
  rewrite (Number_String _ (Forall_inv Hall)), (IH (Forall_inv_tail Hall)). reflexivity.
Qed.

(** Resetting forgets what was typed. *)
Lemma reset_fill (l : list Client.node) :
  forall values, Client.reset (Client.fill values l) = Client.reset l.
Proof.
  unfold Client.reset.
  induction l as [| n l IH]; intros values; [destruct values; reflexivity |].
  destruct n as [c f t i | b t]; cbn [Client.fill].
  - destruct values as [| v values]; [reflexivity |].
    cbn [map]. rewrite IH. reflexivity.
  - cbn [map]. rewrite IH. reflexivity.
Qed.

(** The form as rendered is in its reset state. *)
Lemma reset_rendered (questions : list Client.question) (p : Client.page) :
  Client.reset (Client.form (Client.renderQuestions questions p))
  = Client.form (Client.renderQuestions questions p).
Proof.
  unfold Client.reset, Client.renderQuestions. cbn [Client.form].
  rewrite map_app, map_map. reflexivity.
Qed.

Lemma submitBody_rendered (questions : list Client.question) (values : list string)
      (p : Client.page) (status : string) :
  Forall (fun q => Client.safeInteger (Client.id q) = true) questions ->
  List.length values = List.length questions ->
  Client.answersOf
    (Client.entries
       (Client.fill values (Client.form (Client.renderQuestions questions p))))
  = Some (map (fun qv => (Client.id (fst qv), snd qv)) (combine questions values)).
Proof.
  intros Hids Hlen. unfold Client.renderQuestions. cbn [Client.form].
  rewrite (entries_rendered questions values _ Hlen).
  cbn [Client.fill Client.entries flat_map]. rewrite app_nil_r.
  apply answersOf_rendered. apply Forall_forall. intros [q v] Hin.
  rewrite Forall_forall in Hids. exact (Hids q (in_combine_l _ _ _ _ Hin)).
Qed.

(** X14. The page and the server agree on the wire format.  For a catalog
    whose ids are safe integers, once the page has rendered it and the user
    has typed a value into every input (any strings of Unicode scalar
    values: quotes, backslashes, control characters, letters of any
    script), submitting posts a body that the server decodes without error
    into exactly one answer per question, in the order of the catalog, with
    the question's id and the typed value unchanged; the server stores that
    batch and answers 200 with {"status":"ok"}, on which the page shows its
    thanks and the form is again as rendered, with empty inputs. *)
Theorem X14_page_submission_round_trip
        (questions : list Client.question) (values : list string)
        (p : Client.page) (sv : server) :
  Forall (fun q => Client.safeInteger (Client.id q) = true) questions ->
  Forall (fun v => Client.scalarValues v = true) values ->
  List.length values = List.length questions ->
  mu (store sv) = Sync.Unlocked ->
  let shown := Client.loadQuestions (Client.Response true (Some questions)) p in
  let filled := Client.mkPage (Client.fill values (Client.form shown))
                              (Client.statusNode shown) in
  exists body,
    Client.submitBody filled = Some body
    /\ JSON.Decode body zeroAnswersRequest = (typed questions values, None)
    /\ serve (POST_answers body) None sv
       = Done (appended sv (typed questions values), okResponse)
    /\ history (appended sv (typed questions values))
       = history sv ++ [typed questions values]
    /\ forall post,
         post body = delivered okResponse ->
         Client.onSubmit post filled
         = Some (Client.mkPage (Client.form shown) "Спасибо!").
Proof.
  intros Hids Hvalues Hlen Hfree shown filled.
  set (answers := map (fun qv => (Client.id (fst qv), snd qv)) (combine questions values)).
  assert (Hanswers : Client.answersOf (Client.entries (Client.form filled)) = Some answers)
    by exact (submitBody_rendered questions values _ EmptyString Hids Hlen).
  assert (Hdec : JSON.Decode (Client.stringify answers) zeroAnswersRequest
                 = (typed questions values, None)).
  { rewrite Decode_stringify.
    - unfold typed, answers. rewrite map_map. reflexivity.
    - apply Forall_forall. intros a Ha. apply in_map_iff in Ha.
      destruct Ha as [[q v] [<- Hin]]. rewrite Forall_forall in Hids.
      exact (Hids q (in_combine_l _ _ _ _ Hin)).
    - apply Forall_forall. intros a Ha. apply in_map_iff in Ha.
      destruct Ha as [[q v] [<- Hin]]. rewrite Forall_forall in Hvalues.
      exact (Hvalues v (in_combine_r _ _ _ _ Hin)). }
  exists (Client.stringify answers). split; [| split; [| split; [| split]]].
  - unfold Client.submitBody. rewrite Hanswers. reflexivity.
  - exact Hdec.
  - rewrite (serve_decoded sv _ _ None Hdec Hfree), writeJSON_ok. reflexivity.
  - unfold history, appended. cbn [store answers]. apply elements_append.
  - intros post Hpost. unfold Client.onSubmit. cbn [Client.form].
    rewrite Hanswers, Hpost. unfold delivered.
    replace (responseOK okResponse) with true by reflexivity.
    unfold filled. cbn [Client.form]. rewrite reset_fill. unfold shown, Client.loadQuestions. cbn [Client.form].
    rewrite reset_rendered. reflexivity.
Qed.

Lemma X14_witness :
  let values := ["Иван"; "30"; dq "'Go' \ C"; String "009" "да"] in
  let shown := Client.loadQuestions (Client.Response true (Some catalogObjects))
                                    (Client.mkPage [] EmptyString) in
  let filled := Client.mkPage (Client.fill values (Client.form shown))
                              (Client.statusNode shown) in
  Forall (fun q => Client.safeInteger (Client.id q) = true) catalogObjects
  /\ Forall (fun v => Client.scalarValues v = true) values
  /\ List.length values = List.length catalogObjects
  /\ mu (store main) = Sync.Unlocked
  /\ exists body,
       Client.submitBody filled = Some body
       /\ serve (POST_answers body) None main
          = Done (appended main (typed catalogObjects values), okResponse).
Proof.
  intros values shown filled.
  assert (Hids : Forall (fun q => Client.safeInteger (Client.id q) = true) catalogObjects)
    by (repeat constructor).
  assert (Hvalues : Forall (fun v => Client.scalarValues v = true) values)
    by (repeat constructor).
  assert (Hlen : List.length values = List.length catalogObjects) by reflexivity.
  assert (Hfree : mu (store main) = Sync.Unlocked) by reflexivity.
  split; [exact Hids | split; [exact Hvalues | split; [exact Hlen | split; [exact Hfree |]]]].
  destruct (X14_page_submission_round_trip
              catalogObjects values (Client.mkPage [] EmptyString) main
              Hids Hvalues Hlen Hfree) as [body [Hbody [_ [Hserve _]]]].
  exists body. split; [exact Hbody | exact Hserve].
Defined.

(** *** What is rendered *)

Lemma String_injective (n m : Z) :
  Client.safeInteger n = true -> Client.safeInteger m = true ->
  Client.String_ n = Client.String_ m -> n = m.
Proof.
  intros Hn Hm E. pose proof (Number_String n Hn) as H.
  rewrite E, (Number_String m Hm) in H. injection H as ->. reflexivity.
Qed.

(** The inputs of a form, in document order. *)
Lemma inputs_rendered (questions : list Client.question) (p : Client.page) :
  Client.inputs (Client.form (Client.renderQuestions questions p))
  = map (fun q => Client.mkInput ("q-" ++ Client.String_ (Client.id q))
                                 (Client.String_ (Client.id q))
                                 (if (Client.type_ q =? "number")%string
                                  then "number" else "text")
                                 true EmptyString) questions.
Proof.
  unfold Client.renderQuestions, Client.inputs. cbn [Client.form].
  rewrite flat_map_app. cbn [flat_map]. rewrite !app_nil_r.
  induction questions as [| q qs IH]; [reflexivity |].
  cbn [map flat_map Client.renderQuestion app]. rewrite IH. reflexivity.
Qed.

(** X15. Rendering a catalog whose ids are safe integers and pairwise
    distinct gives one required, empty input per question, in order; the
    names of the inputs are pairwise distinct, and so are their element
    ids; the name of each input reads back, with [Number], as the id of
    its question; and every label points at the input of its own
    wrapper. *)
Theorem X15_rendered_inputs_identify_questions
        (questions : list Client.question) (p : Client.page) :
  Forall (fun q => Client.safeInteger (Client.id q) = true) questions ->
  NoDup (map Client.id questions) ->
  let inputs := Client.inputs (Client.form (Client.renderQuestions questions p)) in
  map (fun i => Client.Number_ (Client.name i)) inputs
  = map (fun q => Some (Client.id q)) questions
  /\ NoDup (map Client.name inputs)
  /\ NoDup (map Client.input_id inputs)
  /\ Forall (fun i => Client.required i = true /\ Client.value i = EmptyString) inputs
  /\ Forall (fun n => match n with
                      | Client.Wrapper _ labelFor _ i => labelFor = Client.input_id i
                      | Client.Button _ _ => True
                      end)
            (Client.form (Client.renderQuestions questions p)).
Proof.
  intros Hids Hnodup inputs. unfold inputs. rewrite inputs_rendered.
  rewrite !map_map. cbn [Client.name Client.input_id].
  split; [| split; [| split; [| split]]].
  - apply map_ext_in. intros q Hq. rewrite Forall_forall in Hids.
    apply Number_String. exact (Hids q Hq).
  - clear inputs. induction questions as [| q qs IH]; [constructor |].
    cbn [map] in *. apply NoDup_cons_iff in Hnodup. destruct Hnodup as [Hq Hqs].
    pose proof (Forall_inv Hids) as Hsafe. pose proof (Forall_inv_tail Hids) as Hrest.
    constructor; [| exact (IH Hrest Hqs)].
    intros Hin. apply in_map_iff in Hin. destruct Hin as [q' [E Hq']].
    apply Hq. apply in_map_iff. exists q'. split; [| exact Hq'].
    rewrite Forall_forall in Hrest.
    exact (String_injective _ _ (Hrest q' Hq') Hsafe E).
  - clear inputs. induction questions as [| q qs IH]; [constructor |].
    cbn [map] in *. apply NoDup_cons_iff in Hnodup. destruct Hnodup as [Hq Hqs].
    pose proof (Forall_inv Hids) as Hsafe. pose proof (Forall_inv_tail Hids) as Hrest.
    constructor; [| exact (IH Hrest Hqs)].
    intros Hin. apply in_map_iff in Hin. destruct Hin as [q' [E Hq']].
    apply Hq. apply in_map_iff. exists q'. split; [| exact Hq'].
    rewrite Forall_forall in Hrest. cbn [String.append] in E.
    injection E as E.
    exact (String_injective _ _ (Hrest q' Hq') Hsafe E).
  - apply Forall_forall. intros i Hi. apply in_map_iff in Hi.
    destruct Hi as [q [<- _]]. split; reflexivity.
  - unfold Client.renderQuestions. cbn [Client.form]. apply Forall_app. split.
    + apply Forall_forall. intros n Hn. apply in_map_iff in Hn.
      destruct Hn as [q [<- _]]. reflexivity.
    + repeat constructor.
Qed.

Lemma X15_witness :
  let inputs := Client.inputs (Client.form (Client.renderQuestions
                                              catalogObjects (Client.mkPage [] EmptyString))) in
  Forall (fun q => Client.safeInteger (Client.id q) = true) catalogObjects
  /\ NoDup (map Client.id catalogObjects)
  /\ map Client.name inputs = ["1"; "2"; "3"; "4"]
  /\ NoDup (map Client.name inputs).
Proof.
  intros inputs.
  assert (Hids : Forall (fun q => Client.safeInteger (Client.id q) = true) catalogObjects)
    by (repeat constructor).
  assert (Hnodup : NoDup (map Client.id catalogObjects)).
  { repeat constructor; cbn; intuition discriminate. }
  split; [exact Hids | split; [exact Hnodup | split; [reflexivity |]]].
  exact (proj1 (proj2 (X15_rendered_inputs_identify_questions
                         catalogObjects (Client.mkPage [] EmptyString) Hids Hnodup))).
Defined.
